(** * DAMASK orientation algebra: rotations, symmetries, lattices, orientations

    A shallow embedding of [python/damask/rotation.py] (classes [Rotation],
    [Symmetry], [Lattice] and the conversion functions) and of
    [python/damask/_orientation.py] (class [Orientation]).

    Modelling conventions.
    - A double is an ideal real number ([R]): rounding, overflow and signed
      zeros are not represented.  Where the source stores the sentinels
      [np.inf] / [nan] in an array (Rodrigues-Frank vectors), the component
      type is [xfloat], a real extended with the two infinities and NaN.
    - A numpy array of fixed shape (4,) or (3,) is a record; an array whose
      length the source checks or indexes blindly is a [list].
    - A Python exception is a value of [exn]; a call that may raise returns
      a [result].
    - A [Rotation] object is a location in a heap of quaternion buffers;
      methods that work in place are heap transformers.  Functions that only
      read their arguments and build fresh arrays are pure functions on the
      array values. *)

From stdpp Require Import gmap.
From Stdlib Require Import Reals Lra Psatz List ZArith String.
Import ListNotations.

(** ** Exceptions *)

Inductive exn : Type :=
| ValueError (msg : string)
| KeyError (msg : string)
| TypeError (msg : string)
| IndexError (msg : string)
| NotImplementedError (msg : string)
| UnboundLocalError (msg : string).

Inductive result (A : Type) : Type :=
| Ok (a : A)
| Raise (e : exn).

Arguments Ok {A} a.
Arguments Raise {A} e.

Definition rbind {A B : Type} (m : result A) (k : A -> result B) : result B :=
  match m with
  | Ok a => k a
  | Raise e => Raise e
  end.

Notation "x <- m ;; k" := (rbind m (fun x => k))
  (at level 62, m at next level, right associativity).

Fixpoint rmapM {A B : Type} (f : A -> result B) (l : list A) : result (list B) :=
  match l with
  | [] => Ok []
  | a :: l' => b <- f a ;; bs <- rmapM f l' ;; Ok (b :: bs)
  end.

(** ** The numpy primitives the sources use, on ideal reals *)

Module Np.
Local Open Scope R_scope.

Definition ltb (x y : R) : bool := if Rlt_dec x y then true else false.
Definition leb (x y : R) : bool := if Rle_dec x y then true else false.
Definition gtb (x y : R) : bool := ltb y x.
Definition geb (x y : R) : bool := leb y x.
Definition eqb (x y : R) : bool := if Req_dec_T x y then true else false.

Definition any {A : Type} (p : A -> bool) (l : list A) : bool := existsb p l.

(** [np.isclose(a,b,rtol,atol)]: |a-b| <= atol + rtol*|b|; the defaults are
    rtol = 1e-5 and atol = 1e-8. *)
Definition isclose_tol (rtol atol a b : R) : bool :=
  leb (Rabs (a - b)) (atol + rtol * Rabs b).
Definition isclose (a b : R) : bool :=
  isclose_tol (/ 10 ^ 5) (/ 10 ^ 8) a b.

Definition clip (x lo hi : R) : R :=
  if ltb x lo then lo else if ltb hi x then hi else x.

(** [np.arctan2(y,x)], without the signed-zero cases. *)
Definition arctan2 (y x : R) : R :=
  if ltb 0 x then atan (y / x)
  else if ltb x 0 then (if ltb y 0 then atan (y / x) - PI else atan (y / x) + PI)
  else if ltb 0 y then PI / 2
  else if ltb y 0 then - (PI / 2)
  else 0.

Definition floor (x : R) : Z := Int_part x.

(** Float [%]: the result takes the sign of the divisor. *)
Definition mod_ (x m : R) : R := x - IZR (floor (x / m)) * m.

(** [np.around(x,12)] rounds x*1e12 half to even and scales back. *)
Definition rint (x : R) : Z :=
  let n := floor x in
  let f := x - IZR n in
  if ltb f (1 / 2) then n
  else if ltb (1 / 2) f then (n + 1)%Z
  else if Z.even n then n else (n + 1)%Z.
Definition around12 (x : R) : R := IZR (rint (x * 10 ^ 12)) / 10 ^ 12.

Definition dot (a b : list R) : R :=
  fold_right Rplus 0 (map (fun p => fst p * snd p) (combine a b)).
Definition norm (a : list R) : R := sqrt (dot a a).

End Np.

Local Open Scope R_scope.

(** [P = -1], the module-level chirality constant. *)
Definition P : R := -1.

Definition iszero (a : R) : bool := Np.isclose_tol 0 (/ 10 ^ 12) a 0.

(** ** Arrays of fixed shape *)

(** Shape (3,). *)
Record vec3 : Type := mkV { v0 : R; v1 : R; v2 : R }.

(** Shape (4,): [quaternion[0]] is the real part, [quaternion[1:]] the
    vector part. *)
Record quat : Type := mkQ { q0 : R; q1 : R; q2 : R; q3 : R }.

Definition tail3 (q : quat) : vec3 := mkV (q1 q) (q2 q) (q3 q).
Definition append (s : R) (v : vec3) : quat := mkQ s (v0 v) (v1 v) (v2 v).

Definition dot3 (a b : vec3) : R := v0 a * v0 b + v1 a * v1 b + v2 a * v2 b.
Definition cross (a b : vec3) : vec3 :=
  mkV (v1 a * v2 b - v2 a * v1 b)
      (v2 a * v0 b - v0 a * v2 b)
      (v0 a * v1 b - v1 a * v0 b).
Definition scale3 (s : R) (a : vec3) : vec3 := mkV (s * v0 a) (s * v1 a) (s * v2 a).
Definition add3 (a b : vec3) : vec3 := mkV (v0 a + v0 b) (v1 a + v1 b) (v2 a + v2 b).
Definition norm3 (a : vec3) : R := sqrt (dot3 a a).
Definition vec3_list (a : vec3) : list R := [v0 a; v1 a; v2 a].

Definition qscale (s : R) (q : quat) : quat :=
  mkQ (s * q0 q) (s * q1 q) (s * q2 q) (s * q3 q).
Definition qdot (a b : quat) : R :=
  q0 a * q0 b + q1 a * q1 b + q2 a * q2 b + q3 a * q3 b.
Definition qnorm (q : quat) : R := sqrt (qdot q q).
Definition quat_list (q : quat) : list R := [q0 q; q1 q; q2 q; q3 q].

(** A 3x3 array, by rows. *)
Record mat3 : Type := mkM { row0 : vec3; row1 : vec3; row2 : vec3 }.

Definition col0 (m : mat3) : vec3 := mkV (v0 (row0 m)) (v0 (row1 m)) (v0 (row2 m)).
Definition col1 (m : mat3) : vec3 := mkV (v1 (row0 m)) (v1 (row1 m)) (v1 (row2 m)).
Definition col2 (m : mat3) : vec3 := mkV (v2 (row0 m)) (v2 (row1 m)) (v2 (row2 m)).
Definition transpose (m : mat3) : mat3 := mkM (col0 m) (col1 m) (col2 m).
Definition matvec (m : mat3) (v : vec3) : vec3 :=
  mkV (dot3 (row0 m) v) (dot3 (row1 m) v) (dot3 (row2 m) v).
Definition matmul (a b : mat3) : mat3 :=
  let r x := mkV (dot3 x (col0 b)) (dot3 x (col1 b)) (dot3 x (col2 b)) in
  mkM (r (row0 a)) (r (row1 a)) (r (row2 a)).
Definition det (m : mat3) : R := dot3 (row0 m) (cross (row1 m) (row2 m)).

(** ** Class [Rotation] *)

(** *** What the methods do to the quaternion buffer *)

(** [self.quaternion[1:] *= -1] *)
Definition inverse_array (q : quat) : quat :=
  mkQ (q0 q) (q1 q * -1) (q2 q * -1) (q3 q * -1).

(** [if self.quaternion[0] < 0.0: self.quaternion *= -1] *)
Definition standardize_array (q : quat) : quat :=
  if Np.ltb (q0 q) 0 then mkQ (q0 q * -1) (q1 q * -1) (q2 q * -1) (q3 q * -1)
  else q.

(** *** Objects: a heap of quaternion buffers *)

Module Rotation.

(** A heap maps the address of a Rotation object to its buffer.  A method
    is a heap transformer; [None] stands for a dangling reference, which no
    Python program can produce. *)
Definition M (A : Type) : Type := gmap nat quat -> option (A * gmap nat quat).

Definition ret {A : Type} (a : A) : M A := fun h => Some (a, h).
Definition bind {A B : Type} (m : M A) (k : A -> M B) : M B :=
  fun h => match m h with
           | Some (a, h') => k a h'
           | None => None
           end.

Definition get (self : nat) : M quat :=
  fun h => match h !! self with
           | Some q => Some (q, h)
           | None => None
           end.

Definition update (self : nat) (f : quat -> quat) : M unit :=
  fun h => match h !! self with
           | Some q => Some (tt, <[self := f q]> h)
           | None => None
           end.

(** [__init__]: [self.quaternion = quaternion.copy()], a new object with a
    buffer of its own. *)
Definition init (quaternion : quat) : M nat :=
  fun h => let self := fresh (dom h) in Some (self, <[self := quaternion]> h).

(** [__copy__]: [self.__class__(self.quaternion)] *)
Definition copy (self : nat) : M nat :=
  bind (get self) init.

(** [inverse]: in place, returns [self]. *)
Definition inverse (self : nat) : M nat :=
  bind (update self inverse_array) (fun _ => ret self).

(** [inversed]: [self.copy().inverse()] *)
Definition inversed (self : nat) : M nat :=
  bind (copy self) inverse.

(** [standardize]: in place, returns [self]. *)
Definition standardize (self : nat) : M nat :=
  bind (update self standardize_array) (fun _ => ret self).

(** [standardized]: [self.copy().standardize()] *)
Definition standardized (self : nat) : M nat :=
  bind (copy self) standardize.

End Rotation.

(** *** Methods that only read their arguments, on the buffer values *)

(** The value of [self.inversed()]: the buffer of the inverted copy. *)
Definition inversed (q : quat) : quat := inverse_array q.

(** The value of [self.standardized()]. *)
Definition standardized (q : quat) : quat := standardize_array q.

(** [qu2om] *)
Definition qu2om (qu : quat) : mat3 :=
  let qq := q0 qu ^ 2 - (q1 qu ^ 2 + q2 qu ^ 2 + q3 qu ^ 2) in
  let om :=
    mkM (mkV (qq + 2 * q1 qu ^ 2)
             (2 * (q1 qu * q2 qu - q0 qu * q3 qu))
             (2 * (q1 qu * q3 qu + q0 qu * q2 qu)))
        (mkV (2 * (q2 qu * q1 qu + q0 qu * q3 qu))
             (qq + 2 * q2 qu ^ 2)
             (2 * (q2 qu * q3 qu - q0 qu * q1 qu)))
        (mkV (2 * (q3 qu * q1 qu - q0 qu * q2 qu))
             (2 * (q3 qu * q2 qu + q0 qu * q1 qu))
             (qq + 2 * q3 qu ^ 2)) in
  if Np.gtb P 0 then om else transpose om.

Definition asMatrix (self : quat) : mat3 := qu2om self.

(** The right operand of [*]. *)
Inductive operand : Type :=
| ORotation (other : quat)         (* a Rotation *)
| OTuple (other : list R)          (* a tuple of numbers *)
| OVector (other : vec3)           (* an ndarray of shape (3,) *)
| OMatrix (other : mat3)           (* an ndarray of shape (3,3) *)
| OTensor4                         (* an ndarray of shape (3,3,3,3) *)
| OArray                           (* an ndarray of any other shape *)
| OOther.                          (* anything else *)

Inductive product : Type :=
| PRotation (r : quat)
| PVector (v : vec3)
| PMatrix (m : mat3)
| NotImplemented.

(** [__mul__], first branch: rotate a rotation.  The product is built in a
    new object [R], which is standardized in place and returned. *)
Definition mul_rotation (self other : quat) : quat :=
  let self_q := q0 self in
  let self_p := tail3 self in
  let other_q := q0 other in
  let other_p := tail3 other in
  let R := append (self_q * other_q - dot3 self_p other_p)
                  (add3 (add3 (scale3 self_q other_p) (scale3 other_q self_p))
                        (scale3 P (cross self_p other_p))) in
  standardize_array R.

(** [__mul__], second branch: rotate a single 3-vector. *)
Definition mul_vector (self : quat) (other : vec3) : vec3 :=
  let A := q0 self ^ 2 - dot3 (tail3 self) (tail3 self) in
  let B := 2 * (q1 self * v0 other + q2 self * v1 other + q3 self * v2 other) in
  let C := 2 * P * q0 self in
  mkV (A * v0 other + B * q1 self + C * (q2 self * v2 other - q3 self * v1 other))
      (A * v1 other + B * q2 self + C * (q3 self * v0 other - q1 self * v2 other))
      (A * v2 other + B * q3 self + C * (q1 self * v1 other - q2 self * v0 other)).

Definition tuple3 (t : list R) : result vec3 :=
  match t with
  | a :: b :: c :: _ => Ok (mkV a b c)
  | _ => Raise (IndexError "tuple index out of range")
  end.

(** [__mul__] *)
Definition mul (self : quat) (other : operand) : result product :=
  match other with
  | ORotation o => Ok (PRotation (mul_rotation self o))
  | OTuple t => v <- tuple3 t ;; Ok (PVector (mul_vector self v))
  | OVector v => Ok (PVector (mul_vector self v))
  | OMatrix m =>
      Ok (PMatrix (matmul (asMatrix self) (matmul m (transpose (asMatrix self)))))
  | OTensor4 => Raise (NotImplementedError "")
  | OArray => Ok NotImplemented
  | OOther => Ok NotImplemented
  end.

(** [misorientation]: [other*self.inversed()] *)
Definition misorientation (self other : quat) : quat :=
  mul_rotation other (inversed self).

(** *** Conversions used by the constructors *)

(** [eu2qu] *)
Definition eu2qu (eu : vec3) : quat :=
  let ee := scale3 (1 / 2) eu in
  let cPhi := cos (v1 ee) in
  let sPhi := sin (v1 ee) in
  let qu := mkQ (cPhi * cos (v0 ee + v2 ee))
                (- P * sPhi * cos (v0 ee - v2 ee))
                (- P * sPhi * sin (v0 ee - v2 ee))
                (- P * cPhi * sin (v0 ee + v2 ee)) in
  if Np.ltb (q0 qu) 0 then qscale (-1) qu else qu.

(** [eu = np.where(eu<0, (eu+2.0*np.pi)%np.array([2.0*np.pi,np.pi,2.0*np.pi]),eu)] *)
Definition reduce_eulers (eu : vec3) : vec3 :=
  let f x m := if Np.ltb x 0 then Np.mod_ (x + 2 * PI) m else x in
  mkV (f (v0 eu) (2 * PI)) (f (v1 eu) PI) (f (v2 eu) (2 * PI)).

(** [om2eu]; [om[i,j]] is component j of row i. *)
Definition om2eu (om : mat3) : vec3 :=
  let om22 := v2 (row2 om) in
  let eu :=
    if Np.ltb (Rabs om22) 1 then
      let zeta := 1 / sqrt (1 - om22 ^ 2) in
      mkV (Np.arctan2 (v0 (row2 om) * zeta) (- v1 (row2 om) * zeta))
          (acos om22)
          (Np.arctan2 (v2 (row0 om) * zeta) (v2 (row1 om) * zeta))
    else
      mkV (Np.arctan2 (v1 (row0 om)) (v0 (row0 om)))
          (PI * (1 / 2) * (1 - om22))
          0 in
  reduce_eulers eu.

(** [om2qu] *)
Definition om2qu (om : mat3) : quat := eu2qu (om2eu om).

(** An array with NaN and the infinities among its components. *)
Inductive xfloat : Type :=
| Fin (x : R)
| PInf
| NInf
| NaN.

Module X.

Definition mul (a b : xfloat) : xfloat :=
  let inf_times (pos : bool) (x : R) :=
    if Np.ltb 0 x then (if pos then PInf else NInf)
    else if Np.ltb x 0 then (if pos then NInf else PInf)
    else NaN in
  match a, b with
  | NaN, _ | _, NaN => NaN
  | Fin x, Fin y => Fin (x * y)
  | Fin x, PInf | PInf, Fin x => inf_times true x
  | Fin x, NInf | NInf, Fin x => inf_times false x
  | PInf, PInf | NInf, NInf => PInf
  | PInf, NInf | NInf, PInf => NInf
  end.

Definition add (a b : xfloat) : xfloat :=
  match a, b with
  | NaN, _ | _, NaN => NaN
  | Fin x, Fin y => Fin (x + y)
  | PInf, NInf | NInf, PInf => NaN
  | PInf, _ | _, PInf => PInf
  | NInf, _ | _, NInf => NInf
  end.

Definition neg (a : xfloat) : xfloat :=
  match a with
  | Fin x => Fin (- x)
  | PInf => NInf
  | NInf => PInf
  | NaN => NaN
  end.

Definition sub (a b : xfloat) : xfloat := add a (neg b).

Definition abs (a : xfloat) : xfloat :=
  match a with
  | Fin x => Fin (Rabs x)
  | PInf | NInf => PInf
  | NaN => NaN
  end.

(** [a >= b]; any comparison with NaN is false. *)
Definition geb (a b : xfloat) : bool :=
  match a, b with
  | NaN, _ | _, NaN => false
  | Fin x, Fin y => Np.geb x y
  | PInf, _ => true
  | _, NInf => true
  | _, PInf => false
  | NInf, _ => false
  end.

(** [a == b] *)
Definition eqb (a b : xfloat) : bool :=
  match a, b with
  | Fin x, Fin y => Np.eqb x y
  | PInf, PInf | NInf, NInf => true
  | _, _ => false
  end.

Definition isinf (a : xfloat) : Prop := a = PInf \/ a = NInf.

End X.

(** [qu2ro] *)
Definition qu2ro (qu : quat) : list xfloat :=
  if iszero (q0 qu) then [Fin (q1 qu); Fin (q2 qu); Fin (q3 qu); PInf]
  else
    let s := Np.norm [q1 qu; q2 qu; q3 qu] in
    if iszero s then [Fin 0; Fin 0; Fin P; Fin 0]
    else [Fin (q1 qu / s); Fin (q2 qu / s); Fin (q3 qu / s);
          Fin (tan (acos (Np.clip (q0 qu) (-1) 1)))].

(** [asRodrigues]: [ro[:3]*ro[3] if vector else ro] *)
Definition asRodrigues (self : quat) (vector : bool) : list xfloat :=
  let ro := qu2ro self in
  if vector then map (fun x => X.mul x (nth 3 ro NaN)) (firstn 3 ro) else ro.

(** [asM]: [np.outer(self.quaternion,self.quaternion)], by rows. *)
Record mat4 : Type := mkM4 { m0 : quat; m1 : quat; m2 : quat; m3 : quat }.

Definition outer (a b : quat) : mat4 :=
  mkM4 (qscale (q0 a) b) (qscale (q1 a) b) (qscale (q2 a) b) (qscale (q3 a) b).
Definition asM (self : quat) : mat4 := outer self self.

Definition map4 (f : quat -> quat) (m : mat4) : mat4 :=
  mkM4 (f (m0 m)) (f (m1 m)) (f (m2 m)) (f (m3 m)).
Definition qadd (a b : quat) : quat :=
  mkQ (q0 a + q0 b) (q1 a + q1 b) (q2 a + q2 b) (q3 a + q3 b).
Definition add4 (a b : mat4) : mat4 :=
  mkM4 (qadd (m0 a) (m0 b)) (qadd (m1 a) (m1 b)) (qadd (m2 a) (m2 b)) (qadd (m3 a) (m3 b)).
Definition times4 (m : mat4) (n : R) : mat4 :=
  map4 (fun r => mkQ (q0 r * n) (q1 r * n) (q2 r * n) (q3 r * n)) m.
Definition div4 (m : mat4) (n : R) : mat4 :=
  map4 (fun r => mkQ (q0 r / n) (q1 r / n) (q2 r / n) (q3 r / n)) m.
Definition matvec4 (m : mat4) (v : quat) : quat :=
  mkQ (qdot (m0 m) v) (qdot (m1 m) v) (qdot (m2 m) v) (qdot (m3 m) v).
(** Row [i] of the transpose, that is column [i]; numpy raises past 3. *)
Definition column (m : mat4) (i : nat) : result quat :=
  let c (f : quat -> R) := Ok (mkQ (f (m0 m)) (f (m1 m)) (f (m2 m)) (f (m3 m))) in
  match i with
  | 0%nat => c q0
  | 1%nat => c q1
  | 2%nat => c q2
  | 3%nat => c q3
  | _ => Raise (IndexError "index is out of bounds for axis 0 with size 4")
  end.

(** [ndarray.argmax]: the first index that holds the maximum. *)
Fixpoint argmax_from (best : R) (ibest i : nat) (l : list R) : nat :=
  match l with
  | [] => ibest
  | x :: l' =>
      if Np.ltb best x then argmax_from x i (S i) l'
      else argmax_from best ibest (S i) l'
  end.
Definition argmax (l : list R) : nat :=
  match l with
  | [] => 0%nat
  | x :: l' => argmax_from x 0%nat 1%nat l'
  end.

(** *** Static constructors *)

(** [fromQuaternion]; the keyword [P] shadows the module constant. *)
Definition fromQuaternion (quaternion : quat) (acceptHomomorph : bool) (P : R)
  : result quat :=
  let qu := if Np.gtb P 0 then inverse_array quaternion else quaternion in
  qu <- (if Np.ltb (q0 qu) 0 then
           if acceptHomomorph then Ok (qscale (-1) qu)
           else Raise (ValueError "Quaternion has negative first component.")
         else Ok qu) ;;
  if negb (Np.isclose (qnorm qu) 1) then
    Raise (ValueError "Quaternion is not of unit length.")
  else Ok qu.

Definition radians (x : R) : R := x * PI / 180.

(** [fromEulers].  The input is any sequence of numbers; with fewer than
    three of them either the message formatting, [eu[1]] or [eu2qu] raises
    an [IndexError]. *)
Definition fromEulers (eulers : list R) (degrees : bool) : result quat :=
  let eu := if degrees then map radians eulers else eulers in
  match eu with
  | e0 :: e1 :: e2 :: _ =>
      if Np.any (fun x => Np.ltb x 0) eu
         || Np.any (fun x => Np.gtb x (2 * PI)) eu
         || Np.gtb e1 PI
      then Raise (ValueError "Euler angles outside of [0..2pi],[0..pi],[0..2pi].")
      else Ok (eu2qu (mkV e0 e1 e2))
  | _ => Raise (IndexError "index out of range")
  end.

(** [fromBasis] as [fromMatrix] calls it: [orthonormal = True] and
    [reciprocal = False], so that the basis is checked as it is given. *)
Definition fromBasis (basis : mat3) : result quat :=
  let om := basis in
  if negb (Np.isclose (det om) 1) then
    Raise (ValueError "matrix is not a proper rotation.")
  else if negb (Np.isclose (dot3 (row0 om) (row1 om)) 0)
          || negb (Np.isclose (dot3 (row1 om) (row2 om)) 0)
          || negb (Np.isclose (dot3 (row2 om) (row0 om)) 0) then
    Raise (ValueError "matrix is not orthogonal.")
  else Ok (om2qu om).

(** [fromMatrix] *)
Definition fromMatrix (om : mat3) : result quat := fromBasis om.

Section Average.

(** [np.linalg.eig] on a 4x4 array: the eigenvalues and the array whose
    columns are the eigenvectors.  The solver is LAPACK's, outside the
    repository. *)
Variable eig : mat4 -> quat * mat4.

(** [fromAverage]; an empty [weights] stands for the default as well. *)
Definition fromAverage (rotations : list quat) (weights : list R) : result quat :=
  let N := List.length rotations in
  let weights := match weights with
                 | [] => repeat 1 N
                 | _ => weights
                 end in
  let step (M : option mat4) (rn : quat * R) :=
    match M with
    | None => Some (times4 (asM (fst rn)) (snd rn))
    | Some M => Some (add4 M (times4 (asM (fst rn)) (snd rn)))
    end in
  match fold_left step (combine rotations weights) None with
  | None => Raise (UnboundLocalError "local variable M referenced before assignment")
  | Some M =>
      let (eig_, vec) := eig (div4 M (INR N)) in
      v <- column vec (argmax (quat_list eig_)) ;;
      fromQuaternion v true (-1)
  end.

End Average.

(** ** Class [Symmetry] *)

(** The value of [self.lattice]: an entry of
    [lattices = [None,'orthorhombic','tetragonal','hexagonal','cubic']]. *)
Inductive Symmetry : Type :=
| none
| orthorhombic
| tetragonal
| hexagonal
| cubic.

Definition Symmetry_eqb (a b : Symmetry) : bool :=
  match a, b with
  | none, none | orthorhombic, orthorhombic | tetragonal, tetragonal
  | hexagonal, hexagonal | cubic, cubic => true
  | _, _ => false
  end.

(** [str.lower] on ASCII letters. *)
Definition lower_ascii (c : Ascii.ascii) : Ascii.ascii :=
  let n := Ascii.nat_of_ascii c in
  if (65 <=? n)%nat && (n <=? 90)%nat then Ascii.ascii_of_nat (n + 32) else c.
Fixpoint lower (s : string) : string :=
  match s with
  | EmptyString => EmptyString
  | String c s' => String (lower_ascii c) (lower s')
  end.

(** [__init__] *)
Definition Symmetry_init (symmetry : option string) : result Symmetry :=
  match symmetry with
  | None => Ok none
  | Some s =>
      let l := lower s in
      if String.eqb l "orthorhombic" then Ok orthorhombic
      else if String.eqb l "tetragonal" then Ok tetragonal
      else if String.eqb l "hexagonal" then Ok hexagonal
      else if String.eqb l "cubic" then Ok cubic
      else Raise (KeyError "Symmetry/crystal system is unknown")
  end.

(** [symQuats] of [symmetryOperations], in the order of the source. *)
Definition symQuats (self : Symmetry) : list quat :=
  match self with
  | cubic =>
      [ mkQ 1 0 0 0;
        mkQ 0 1 0 0;
        mkQ 0 0 1 0;
        mkQ 0 0 0 1;
        mkQ 0 0 (0.5 * sqrt 2) (0.5 * sqrt 2);
        mkQ 0 0 (0.5 * sqrt 2) (- 0.5 * sqrt 2);
        mkQ 0 (0.5 * sqrt 2) 0 (0.5 * sqrt 2);
        mkQ 0 (0.5 * sqrt 2) 0 (- 0.5 * sqrt 2);
        mkQ 0 (0.5 * sqrt 2) (- 0.5 * sqrt 2) 0;
        mkQ 0 (- 0.5 * sqrt 2) (- 0.5 * sqrt 2) 0;
        mkQ 0.5 0.5 0.5 0.5;
        mkQ (- 0.5) 0.5 0.5 0.5;
        mkQ (- 0.5) 0.5 0.5 (- 0.5);
        mkQ (- 0.5) 0.5 (- 0.5) 0.5;
        mkQ (- 0.5) (- 0.5) 0.5 0.5;
        mkQ (- 0.5) (- 0.5) 0.5 (- 0.5);
        mkQ (- 0.5) (- 0.5) (- 0.5) 0.5;
        mkQ (- 0.5) 0.5 (- 0.5) (- 0.5);
        mkQ (- 0.5 * sqrt 2) 0 0 (0.5 * sqrt 2);
        mkQ (0.5 * sqrt 2) 0 0 (0.5 * sqrt 2);
        mkQ (- 0.5 * sqrt 2) 0 (0.5 * sqrt 2) 0;
        mkQ (- 0.5 * sqrt 2) 0 (- 0.5 * sqrt 2) 0;
        mkQ (- 0.5 * sqrt 2) (0.5 * sqrt 2) 0 0;
        mkQ (- 0.5 * sqrt 2) (- 0.5 * sqrt 2) 0 0 ]
  | hexagonal =>
      [ mkQ 1 0 0 0;
        mkQ (- 0.5 * sqrt 3) 0 0 (- 0.5);
        mkQ 0.5 0 0 (0.5 * sqrt 3);
        mkQ 0 0 0 1;
        mkQ (- 0.5) 0 0 (0.5 * sqrt 3);
        mkQ (- 0.5 * sqrt 3) 0 0 0.5;
        mkQ 0 1 0 0;
        mkQ 0 (- 0.5 * sqrt 3) 0.5 0;
        mkQ 0 0.5 (- 0.5 * sqrt 3) 0;
        mkQ 0 0 1 0;
        mkQ 0 (- 0.5) (- 0.5 * sqrt 3) 0;
        mkQ 0 (0.5 * sqrt 3) 0.5 0 ]
  | tetragonal =>
      [ mkQ 1 0 0 0;
        mkQ 0 1 0 0;
        mkQ 0 0 1 0;
        mkQ 0 0 0 1;
        mkQ 0 (0.5 * sqrt 2) (0.5 * sqrt 2) 0;
        mkQ 0 (- 0.5 * sqrt 2) (0.5 * sqrt 2) 0;
        mkQ (0.5 * sqrt 2) 0 0 (0.5 * sqrt 2);
        mkQ (- 0.5 * sqrt 2) 0 0 (0.5 * sqrt 2) ]
  | orthorhombic =>
      [ mkQ 1 0 0 0;
        mkQ 0 1 0 0;
        mkQ 0 0 1 0;
        mkQ 0 0 0 1 ]
  | none =>
      [ mkQ 1 0 0 0 ]
  end.

(** The argument [members]: a list of indices, or a single index. *)
Inductive members_arg : Type :=
| Members (l : list nat)
| Member (i : nat).

Definition take (symQuats : list quat) (i : nat) : result quat :=
  match nth_error symQuats i with
  | Some q => Ok q
  | None => Raise (IndexError "index is out of bounds for axis 0")
  end.

(** [symmetryOperations]; an empty list of members asks for all. *)
Definition symmetryOperations (self : Symmetry) (members : members_arg)
  : result (list quat + quat) :=
  match members with
  | Members [] => Ok (inl (symQuats self))
  | Members l => symOps <- rmapM (take (symQuats self)) l ;; Ok (inl symOps)
  | Member i => q <- take (symQuats self) i ;; Ok (inr q)
  end.

(** [inFZ] *)
Definition inFZ (self : Symmetry) (rodrigues : list xfloat) : result bool :=
  match rodrigues with
  | [r0; r1; r2] =>
      if Np.any (fun x => X.eqb x PInf) rodrigues then Ok false
      else
        let Rabs0 := X.abs r0 in
        let Rabs1 := X.abs r1 in
        let Rabs2 := X.abs r2 in
        match self with
        | cubic =>
            Ok (X.geb (Fin (sqrt 2 - 1)) Rabs0
                && X.geb (Fin (sqrt 2 - 1)) Rabs1
                && X.geb (Fin (sqrt 2 - 1)) Rabs2
                && X.geb (Fin 1) (X.add (X.add Rabs0 Rabs1) Rabs2))
        | hexagonal =>
            Ok (X.geb (Fin 1) Rabs0 && X.geb (Fin 1) Rabs1 && X.geb (Fin 1) Rabs2
                && X.geb (Fin 2) (X.add (X.mul (Fin (sqrt 3)) Rabs0) Rabs1)
                && X.geb (Fin 2) (X.add (X.mul (Fin (sqrt 3)) Rabs1) Rabs0)
                && X.geb (Fin 2) (X.add (Fin (sqrt 3)) Rabs2))
        | tetragonal =>
            Ok (X.geb (Fin 1) Rabs0 && X.geb (Fin 1) Rabs1
                && X.geb (Fin (sqrt 2)) (X.add Rabs0 Rabs1)
                && X.geb (Fin (sqrt 2)) (X.add Rabs2 (Fin 1)))
        | orthorhombic =>
            Ok (X.geb (Fin 1) Rabs0 && X.geb (Fin 1) Rabs1 && X.geb (Fin 1) Rabs2)
        | none => Ok true
        end
  | _ => Raise (ValueError "Input is not a Rodriques-Frank vector.")
  end.

(** [inDisorientationSST] *)
Definition inDisorientationSST (self : Symmetry) (rodrigues : list xfloat)
  : result bool :=
  match rodrigues with
  | [r0; r1; r2] =>
      let epsilon := Fin 0 in
      match self with
      | cubic =>
          Ok (X.geb r0 (X.add r1 epsilon) && X.geb r1 (X.add r2 epsilon)
              && X.geb r2 epsilon)
      | hexagonal =>
          Ok (X.geb r0 (X.mul (Fin (sqrt 3)) (X.sub r1 epsilon))
              && X.geb r1 epsilon && X.geb r2 epsilon)
      | tetragonal =>
          Ok (X.geb r0 (X.sub r1 epsilon) && X.geb r1 epsilon && X.geb r2 epsilon)
      | orthorhombic =>
          Ok (X.geb r0 epsilon && X.geb r1 epsilon && X.geb r2 epsilon)
      | none => Ok true
      end
  | _ => Raise (ValueError "Input is not a Rodriques-Frank vector.")
  end.

(** The two bases of [inSST]; the unspecified symmetry has none. *)
Definition basis_improper (self : Symmetry) : option mat3 :=
  match self with
  | cubic => Some (mkM (mkV (-1) 0 1)
                       (mkV (sqrt 2) (- sqrt 2) 0)
                       (mkV 0 (sqrt 3) 0))
  | hexagonal => Some (mkM (mkV 0 0 1)
                           (mkV 1 (- sqrt 3) 0)
                           (mkV 0 2 0))
  | tetragonal => Some (mkM (mkV 0 0 1)
                            (mkV 1 (-1) 0)
                            (mkV 0 (sqrt 2) 0))
  | orthorhombic => Some (mkM (mkV 0 0 1) (mkV 1 0 0) (mkV 0 1 0))
  | none => None
  end.

Definition basis_proper (self : Symmetry) : option mat3 :=
  match self with
  | cubic => Some (mkM (mkV 0 (-1) 1)
                       (mkV (- sqrt 2) (sqrt 2) 0)
                       (mkV (sqrt 3) 0 0))
  | hexagonal => Some (mkM (mkV 0 0 1)
                           (mkV (-1) (sqrt 3) 0)
                           (mkV (sqrt 3) (-1) 0))
  | tetragonal => Some (mkM (mkV 0 0 1)
                            (mkV (-1) 1 0)
                            (mkV (sqrt 2) 0 0))
  | orthorhombic => Some (mkM (mkV 0 0 1) (mkV (-1) 0 0) (mkV 0 1 0))
  | none => None
  end.

(** What [inSST] returns: a verdict, or a verdict with a colour. *)
Inductive verdict : Type :=
| Verdict (inSST : bool)
| VerdictColor (inSST : bool) (rgb : vec3).

Definition around3 (v : vec3) : vec3 :=
  mkV (Np.around12 (v0 v)) (Np.around12 (v1 v)) (Np.around12 (v2 v)).
Definition all_nonneg (v : vec3) : bool :=
  Np.geb (v0 v) 0 && Np.geb (v1 v) 0 && Np.geb (v2 v) 0.

(** [np.dot(basis,v)] wants three components. *)
Definition dot_basis (basis : mat3) (v : list R) : result vec3 :=
  match v with
  | [a; b; c] => Ok (matvec basis (mkV a b c))
  | _ => Raise (ValueError "shapes not aligned")
  end.

(** [v[2] = abs(v[2])] *)
Definition abs_z (v : list R) : result (list R) :=
  match v with
  | a :: b :: c :: v' => Ok (a :: b :: Rabs c :: v')
  | _ => Raise (IndexError "index 2 is out of bounds")
  end.

(** The colour of a vector inside the triangle. *)
Definition color_of (theComponents : vec3) : vec3 :=
  let n := norm3 theComponents in
  let rgb := mkV (sqrt (v0 theComponents / n))
                 (sqrt (v1 theComponents / n))
                 (sqrt (v2 theComponents / n)) in
  let rgb := mkV (Rmin 1 (v0 rgb)) (Rmin 1 (v1 rgb)) (Rmin 1 (v2 rgb)) in
  let m := Rmax (Rmax (v0 rgb) (v1 rgb)) (v2 rgb) in
  mkV (v0 rgb / m) (v1 rgb / m) (v2 rgb / m).

(** [inSST] *)
Definition inSST (self : Symmetry) (vector : list R) (proper color : bool)
  : result verdict :=
  match basis_improper self, basis_proper self with
  | Some improper, Some proper_basis =>
      let v := vector in
      tested <-
        (if proper then
           c <- dot_basis improper v ;;
           let theComponents := around3 c in
           let inSST := all_nonneg theComponents in
           if negb inSST then
             c <- dot_basis proper_basis v ;;
             let theComponents := around3 c in
             Ok (theComponents, all_nonneg theComponents)
           else Ok (theComponents, inSST)
         else
           v <- abs_z v ;;
           c <- dot_basis improper v ;;
           let theComponents := around3 c in
           Ok (theComponents, all_nonneg theComponents)) ;;
      let (theComponents, inSST) := (tested : vec3 * bool) in
      if color then
        if (inSST : bool) then Ok (VerdictColor inSST (color_of theComponents))
        else Ok (VerdictColor inSST (mkV 0 0 0))
      else Ok (Verdict inSST)
  | _, _ =>
      (* direct exit for unspecified symmetry *)
      if color then Ok (VerdictColor true (mkV 0 0 0))
      else Ok (Verdict true)
  end.

(** ** Class [Lattice] *)

(** A Miller-index triple of an orientation-relationship table; the
    tables hold whole numbers, stored as floats. *)
Definition miller_index : Type := (Z * Z * Z)%type.

Definition to_vec3 (m : miller_index) : vec3 :=
  let '(a, b, c) := m in mkV (IZR a) (IZR b) (IZR c).

(** One relationship: [mapping] of lattice to column, and the arrays
    [planes] and [directions] of shape (n,2,3). *)
Record relationship : Type := mkRelationship {
  mapping : list (string * nat);
  planes : list (miller_index * miller_index);
  directions : list (miller_index * miller_index)
}.

Local Open Scope Z_scope.

Definition KS : relationship :=
  mkRelationship [("fcc"%string, 0%nat); ("bcc"%string, 1%nat)]
    [ ((1, 1, 1), (0, 1, 1));
      ((1, 1, 1), (0, 1, 1));
      ((1, 1, 1), (0, 1, 1));
      ((1, 1, 1), (0, 1, 1));
      ((1, 1, 1), (0, 1, 1));
      ((1, 1, 1), (0, 1, 1));
      ((1, -1, 1), (0, 1, 1));
      ((1, -1, 1), (0, 1, 1));
      ((1, -1, 1), (0, 1, 1));
      ((1, -1, 1), (0, 1, 1));
      ((1, -1, 1), (0, 1, 1));
      ((1, -1, 1), (0, 1, 1));
      ((-1, 1, 1), (0, 1, 1));
      ((-1, 1, 1), (0, 1, 1));
      ((-1, 1, 1), (0, 1, 1));
      ((-1, 1, 1), (0, 1, 1));
      ((-1, 1, 1), (0, 1, 1));
      ((-1, 1, 1), (0, 1, 1));
      ((1, 1, -1), (0, 1, 1));
      ((1, 1, -1), (0, 1, 1));
      ((1, 1, -1), (0, 1, 1));
      ((1, 1, -1), (0, 1, 1));
      ((1, 1, -1), (0, 1, 1));
      ((1, 1, -1), (0, 1, 1)) ]
    [ ((-1, 0, 1), (-1, -1, 1));
      ((-1, 0, 1), (-1, 1, -1));
      ((0, 1, -1), (-1, -1, 1));
      ((0, 1, -1), (-1, 1, -1));
      ((1, -1, 0), (-1, -1, 1));
      ((1, -1, 0), (-1, 1, -1));
      ((1, 0, -1), (-1, -1, 1));
      ((1, 0, -1), (-1, 1, -1));
      ((-1, -1, 0), (-1, -1, 1));
      ((-1, -1, 0), (-1, 1, -1));
      ((0, 1, 1), (-1, -1, 1));
      ((0, 1, 1), (-1, 1, -1));
      ((0, -1, 1), (-1, -1, 1));
      ((0, -1, 1), (-1, 1, -1));
      ((-1, 0, -1), (-1, -1, 1));
      ((-1, 0, -1), (-1, 1, -1));
      ((1, 1, 0), (-1, -1, 1));
      ((1, 1, 0), (-1, 1, -1));
      ((-1, 1, 0), (-1, -1, 1));
      ((-1, 1, 0), (-1, 1, -1));
      ((0, -1, -1), (-1, -1, 1));
      ((0, -1, -1), (-1, 1, -1));
      ((1, 0, 1), (-1, -1, 1));
      ((1, 0, 1), (-1, 1, -1)) ].

Definition GT : relationship :=
  mkRelationship [("fcc"%string, 0%nat); ("bcc"%string, 1%nat)]
    [ ((1, 1, 1), (1, 0, 1));
      ((1, 1, 1), (1, 1, 0));
      ((1, 1, 1), (0, 1, 1));
      ((-1, -1, 1), (-1, 0, 1));
      ((-1, -1, 1), (-1, -1, 0));
      ((-1, -1, 1), (0, -1, 1));
      ((-1, 1, 1), (-1, 0, 1));
      ((-1, 1, 1), (-1, 1, 0));
      ((-1, 1, 1), (0, 1, 1));
      ((1, -1, 1), (1, 0, 1));
      ((1, -1, 1), (1, -1, 0));
      ((1, -1, 1), (0, -1, 1));
      ((1, 1, 1), (1, 1, 0));
      ((1, 1, 1), (0, 1, 1));
      ((1, 1, 1), (1, 0, 1));
      ((-1, -1, 1), (-1, -1, 0));
      ((-1, -1, 1), (0, -1, 1));
      ((-1, -1, 1), (-1, 0, 1));
      ((-1, 1, 1), (-1, 1, 0));
      ((-1, 1, 1), (0, 1, 1));
      ((-1, 1, 1), (-1, 0, 1));
      ((1, -1, 1), (1, -1, 0));
      ((1, -1, 1), (0, -1, 1));
      ((1, -1, 1), (1, 0, 1)) ]
    [ ((-5, -12, 17), (-17, -7, 17));
      ((17, -5, -12), (17, -17, -7));
      ((-12, 17, -5), (-7, 17, -17));
      ((5, 12, 17), (17, 7, 17));
      ((-17, 5, -12), (-17, 17, -7));
      ((12, -17, -5), (7, -17, -17));
      ((-5, 12, -17), (-17, 7, -17));
      ((17, 5, 12), (17, 17, 7));
      ((-12, -17, 5), (-7, -17, 17));
      ((5, -12, -17), (17, -7, -17));
      ((-17, -5, 12), (-17, -17, 7));
      ((12, 17, 5), (7, 17, 17));
      ((-5, 17, -12), (-17, 17, -7));
      ((-12, -5, 17), (-7, -17, 17));
      ((17, -12, -5), (17, -7, -17));
      ((5, -17, -12), (17, -17, -7));
      ((12, 5, 17), (7, 17, 17));
      ((-17, 12, -5), (-17, 7, -17));
      ((-5, -17, 12), (-17, -17, 7));
      ((-12, 5, -17), (-7, 17, -17));
      ((17, 12, 5), (17, 7, 17));
      ((5, 17, 12), (17, 17, 7));
      ((12, -5, -17), (7, -17, -17));
      ((-17, -12, 5), (-17, -7, 17)) ].

Definition GTprime : relationship :=
  mkRelationship [("fcc"%string, 0%nat); ("bcc"%string, 1%nat)]
    [ ((7, 17, 17), (12, 5, 17));
      ((17, 7, 17), (17, 12, 5));
      ((17, 17, 7), (5, 17, 12));
      ((-7, -17, 17), (-12, -5, 17));
      ((-17, -7, 17), (-17, -12, 5));
      ((-17, -17, 7), (-5, -17, 12));
      ((7, -17, -17), (12, -5, -17));
      ((17, -7, -17), (17, -12, -5));
      ((17, -17, -7), (5, -17, -12));
      ((-7, 17, -17), (-12, 5, -17));
      ((-17, 7, -17), (-17, 12, -5));
      ((-17, 17, -7), (-5, 17, -12));
      ((7, 17, 17), (12, 17, 5));
      ((17, 7, 17), (5, 12, 17));
      ((17, 17, 7), (17, 5, 12));
      ((-7, -17, 17), (-12, -17, 5));
      ((-17, -7, 17), (-5, -12, 17));
      ((-17, -17, 7), (-17, -5, 12));
      ((7, -17, -17), (12, -17, -5));
      ((17, -7, -17), (5, -12, -17));
      ((17, -17, -7), (17, -5, -12));
      ((-7, 17, -17), (-12, 17, -5));
      ((-17, 7, -17), (-5, 12, -17));
      ((-17, 17, -7), (-17, 5, -12)) ]
    [ ((0, 1, -1), (1, 1, -1));
      ((-1, 0, 1), (-1, 1, 1));
      ((1, -1, 0), (1, -1, 1));
      ((0, -1, -1), (-1, -1, -1));
      ((1, 0, 1), (1, -1, 1));
      ((1, -1, 0), (1, -1, -1));
      ((0, 1, -1), (-1, 1, -1));
      ((1, 0, 1), (1, 1, 1));
      ((-1, -1, 0), (-1, -1, 1));
      ((0, -1, -1), (1, -1, -1));
      ((-1, 0, 1), (-1, -1, 1));
      ((-1, -1, 0), (-1, -1, -1));
      ((0, -1, 1), (1, -1, 1));
      ((1, 0, -1), (1, 1, -1));
      ((-1, 1, 0), (-1, 1, 1));
      ((0, 1, 1), (-1, 1, 1));
      ((-1, 0, -1), (-1, -1, -1));
      ((-1, 1, 0), (-1, 1, -1));
      ((0, -1, 1), (-1, -1, 1));
      ((-1, 0, -1), (-1, 1, -1));
      ((1, 1, 0), (1, 1, 1));
      ((0, 1, 1), (1, 1, 1));
      ((1, 0, -1), (1, -1, -1));
      ((1, 1, 0), (1, 1, -1)) ].

Definition NW : relationship :=
  mkRelationship [("fcc"%string, 0%nat); ("bcc"%string, 1%nat)]
    [ ((1, 1, 1), (0, 1, 1));
      ((1, 1, 1), (0, 1, 1));
      ((1, 1, 1), (0, 1, 1));
      ((-1, 1, 1), (0, 1, 1));
      ((-1, 1, 1), (0, 1, 1));
      ((-1, 1, 1), (0, 1, 1));
      ((1, -1, 1), (0, 1, 1));
      ((1, -1, 1), (0, 1, 1));
      ((1, -1, 1), (0, 1, 1));
      ((-1, -1, 1), (0, 1, 1));
      ((-1, -1, 1), (0, 1, 1));
      ((-1, -1, 1), (0, 1, 1)) ]
    [ ((2, -1, -1), (0, -1, 1));
      ((-1, 2, -1), (0, -1, 1));
      ((-1, -1, 2), (0, -1, 1));
      ((-2, -1, -1), (0, -1, 1));
      ((1, 2, -1), (0, -1, 1));
      ((1, -1, 2), (0, -1, 1));
      ((2, 1, -1), (0, -1, 1));
      ((-1, -2, -1), (0, -1, 1));
      ((-1, 1, 2), (0, -1, 1));
      ((2, -1, 1), (0, -1, 1));
      ((-1, 2, 1), (0, -1, 1));
      ((-1, -1, -2), (0, -1, 1)) ].

Definition Pitsch : relationship :=
  mkRelationship [("fcc"%string, 0%nat); ("bcc"%string, 1%nat)]
    [ ((0, 1, 0), (-1, 0, 1));
      ((0, 0, 1), (1, -1, 0));
      ((1, 0, 0), (0, 1, -1));
      ((1, 0, 0), (0, -1, -1));
      ((0, 1, 0), (-1, 0, -1));
      ((0, 0, 1), (-1, -1, 0));
      ((0, 1, 0), (-1, 0, -1));
      ((0, 0, 1), (-1, -1, 0));
      ((1, 0, 0), (0, -1, -1));
      ((1, 0, 0), (0, -1, 1));
      ((0, 1, 0), (1, 0, -1));
      ((0, 0, 1), (-1, 1, 0)) ]
    [ ((1, 0, 1), (1, -1, 1));
      ((1, 1, 0), (1, 1, -1));
      ((0, 1, 1), (-1, 1, 1));
      ((0, 1, -1), (-1, 1, -1));
      ((-1, 0, 1), (-1, -1, 1));
      ((1, -1, 0), (1, -1, -1));
      ((1, 0, -1), (1, -1, -1));
      ((-1, 1, 0), (-1, 1, -1));
      ((0, -1, 1), (-1, -1, 1));
      ((0, 1, 1), (-1, 1, 1));
      ((1, 0, 1), (1, -1, 1));
      ((1, 1, 0), (1, 1, -1)) ].

Definition Bain : relationship :=
  mkRelationship [("fcc"%string, 0%nat); ("bcc"%string, 1%nat)]
    [ ((1, 0, 0), (1, 0, 0));
      ((0, 1, 0), (0, 1, 0));
      ((0, 0, 1), (0, 0, 1)) ]
    [ ((0, 1, 0), (0, 1, 1));
      ((0, 0, 1), (1, 0, 1));
      ((1, 0, 0), (1, 1, 0)) ].

Local Close Scope Z_scope.

(** A lattice object: its Bravais type and the symmetry bound to it. *)
Record Lattice : Type := mkLattice {
  lattice : string;
  symmetry : Symmetry
}.

(** The class attribute [lattices], as the symmetry label of each key. *)
Definition lattices (lattice : string) : option (option string) :=
  if String.eqb lattice "triclinic" then Some None
  else if String.eqb lattice "bct" then Some (Some "tetragonal"%string)
  else if String.eqb lattice "hex" then Some (Some "hexagonal"%string)
  else if String.eqb lattice "fcc" then Some (Some "cubic"%string)
  else if String.eqb lattice "bcc" then Some (Some "cubic"%string)
  else None.

(** [__init__] *)
Definition Lattice_init (lattice : string) : result Lattice :=
  match lattices lattice with
  | Some label => s <- Symmetry_init label ;; Ok (mkLattice lattice s)
  | None => Raise (KeyError lattice)
  end.

(** The dictionary [models] of [relationOperations]. *)
Definition models (model : string) : option relationship :=
  if String.eqb model "KS" then Some KS
  else if String.eqb model "GT" then Some GT
  else if String.eqb model "GT_prime" then Some GTprime
  else if String.eqb model "NW" then Some NW
  else if String.eqb model "Pitsch" then Some Pitsch
  else if String.eqb model "Bain" then Some Bain
  else None.

Fixpoint lookup_key (k : string) (d : list (string * nat)) : option nat :=
  match d with
  | [] => None
  | (k', v) :: d' => if String.eqb k k' then Some v else lookup_key k d'
  end.

(** [np.hstack((planes,directions))]: each row holds the two planes and
    then the two directions. *)
Definition hstack (planes directions : list (miller_index * miller_index))
  : list (list vec3) :=
  map (fun pd => [to_vec3 (fst (fst pd)); to_vec3 (snd (fst pd));
                  to_vec3 (fst (snd pd)); to_vec3 (snd (snd pd))])
      (combine planes directions).

Definition index (miller : list vec3) (i : nat) : result vec3 :=
  match nth_error miller i with
  | Some v => Ok v
  | None => Raise (IndexError "index is out of bounds for axis 0")
  end.

Definition normalized (v : vec3) : vec3 :=
  let n := norm3 v in mkV (v0 v / n) (v1 v / n) (v2 v / n).

(** [np.array([dir,np.cross(plane,dir),plane])] *)
Definition frame (plane dir : vec3) : mat3 := mkM dir (cross plane dir) plane.

(** The body of the loop over the rows: the matrix handed to
    [Rotation.fromMatrix]. *)
Definition relating_matrix (myPlane_id : nat) (miller : list vec3) : result mat3 :=
  let otherPlane_id := ((myPlane_id + 1) mod 2)%nat in
  let myDir_id := (myPlane_id + 2)%nat in
  let otherDir_id := (otherPlane_id + 2)%nat in
  myPlane <- index miller myPlane_id ;;
  myDir <- index miller myDir_id ;;
  let myMatrix := frame (normalized myPlane) (normalized myDir) in
  otherPlane <- index miller otherPlane_id ;;
  otherDir <- index miller otherDir_id ;;
  let otherMatrix := frame (normalized otherPlane) (normalized otherDir) in
  Ok (matmul (transpose otherMatrix) myMatrix).

(** The dictionary that [relationOperations] returns. *)
Record relation : Type := mkRelation {
  r_lattice : Lattice;
  r_rotations : list quat
}.

(** [(set(relationship['mapping'])-{self.lattice}).pop()] *)
Definition other_endpoint (mapping : list (string * nat)) (lattice : string)
  : result string :=
  match List.filter (fun k => negb (String.eqb k lattice)) (map fst mapping) with
  | k :: _ => Ok k
  | [] => Raise (KeyError "pop from an empty set")
  end.

(** [relationOperations] *)
Definition relationOperations (self : Lattice) (model : string) : result relation :=
  match models model with
  | None => Raise (KeyError "Orientation relationship is unknown")
  | Some relationship =>
      match lookup_key (lattice self) (mapping relationship) with
      | None => Raise (ValueError "Relationship not supported for lattice")
      | Some myPlane_id =>
          target <- other_endpoint (mapping relationship) (lattice self) ;;
          target <- Lattice_init target ;;
          rotations <-
            rmapM (fun miller => om <- relating_matrix myPlane_id miller ;;
                                 fromMatrix om)
                  (hstack (planes relationship) (directions relationship)) ;;
          Ok (mkRelation target rotations)
      end
  end.

(** ** Class [Orientation] *)

(** An orientation holds a rotation and a lattice. *)
Record Orientation : Type := mkOrientation {
  rotation : quat;
  o_lattice : Lattice
}.

(** Modelled from the spec: [Rotation.__matmul__], the [@] of the
    array-valued Rotation class that [_orientation.py] imports, is missing
    from the sources at hand.  The spec has the equivalents obtained by
    "left-multiplying the rotation by that operator", and composition as the
    Hamilton product re-standardized, which is [__mul__] of [rotation.py]. *)
Definition matmul_rotation (s r : quat) : quat := mul_rotation s r.

(** Modelled from the spec: the property [symmetry_operations] is missing;
    the spec binds every class to "a fixed, ordered list of quaternion
    symmetry operators", the lists of [symmetryOperations]. *)
Definition symmetry_operations (self : Symmetry) : list quat := symQuats self.

(** Modelled from the spec: [as_Rodrigues] is missing; it is the quaternion
    to Rodrigues-Frank conversion, [asRodrigues] of [rotation.py]. *)
Definition as_Rodrigues (self : quat) (vector : bool) : list xfloat :=
  asRodrigues self vector.

(** [equivalent]: one orientation for each symmetry operation [s], with
    rotation [s@r]. *)
Definition equivalent (self : Orientation) : list Orientation :=
  map (fun s => mkOrientation (matmul_rotation s (rotation self)) (o_lattice self))
      (symmetry_operations (symmetry (o_lattice self))).

(** Modelled from the spec: [self.equivalent[0]] is then iterated through
    [Rotation.__getitem__], which is missing; the spec has the search take
    "all, or only the first" of the own equivalents. *)
Definition first_only (eqs : list Orientation) : list Orientation := firstn 1 eqs.

Fixpoint enumerate_from {A : Type} (n : nat) (l : list A) : list (nat * A) :=
  match l with
  | [] => []
  | a :: l' => (n, a) :: enumerate_from (S n) l'
  end.
Definition enumerate {A : Type} (l : list A) : list (nat * A) := enumerate_from 0 l.

(** The local variables of [disorientation] that the loops assign. *)
Record locals : Type := mkLocals {
  l_r : option quat;
  l_i : option nat;
  l_j : option nat;
  l_k : option nat;
  l_breaker : option bool
}.

Definition read {A : Type} (x : option A) (name : string) : result A :=
  match x with
  | Some a => Ok a
  | None => Raise (UnboundLocalError name)
  end.

(** What [disorientation] returns, with and without [symmetries]. *)
Inductive disorientation_result : Type :=
| WithSymmetries (o : Orientation) (i j : nat) (flag : bool)
| RotationOnly (r : quat).

Section Disorientation.

Variables (self other : Orientation) (SST : bool).

(** [self.in_FZ and (not SST or other...inDisorientationSST(...))].  The
    left operand is the bound method [self.in_FZ] itself, not a call of it,
    and a method object is true: the value is that of the right operand. *)
Definition breaker_of (r : quat) : result bool :=
  let self_in_FZ := true in
  if self_in_FZ then
    if negb SST then Ok true
    else inDisorientationSST (symmetry (o_lattice other)) (as_Rodrigues r true)
  else Ok false.

(** [for k in range(2)]: [r] is inverted in place before each test. *)
Fixpoint for_k (ks : list nat) (e : locals) : result locals :=
  match ks with
  | [] => Ok e
  | k :: ks' =>
      r <- read (l_r e) "r" ;;
      let r := inverse_array r in
      breaker <- breaker_of r ;;
      let e := mkLocals (Some r) (l_i e) (l_j e) (Some k) (Some breaker) in
      if breaker then Ok e else for_k ks' e
  end.

(** [for j,sB in enumerate(otherSymEqs)] *)
Fixpoint for_j (aInv : quat) (js : list (nat * Orientation)) (e : locals)
  : result locals :=
  match js with
  | [] => Ok e
  | (j, sB) :: js' =>
      let b := rotation sB in
      let r := mul_rotation b aInv in
      e <- for_k (seq 0 2) (mkLocals (Some r) (l_i e) (Some j) (l_k e) (l_breaker e)) ;;
      breaker <- read (l_breaker e) "breaker" ;;
      if breaker then Ok e else for_j aInv js' e
  end.

(** [for i,sA in enumerate(mySymEqs)] *)
Fixpoint for_i (otherSymEqs : list Orientation) (is_ : list (nat * Orientation))
  (e : locals) : result locals :=
  match is_ with
  | [] => Ok e
  | (i, sA) :: is' =>
      let aInv := inversed (rotation sA) in
      e <- for_j aInv (enumerate otherSymEqs)
             (mkLocals (l_r e) (Some i) (l_j e) (l_k e) (l_breaker e)) ;;
      breaker <- read (l_breaker e) "breaker" ;;
      if breaker then Ok e else for_i otherSymEqs is' e
  end.

(** [disorientation] *)
Definition disorientation (symmetries : bool) : result disorientation_result :=
  if negb (Symmetry_eqb (symmetry (o_lattice self)) (symmetry (o_lattice other))) then
    Raise (NotImplementedError
             "disorientation between different symmetry classes not supported yet.")
  else
    let mySymEqs := if SST then equivalent self else first_only (equivalent self) in
    let otherSymEqs := equivalent other in
    e <- for_i otherSymEqs (enumerate mySymEqs) (mkLocals None None None None None) ;;
    if symmetries then
      r <- read (l_r e) "r" ;;
      i <- read (l_i e) "i" ;;
      j <- read (l_j e) "j" ;;
      k <- read (l_k e) "k" ;;
      Ok (WithSymmetries (mkOrientation r (o_lattice self)) i j (k =? 1)%nat)
    else
      r <- read (l_r e) "r" ;;
      Ok (RotationOnly r).

End Disorientation.

(** Modelled from the spec: [Lattice.in_FZ] is missing; the spec has one
    fundamental-zone test per symmetry class, [inFZ] of [rotation.py], and a
    lattice maps to exactly one symmetry. *)
Definition Lattice_in_FZ (self : Lattice) (rodrigues : list xfloat) : result bool :=
  inFZ (symmetry self) rodrigues.

(** [in_FZ] of an orientation. *)
Definition in_FZ (self : Orientation) : result bool :=
  Lattice_in_FZ (o_lattice self) (as_Rodrigues (rotation self) true).

(** ** Vocabulary of the properties *)

Definition unit_quaternion (q : quat) : Prop :=
  q0 q ^ 2 + q1 q ^ 2 + q2 q ^ 2 + q3 q ^ 2 = 1.

(** Some component lies outside [0, 2pi], or the second one exceeds pi. *)
Definition eulers_out_of_range (e0 e1 e2 : R) : Prop :=
  (e0 < 0 \/ 2 * PI < e0) \/ (e1 < 0 \/ 2 * PI < e1) \/ (e2 < 0 \/ 2 * PI < e2)
  \/ PI < e1.

(** What [np.linalg.eig] promises for a diagonalisable real matrix [M] with
    real spectrum: column [i] of [V] is a unit eigenvector for eigenvalue
    [w[i]], and the columns span the space. *)
Definition eigen_decomposition (M : mat4) (w : quat) (V : mat4) : Prop :=
  (forall i v, column V i = Ok v ->
     matvec4 M v = qscale (nth i (quat_list w) 0) v /\ qdot v v = 1)
  /\ (forall u, (forall i v, column V i = Ok v -> qdot u v = 0) ->
        u = mkQ 0 0 0 0).

(** A solver that is right on the matrix of the identity rotation. *)
Definition eig_identity (M : mat4) : quat * mat4 :=
  (mkQ 1 0 0 0,
   mkM4 (mkQ 1 0 0 0) (mkQ 0 1 0 0) (mkQ 0 0 1 0) (mkQ 0 0 0 1)).

Definition I3 : mat3 := mkM (mkV 1 0 0) (mkV 0 1 0) (mkV 0 0 1).

(** The rows are orthonormal, so are the columns, and the determinant is 1. *)
Definition proper_rotation (m : mat3) : Prop :=
  matmul m (transpose m) = I3 /\ matmul (transpose m) m = I3 /\ det m = 1.

Definition zdot (a b : miller_index) : Z :=
  let '(a0, a1, a2) := a in
  let '(b0, b1, b2) := b in
  (a0 * b0 + a1 * b1 + a2 * b2)%Z.

(** In a row of a table, each plane normal is perpendicular to its
    direction and neither vanishes. *)
Definition row_ok (pd : (miller_index * miller_index) * (miller_index * miller_index))
  : bool :=
  let '((p0, p1), (d0, d1)) := pd in
  (zdot p0 d0 =? 0)%Z && (zdot p1 d1 =? 0)%Z
  && (0 <? zdot p0 p0)%Z && (0 <? zdot p1 p1)%Z
  && (0 <? zdot d0 d0)%Z && (0 <? zdot d1 d1)%Z.

Definition table_ok (r : relationship) : bool :=
  forallb row_ok (combine (planes r) (directions r)).

Definition known_model (model : string) : Prop :=
  In model ["KS"; "GT"; "GT_prime"; "NW"; "Pitsch"; "Bain"]%string.

Definition endpoint (lattice : string) : Prop :=
  lattice = "fcc"%string \/ lattice = "bcc"%string.

(** The rotation a table row stands for, seen from the lattice in column
    [myPlane_id]: the frame (direction, normal x direction, normal) of each
    lattice, and then other-frame transposed times own frame. *)
Definition row_rotation (myPlane_id : nat) (miller : list vec3) : quat :=
  let z := mkV 0 0 0 in
  let otherPlane_id := ((myPlane_id + 1) mod 2)%nat in
  let myMatrix := frame (normalized (nth myPlane_id miller z))
                        (normalized (nth (myPlane_id + 2) miller z)) in
  let otherMatrix := frame (normalized (nth otherPlane_id miller z))
                           (normalized (nth (otherPlane_id + 2) miller z)) in
  om2qu (matmul (transpose otherMatrix) myMatrix).

(** The two endpoints of every relationship of the source. *)
Definition column_of (lattice : string) : nat :=
  if String.eqb lattice "fcc" then 0%nat else 1%nat.
Definition other_of (lattice : string) : string :=
  if String.eqb lattice "fcc" then "bcc"%string else "fcc"%string.

(** A candidate of the disorientation search: own operator index, other
    operator index, inner counter [k], and the rotation tested. *)
Definition candidate : Type := (nat * nat * nat * quat)%type.

(** The two candidates of one pair of equivalents, in the order tested:
    the inverse of [b*aInv] with [k = 0], then [b*aInv] with [k = 1]. *)
Definition candidates_of_pair (i : nat) (aInv : quat) (jsB : nat * Orientation)
  : list candidate :=
  let m := mul_rotation (rotation (snd jsB)) aInv in
  [(i, fst jsB, 0%nat, inverse_array m); (i, fst jsB, 1%nat, m)].

(** All candidates: own equivalents outermost (all of them, or the first
    one alone without [SST]), the other's equivalents inside, both by
    ascending operator index. *)
Definition candidates (self other : Orientation) (SST : bool) : list candidate :=
  flat_map (fun isA =>
              flat_map (candidates_of_pair (fst isA) (inversed (rotation (snd isA))))
                       (enumerate (equivalent other)))
           (enumerate (if SST then equivalent self else first_only (equivalent self))).

(** The test that ends the search. *)
Definition accepted (other : Orientation) (SST : bool) (c : candidate) : bool :=
  negb SST
  || match inDisorientationSST (symmetry (o_lattice other)) (as_Rodrigues (snd c) true) with
     | Ok b => b
     | Raise _ => false
     end.

(** The first accepted candidate, or the last one tested. *)
Definition chosen (other : Orientation) (SST : bool) (cs : list candidate) : candidate :=
  match find (accepted other SST) cs with
  | Some c => c
  | None => last cs (0%nat, 0%nat, 0%nat, mkQ 1 0 0 0)
  end.

(** The search as the claim words it: for each pair the misorientation
    [b*aInv] itself first, with the flag false, and then its inverse, with
    the flag true; a candidate is taken when it lies in the own fundamental
    zone and, with [SST], in the disorientation triangle. *)
Definition claimed_candidates (self other : Orientation) (SST : bool)
  : list (nat * nat * bool * quat) :=
  flat_map (fun isA =>
              flat_map (fun jsB =>
                          let m := misorientation (rotation (snd isA)) (rotation (snd jsB)) in
                          [(fst isA, fst jsB, false, m);
                           (fst isA, fst jsB, true, inversed m)])
                       (enumerate (equivalent other)))
           (enumerate (if SST then equivalent self else first_only (equivalent self))).

Definition claimed_accepted (self : Orientation) (SST : bool)
  (c : nat * nat * bool * quat) : bool :=
  match inFZ (symmetry (o_lattice self)) (as_Rodrigues (snd c) true) with
  | Ok b => b
  | Raise _ => false
  end
  && (negb SST
      || match inDisorientationSST (symmetry (o_lattice self)) (as_Rodrigues (snd c) true) with
         | Ok b => b
         | Raise _ => false
         end).

Definition claimed_disorientation (self other : Orientation) (SST : bool)
  : option (nat * nat * bool * quat) :=
  find (claimed_accepted self SST) (claimed_candidates self other SST).

(** The state of the local variables once candidate [c] was tested with
    outcome [b]. *)
Definition locals_at (c : candidate) (b : bool) : locals :=
  let '(i, j, k, r) := c in mkLocals (Some r) (Some i) (Some j) (Some k) (Some b).

(** Scanning a list of candidates: stop at the first accepted one, or keep
    the last one seen, [seen] when there is none. *)
Fixpoint scan (other : Orientation) (SST : bool) (cs : list candidate)
  (seen : option candidate) : option (candidate * bool) :=
  match cs with
  | [] => option_map (fun c => (c, false)) seen
  | c :: cs' =>
      if accepted other SST c then Some (c, true)
      else scan other SST cs' (Some c)
  end.

(** What [disorientation] hands back for a candidate when the symmetry
    indices are asked for; the flag is [k == 1]. *)
Definition result_of (self : Orientation) (c : candidate) : disorientation_result :=
  let '(i, j, k, r) := c in
  WithSymmetries (mkOrientation r (o_lattice self)) i j (k =? 1)%nat.

Definition triclinic : Lattice := mkLattice "triclinic" none.

(** ** Further vocabulary *)

(** The Hamilton product that [__mul__] builds before it standardizes. *)
Definition hamilton (self other : quat) : quat :=
  append (q0 self * q0 other - dot3 (tail3 self) (tail3 other))
         (add3 (add3 (scale3 (q0 self) (tail3 other)) (scale3 (q0 other) (tail3 self)))
               (scale3 P (cross (tail3 self) (tail3 other)))).

(** ** More of class [Rotation] *)

(** [np.sign], [np.degrees] *)
Definition np_sign (x : R) : R :=
  if Np.ltb x 0 then -1 else if Np.ltb 0 x then 1 else 0.
Definition degrees_of (x : R) : R := x * 180 / PI.

(** The first three components of an array of shape (4,), [a[0:3]], and
    the array with them replaced. *)
Definition head3 (a : quat) : vec3 := mkV (q0 a) (q1 a) (q2 a).
Definition with_head3 (v : vec3) (a : quat) : quat := mkQ (v0 v) (v1 v) (v2 v) (q3 a).

(** [qu2eu] *)
Definition qu2eu (qu : quat) : vec3 :=
  let q03 := q0 qu ^ 2 + q3 qu ^ 2 in
  let q12 := q1 qu ^ 2 + q2 qu ^ 2 in
  let chi := sqrt (q03 * q12) in
  let eu :=
    if iszero chi then
      if iszero q12 then
        mkV (Np.arctan2 (- P * 2 * q0 qu * q3 qu) (q0 qu ^ 2 - q3 qu ^ 2)) 0 0
      else
        mkV (Np.arctan2 (2 * q1 qu * q2 qu) (q1 qu ^ 2 - q2 qu ^ 2)) PI 0
    else
      mkV (Np.arctan2 ((- P * q0 qu * q2 qu + q1 qu * q3 qu) * chi)
                      ((- P * q0 qu * q1 qu - q2 qu * q3 qu) * chi))
          (Np.arctan2 (2 * chi) (q03 - q12))
          (Np.arctan2 ((P * q0 qu * q2 qu + q1 qu * q3 qu) * chi)
                      ((- P * q0 qu * q1 qu + q2 qu * q3 qu) * chi)) in
  reduce_eulers eu.

(** [asEulers] *)
Definition asEulers (self : quat) (degrees : bool) : vec3 :=
  let eu := qu2eu self in
  if degrees then mkV (degrees_of (v0 eu)) (degrees_of (v1 eu)) (degrees_of (v2 eu))
  else eu.

(** [qu2ax]; the result is the array [n_1, n_2, n_3, omega]. *)
Definition qu2ax (qu : quat) : quat :=
  if iszero (q1 qu ^ 2 + q2 qu ^ 2 + q3 qu ^ 2) then mkQ 0 0 1 0
  else if negb (iszero (q0 qu)) then
    let s := np_sign (q0 qu) / sqrt (q1 qu ^ 2 + q2 qu ^ 2 + q3 qu ^ 2) in
    let omega := 2 * acos (Np.clip (q0 qu) (-1) 1) in
    mkQ (q1 qu * s) (q2 qu * s) (q3 qu * s) omega
  else mkQ (q1 qu) (q2 qu) (q3 qu) PI.

(** What [asAxisAngle] returns: the array, or the pair of axis and angle. *)
Inductive axis_angle : Type :=
| AxisAngle (ax : quat)
| AxisAnglePair (axis : vec3) (angle : R).

(** [asAxisAngle] *)
Definition asAxisAngle (self : quat) (degrees pair : bool) : axis_angle :=
  let ax := qu2ax self in
  let ax := if degrees then mkQ (q0 ax) (q1 ax) (q2 ax) (degrees_of (q3 ax)) else ax in
  if pair then AxisAnglePair (head3 ax) (degrees_of (q3 ax)) else AxisAngle ax.

(** [ax2qu] *)
Definition ax2qu (ax : quat) : quat :=
  if iszero (q3 ax) then mkQ 1 0 0 0
  else
    let c := cos (q3 ax * (1 / 2)) in
    let s := sin (q3 ax * (1 / 2)) in
    mkQ c (q0 ax * s) (q1 ax * s) (q2 ax * s).

(** [fromAxisAngle]; the keyword [P] shadows the module constant. *)
Definition fromAxisAngle (angleAxis : quat) (degrees normalise : bool) (P : R)
  : result quat :=
  let ax := angleAxis in
  let ax := if Np.gtb P 0 then with_head3 (scale3 (-1) (head3 ax)) ax else ax in
  let ax := if degrees then mkQ (q0 ax) (q1 ax) (q2 ax) (radians (q3 ax)) else ax in
  let ax := if normalise then with_head3 (normalized (head3 ax)) ax else ax in
  if Np.ltb (q3 ax) 0 || Np.gtb (q3 ax) PI then
    Raise (ValueError "Axis angle rotation angle outside of [0..pi].")
  else if negb (Np.isclose (norm3 (head3 ax)) 1) then
    Raise (ValueError "Axis angle rotation axis is not of unit length.")
  else Ok (ax2qu ax).

(** [ro2ax]; a Rodrigues-Frank array is [n_1, n_2, n_3, tan(omega/2)],
    whose last component may be infinite. *)
Definition ro2ax (axis : vec3) (ta : xfloat) : quat :=
  match ta with
  | Fin t =>
      if iszero t then mkQ 0 0 1 0
      else
        let angle := 2 * atan t in
        let ta := 1 / norm3 axis in
        mkQ (v0 axis / ta) (v1 axis / ta) (v2 axis / ta) angle
  | PInf | NInf => mkQ (v0 axis) (v1 axis) (v2 axis) PI
  | NaN => mkQ (v0 axis) (v1 axis) (v2 axis) PI
  end.

(** [ro2qu] *)
Definition ro2qu (axis : vec3) (ta : xfloat) : quat := ax2qu (ro2ax axis ta).

Section Average2.

Variable eig : mat4 -> quat * mat4.

(** [average]: [Rotation.fromAverage([self,other])] *)
Definition average (self other : quat) : result quat :=
  fromAverage eig [self; other] [].

End Average2.

(** A unit quaternion that the tolerance tests place neither at the
    identity nor at a half turn: the real part and the squared length of the
    vector part both exceed 1e-12. *)
Definition generic_rotation (q : quat) : Prop :=
  unit_quaternion q
  /\ / 10 ^ 12 < q0 q
  /\ / 10 ^ 12 < q1 q ^ 2 + q2 q ^ 2 + q3 q ^ 2.

(** [x < 0.0] on a component that may be infinite. *)
Definition negative (x : xfloat) : bool :=
  match x with
  | Fin r => Np.ltb r 0
  | NInf => true
  | PInf | NaN => false
  end.

(** [fromRodrigues]; the array is given as its axis [ro[0:3]] and its last
    component [ro[3]]. *)
Definition fromRodrigues (axis : vec3) (ta : xfloat) (normalise : bool) (P : R)
  : result quat :=
  let axis := if Np.gtb P 0 then scale3 (-1) axis else axis in
  let axis := if normalise then normalized axis else axis in
  if negb (Np.isclose (norm3 axis) 1) then
    Raise (ValueError "Rodrigues rotation axis is not of unit length.")
  else if negative ta then
    Raise (ValueError "Rodriques rotation angle not positive.")
  else Ok (ro2qu axis ta).

(** The keys of [Lattice.lattices] and the labels of [Symmetry.lattices]. *)
Definition bravais : list string :=
  ["triclinic"; "bct"; "hex"; "fcc"; "bcc"]%string.
Definition crystal_systems : list string :=
  ["orthorhombic"; "tetragonal"; "hexagonal"; "cubic"]%string.

(** ** More of class [Orientation] *)

(** [relatedOrientations]: [o*self.rotation] for every rotation [o] of the
    relationship, on the target lattice. *)
Definition relatedOrientations (self : Orientation) (model : string)
  : result (list Orientation) :=
  r <- relationOperations (o_lattice self) model ;;
  Ok (map (fun o => mkOrientation (mul_rotation o (rotation self)) (r_lattice r))
          (r_rotations r)).

(** The loop of [reduced]: [me] runs through the equivalents and the loop
    breaks at the first one inside the fundamental zone. *)
Fixpoint reduced_loop (self : Orientation) (eqs : list Orientation)
  (me : option Orientation) : result (option Orientation) :=
  match eqs with
  | [] => Ok me
  | o :: eqs' =>
      inside <- Lattice_in_FZ (o_lattice self) (as_Rodrigues (rotation o) true) ;;
      if inside then Ok (Some o) else reduced_loop self eqs' (Some o)
  end.

(** [reduced] *)
Definition reduced (self : Orientation) : result Orientation :=
  me <- reduced_loop self (equivalent self) None ;;
  me <- read me "me" ;;
  Ok (mkOrientation (rotation me) (o_lattice self)).

(** Whether an equivalent passes the test of [reduced]. *)
Definition inside_FZ (self o : Orientation) : bool :=
  match Lattice_in_FZ (o_lattice self) (as_Rodrigues (rotation o) true) with
  | Ok b => b
  | Raise _ => false
  end.

(** * Properties *)

(** ** Arithmetic on comparisons *)

Lemma ltb_true (x y : R) : Np.ltb x y = true <-> x < y.
Proof. unfold Np.ltb; destruct (Rlt_dec x y); split; intros; try easy. Qed.

Lemma ltb_false (x y : R) : Np.ltb x y = false <-> y <= x.
Proof. unfold Np.ltb; destruct (Rlt_dec x y); split; intros; try easy; lra. Qed.

Lemma leb_true (x y : R) : Np.leb x y = true <-> x <= y.
Proof. unfold Np.leb; destruct (Rle_dec x y); split; intros; try easy. Qed.

Lemma leb_false (x y : R) : Np.leb x y = false <-> y < x.
Proof. unfold Np.leb; destruct (Rle_dec x y); split; intros; try easy; lra. Qed.

(** ** Composition *)

Lemma standardize_array_nonneg (q : quat) : 0 <= q0 (standardize_array q).
Proof.
  unfold standardize_array.
  destruct (Np.ltb (q0 q) 0) eqn:E; simpl.
  - apply ltb_true in E. lra.
  - apply ltb_false in E. exact E.
Qed.

(** C2: the product of two rotations is returned standardized, its real
    component is never negative. *)
Theorem mul_rotation_real_nonneg (a b : quat) :
  exists r, mul a (ORotation b) = Ok (PRotation r) /\ 0 <= q0 r.
Proof.
  exists (mul_rotation a b). split; [reflexivity|].
  unfold mul_rotation. apply standardize_array_nonneg.
Qed.

Lemma quat_eq (a b : quat) :
  q0 a = q0 b -> q1 a = q1 b -> q2 a = q2 b -> q3 a = q3 b -> a = b.
Proof. destruct a, b; simpl; intros; subst; reflexivity. Qed.

(** C4: a unit quaternion composed with its inverse is the identity
    quaternion (1,0,0,0). *)
Theorem mul_inversed_identity (q : quat) :
  unit_quaternion q ->
  mul q (ORotation (inversed q)) = Ok (PRotation (mkQ 1 0 0 0)).
Proof.
  intros Hu. unfold unit_quaternion in Hu.
  simpl. do 2 f_equal.
  destruct q as [a b c d].
  unfold mul_rotation, standardize_array, inversed, inverse_array,
    append, add3, scale3, cross, dot3, tail3, P; simpl in *.
  match goal with |- context [Np.ltb ?x 0] => destruct (Np.ltb x 0) eqn:E end.
  - apply ltb_true in E. exfalso. nra.
  - apply quat_eq; simpl; nra.
Qed.

Lemma mul_inversed_identity_witness :
  unit_quaternion (mkQ (3/5) (4/5) 0 0) /\
  mul (mkQ (3/5) (4/5) 0 0) (ORotation (inversed (mkQ (3/5) (4/5) 0 0)))
  = Ok (PRotation (mkQ 1 0 0 0)).
Proof.
  assert (H : unit_quaternion (mkQ (3/5) (4/5) 0 0))
    by (unfold unit_quaternion; simpl; lra).
  split; [exact H | exact (mul_inversed_identity _ H)].
Defined.

(** ** Rotating a vector *)

Lemma mul_vector_dot (q : quat) (v : vec3) :
  dot3 (mul_vector q v) (mul_vector q v)
  = (q0 q ^ 2 + q1 q ^ 2 + q2 q ^ 2 + q3 q ^ 2) ^ 2 * dot3 v v.
Proof.
  destruct q as [a b c d], v as [x y z].
  unfold mul_vector, dot3, tail3, P; simpl. ring.
Qed.

(** C9: rotating a 3-vector by a unit quaternion keeps its Euclidean norm. *)
Theorem mul_vector_norm (q : quat) (v : vec3) :
  unit_quaternion q ->
  exists w, mul q (OVector v) = Ok (PVector w) /\ norm3 w = norm3 v.
Proof.
  intros Hu. exists (mul_vector q v). split; [reflexivity|].
  unfold norm3. rewrite mul_vector_dot. unfold unit_quaternion in Hu.
  rewrite Hu. f_equal. ring.
Qed.

Lemma mul_vector_norm_witness :
  unit_quaternion (mkQ (3/5) 0 (4/5) 0) /\
  exists w, mul (mkQ (3/5) 0 (4/5) 0) (OVector (mkV 1 2 3)) = Ok (PVector w)
            /\ norm3 w = norm3 (mkV 1 2 3).
Proof.
  assert (H : unit_quaternion (mkQ (3/5) 0 (4/5) 0))
    by (unfold unit_quaternion; simpl; lra).
  split; [exact H | exact (mul_vector_norm _ (mkV 1 2 3) H)].
Defined.

(** ** In-place and copying methods *)

Section Objects.
Import Rotation.

Lemma init_spec (h : gmap nat quat) (q : quat) :
  exists r, init q h = Some (r, <[r := q]> h) /\ h !! r = None.
Proof.
  exists (fresh (dom h)). split; [reflexivity|].
  apply not_elem_of_dom, is_fresh.
Qed.

Lemma copy_spec (h : gmap nat quat) (self : nat) (q : quat) :
  h !! self = Some q ->
  exists r, copy self h = Some (r, <[r := q]> h) /\ h !! r = None.
Proof.
  intros Hs. unfold copy, bind, get. rewrite Hs. apply init_spec.
Qed.

Lemma update_spec (h : gmap nat quat) (self : nat) (q : quat) f :
  h !! self = Some q -> update self f h = Some (tt, <[self := f q]> h).
Proof. intros Hs. unfold update. rewrite Hs. reflexivity. Qed.

Lemma copy_then_update (h : gmap nat quat) (self : nat) (q : quat) f :
  h !! self = Some q ->
  exists r h',
    bind (copy self) (fun c => bind (update c f) (fun _ => ret c)) h = Some (r, h')
    /\ r <> self
    /\ h' !! r = Some (f q)
    /\ forall l, l <> r -> h' !! l = h !! l.
Proof.
  intros Hs. destruct (copy_spec h self q Hs) as (r & Hc & Hfresh).
  exists r, (<[r := f q]> h).
  unfold bind at 1. rewrite Hc.
  unfold bind, ret. rewrite (update_spec _ r q) by apply lookup_insert_eq.
  rewrite insert_insert_eq.
  repeat split.
  - intros ->. congruence.
  - apply lookup_insert_eq.
  - intros l Hl. apply lookup_insert_ne. congruence.
Qed.

End Objects.

(** C8, as the claim states it, fails: [inverse] overwrites the buffer of the
    rotation it is called on. *)
Lemma inverse_in_place_counterexample :
  exists h' : gmap nat quat,
    Rotation.inverse 0%nat {[ 0%nat := mkQ 0 1 0 0 ]} = Some (0%nat, h')
    /\ h' !! 0%nat <> Some (mkQ 0 1 0 0).
Proof.
  exists {[ 0%nat := inverse_array (mkQ 0 1 0 0) ]}. split.
  - unfold Rotation.inverse, Rotation.bind, Rotation.update, Rotation.ret.
    rewrite lookup_singleton_eq. rewrite insert_singleton_eq. reflexivity.
  - rewrite lookup_singleton_eq. unfold inverse_array; simpl.
    intros H. inversion H. lra.
Qed.

(** C8, amended: [inverse] and [standardize] work in place and return the
    object they were called on, whose buffer then holds the inverted
    (x, y, z negated) or standardized quaternion; [inversed] and
    [standardized] return a new object that holds it and leave the buffer of
    every other object, the original included, as it was. *)
Theorem inverse_standardize_frame (h : gmap nat quat) (self : nat) (q : quat) :
  h !! self = Some q ->
  Rotation.inverse self h = Some (self, <[self := inverse_array q]> h)
  /\ Rotation.standardize self h = Some (self, <[self := standardize_array q]> h)
  /\ (exists r h', Rotation.inversed self h = Some (r, h')
        /\ r <> self /\ h' !! r = Some (inverse_array q)
        /\ forall l, l <> r -> h' !! l = h !! l)
  /\ (exists r h', Rotation.standardized self h = Some (r, h')
        /\ r <> self /\ h' !! r = Some (standardize_array q)
        /\ forall l, l <> r -> h' !! l = h !! l).
Proof.
  intros Hs. repeat split.
  - unfold Rotation.inverse, Rotation.bind, Rotation.ret.
    rewrite (update_spec h self q) by exact Hs. reflexivity.
  - unfold Rotation.standardize, Rotation.bind, Rotation.ret.
    rewrite (update_spec h self q) by exact Hs. reflexivity.
  - exact (copy_then_update h self q inverse_array Hs).
  - exact (copy_then_update h self q standardize_array Hs).
Qed.

Lemma inverse_standardize_frame_witness :
  ({[ 0%nat := mkQ 0 1 0 0 ]} : gmap nat quat) !! 0%nat = Some (mkQ 0 1 0 0)
  /\ Rotation.inverse 0%nat {[ 0%nat := mkQ 0 1 0 0 ]}
     = Some (0%nat, <[0%nat := inverse_array (mkQ 0 1 0 0)]> {[ 0%nat := mkQ 0 1 0 0 ]}).
Proof.
  assert (H : ({[ 0%nat := mkQ 0 1 0 0 ]} : gmap nat quat) !! 0%nat
              = Some (mkQ 0 1 0 0)) by apply lookup_singleton_eq.
  split; [exact H|].
  exact (proj1 (inverse_standardize_frame _ 0%nat _ H)).
Defined.

(** ** Euler angles *)

Lemma fromEulers_cases (e0 e1 e2 : R) :
  (eulers_out_of_range e0 e1 e2
   /\ fromEulers [e0; e1; e2] false
      = Raise (ValueError "Euler angles outside of [0..2pi],[0..pi],[0..2pi]."))
  \/ (~ eulers_out_of_range e0 e1 e2
      /\ fromEulers [e0; e1; e2] false = Ok (eu2qu (mkV e0 e1 e2))).
Proof.
  unfold fromEulers, eulers_out_of_range, Np.any, Np.gtb; simpl.
  destruct (Np.ltb e0 0) eqn:A0; [apply ltb_true in A0; left; split; [tauto|reflexivity] | apply ltb_false in A0].
  destruct (Np.ltb e1 0) eqn:A1; [apply ltb_true in A1; left; split; [tauto|reflexivity] | apply ltb_false in A1].
  destruct (Np.ltb e2 0) eqn:A2; [apply ltb_true in A2; left; split; [tauto|reflexivity] | apply ltb_false in A2].
  destruct (Np.ltb (2 * PI) e0) eqn:B0; [apply ltb_true in B0; left; split; [tauto|reflexivity] | apply ltb_false in B0].
  destruct (Np.ltb (2 * PI) e1) eqn:B1; [apply ltb_true in B1; left; split; [tauto|reflexivity] | apply ltb_false in B1].
  destruct (Np.ltb (2 * PI) e2) eqn:B2; [apply ltb_true in B2; left; split; [tauto|reflexivity] | apply ltb_false in B2].
  destruct (Np.ltb PI e1) eqn:C1; [apply ltb_true in C1; left; split; [tauto|reflexivity] | apply ltb_false in C1].
  right. split; [|reflexivity]. lra.
Qed.

(** C6: on three Euler angles in radians, [fromEulers] raises the range
    error exactly when some angle lies outside [0, 2pi] or the second one
    exceeds pi, and returns the rotation of [eu2qu] otherwise. *)
Theorem fromEulers_range_error (e0 e1 e2 : R) :
  (fromEulers [e0; e1; e2] false
   = Raise (ValueError "Euler angles outside of [0..2pi],[0..pi],[0..2pi].")
   <-> eulers_out_of_range e0 e1 e2)
  /\ (fromEulers [e0; e1; e2] false = Ok (eu2qu (mkV e0 e1 e2))
      <-> ~ eulers_out_of_range e0 e1 e2)
  /\ ((exists e, fromEulers [e0; e1; e2] false = Raise e)
      <-> eulers_out_of_range e0 e1 e2).
Proof.
  destruct (fromEulers_cases e0 e1 e2) as [[Ho Hr] | [Hi Hr]]; rewrite Hr.
  - repeat split; intros; try assumption; try reflexivity; try discriminate.
    + contradiction.
    + eexists; reflexivity.
  - repeat split; intros H; try reflexivity; try assumption; try discriminate.
    + contradiction.
    + destruct H as [e He]. discriminate.
    + contradiction.
Qed.

(** ** Averaging *)

Lemma single_matrix (r : quat) :
  div4 (times4 (asM r) 1) (INR 1) = asM r.
Proof.
  destruct r as [a b c d].
  unfold div4, times4, map4, asM, outer, qscale; simpl.
  repeat f_equal; field.
Qed.

Lemma outer_eigenpair (r v : quat) (lam : R) :
  unit_quaternion r ->
  matvec4 (asM r) v = qscale lam v ->
  qdot v v = 1 ->
  (lam = 0 /\ qdot r v = 0) \/ (lam = 1 /\ (v = r \/ v = qscale (-1) r)).
Proof.
  destruct r as [a b c d], v as [x y z t].
  unfold unit_quaternion, matvec4, asM, outer, qscale, qdot; simpl.
  intros Hu He Hn. injection He as E0 E1 E2 E3.
  set (k := a * x + b * y + c * z + d * t) in *.
  replace (a * a * x + a * b * y + a * c * z + a * d * t) with (a * k) in E0 by (unfold k; ring).
  replace (b * a * x + b * b * y + b * c * z + b * d * t) with (b * k) in E1 by (unfold k; ring).
  replace (c * a * x + c * b * y + c * c * z + c * d * t) with (c * k) in E2 by (unfold k; ring).
  replace (d * a * x + d * b * y + d * c * z + d * d * t) with (d * k) in E3 by (unfold k; ring).
  assert (Hk : k * (1 - lam) = 0).
  { replace (k * (1 - lam))
      with (k * (a * (a * 1) + b * (b * 1) + c * (c * 1) + d * (d * 1))
            - (a * (lam * x) + b * (lam * y) + c * (lam * z) + d * (lam * t)))
      by (rewrite Hu; unfold k; ring).
    rewrite <- E0, <- E1, <- E2, <- E3. ring. }
  apply Rmult_integral in Hk. destruct Hk as [Hk | Hl].
  - left. split; [|exact Hk].
    rewrite Hk in E0, E1, E2, E3.
    replace lam with (lam * (x * x + y * y + z * z + t * t)) by (rewrite Hn; ring).
    replace (lam * (x * x + y * y + z * z + t * t))
      with (x * (lam * x) + y * (lam * y) + z * (lam * z) + t * (lam * t)) by ring.
    rewrite <- E0, <- E1, <- E2, <- E3. ring.
  - right. assert (lam = 1) by lra. subst lam. split; [reflexivity|].
    assert (Hx : x = a * k) by lra. assert (Hy : y = b * k) by lra.
    assert (Hz : z = c * k) by lra. assert (Ht : t = d * k) by lra.
    clearbody k.
    assert (Hkk : (k - 1) * (k + 1) = 0).
    { rewrite Hx, Hy, Hz, Ht in Hn.
      pose proof (f_equal (fun u => k * k * u) Hu) as Hu2. simpl in Hu2. lra. }
    apply Rmult_integral in Hkk. destruct Hkk as [K | K].
    + left. assert (k = 1) by lra. apply quat_eq; simpl; nra.
    + right. assert (k = -1) by lra. apply quat_eq; simpl; nra.
Qed.

Lemma argmax_four (a b c d : R) :
  let k := argmax [a; b; c; d] in
  (k < 4)%nat
  /\ a <= nth k [a; b; c; d] 0 /\ b <= nth k [a; b; c; d] 0
  /\ c <= nth k [a; b; c; d] 0 /\ d <= nth k [a; b; c; d] 0.
Proof.
  unfold argmax, argmax_from.
  repeat match goal with
         | |- context [Np.ltb ?x ?y] =>
             let E := fresh "E" in
             destruct (Np.ltb x y) eqn:E;
             [apply ltb_true in E | apply ltb_false in E]
         end; simpl; repeat split; try lia; lra.
Qed.

Lemma isclose_one : Np.isclose 1 1 = true.
Proof.
  unfold Np.isclose, Np.isclose_tol. apply leb_true.
  replace (1 - 1) with 0 by ring. rewrite Rabs_R0, Rabs_R1.
  assert (0 < / 10 ^ 8) by (apply Rinv_0_lt_compat, pow_lt; lra).
  assert (0 < / 10 ^ 5) by (apply Rinv_0_lt_compat, pow_lt; lra).
  lra.
Qed.

Lemma qscale_opp_opp (q : quat) : qscale (-1) (qscale (-1) q) = q.
Proof. destruct q; unfold qscale; simpl; f_equal; ring. Qed.

Lemma fromQuaternion_homomorph (c : quat) :
  qdot c c = 1 ->
  exists q, fromQuaternion c true (-1) = Ok q
            /\ (q = c \/ q = qscale (-1) c) /\ 0 <= q0 q.
Proof.
  intros Hn. unfold fromQuaternion.
  assert (G : Np.gtb (-1) 0 = false) by (apply ltb_false; lra).
  rewrite G.
  destruct (Np.ltb (q0 c) 0) eqn:E; simpl.
  - apply ltb_true in E. exists (qscale (-1) c).
    assert (Hq : qnorm (qscale (-1) c) = 1).
    { unfold qnorm. replace (qdot (qscale (-1) c) (qscale (-1) c)) with 1.
      - apply sqrt_1.
      - rewrite <- Hn. destruct c; unfold qdot, qscale; simpl; ring. }
    rewrite Hq, isclose_one. simpl. repeat split; [right; reflexivity|].
    destruct c; simpl in *; lra.
  - apply ltb_false in E. exists c.
    assert (Hq : qnorm c = 1) by (unfold qnorm; rewrite Hn; apply sqrt_1).
    rewrite Hq, isclose_one. simpl. repeat split; [left; reflexivity|exact E].
Qed.

(** C5: the average of the one-element list [r], without weights, is [r] up
    to its global sign, and the sign returned makes the real component
    non-negative. *)
Theorem fromAverage_single (eig : mat4 -> quat * mat4) (r : quat) :
  unit_quaternion r ->
  eigen_decomposition (asM r) (fst (eig (asM r))) (snd (eig (asM r))) ->
  exists q, fromAverage eig [r] [] = Ok q
            /\ (q = r \/ q = qscale (-1) r) /\ 0 <= q0 q.
Proof.
  intros Hu [Hpair Hspan].
  unfold fromAverage.
  cbn -[argmax asM times4 div4 INR column fromQuaternion quat_list].
  rewrite single_matrix.
  destruct (eig (asM r)) as [w V]. simpl in Hpair, Hspan.
  destruct w as [wa wb wc wd].
  destruct (Hpair 0%nat _ eq_refl) as [P0 N0].
  destruct (Hpair 1%nat _ eq_refl) as [P1 N1].
  destruct (Hpair 2%nat _ eq_refl) as [P2 N2].
  destruct (Hpair 3%nat _ eq_refl) as [P3 N3].
  simpl in P0, P1, P2, P3.
  pose proof (outer_eigenpair r _ _ Hu P0 N0) as C0.
  pose proof (outer_eigenpair r _ _ Hu P1 N1) as C1.
  pose proof (outer_eigenpair r _ _ Hu P2 N2) as C2.
  pose proof (outer_eigenpair r _ _ Hu P3 N3) as C3.
  assert (Hone : wa = 1 \/ wb = 1 \/ wc = 1 \/ wd = 1).
  { destruct C0 as [[_ Z0] | [? _]]; [|tauto].
    destruct C1 as [[_ Z1] | [? _]]; [|tauto].
    destruct C2 as [[_ Z2] | [? _]]; [|tauto].
    destruct C3 as [[_ Z3] | [? _]]; [|tauto].
    exfalso.
    assert (Hz : r = mkQ 0 0 0 0).
    { apply Hspan. intros i v Hc.
      destruct i as [|[|[|[|i]]]]; simpl in Hc; try discriminate;
        injection Hc as <-; assumption. }
    subst r. unfold unit_quaternion in Hu; simpl in Hu. lra. }
  pose proof (argmax_four wa wb wc wd) as (Hk & Ka & Kb & Kc & Kd).
  unfold quat_list; simpl q0; simpl q1; simpl q2; simpl q3.
  cbv zeta in Hk, Ka, Kb, Kc, Kd.
  set (k := argmax [wa; wb; wc; wd]) in *.
  assert (Hsel : forall v, column V k = Ok v ->
                           exists q, fromQuaternion v true (-1) = Ok q
                                     /\ (q = r \/ q = qscale (-1) r) /\ 0 <= q0 q).
  { intros v Hc.
    destruct (Hpair k v Hc) as [Pk Nk]. simpl in Pk.
    destruct (outer_eigenpair r _ _ Hu Pk Nk) as [[Zk _] | [_ Hv]].
    - exfalso.
      assert (Hw : wa <= 0 /\ wb <= 0 /\ wc <= 0 /\ wd <= 0) by (rewrite <- Zk; tauto).
      lra.
    - destruct (fromQuaternion_homomorph v Nk) as (q & Hq & Hs & Hpos).
      exists q. split; [exact Hq|]. split; [|exact Hpos].
      destruct Hv as [-> | ->]; destruct Hs as [-> | ->]; auto.
      rewrite qscale_opp_opp. auto. }
  clearbody k.
  destruct k as [|[|[|[|k]]]]; try lia; simpl; apply Hsel; reflexivity.
Qed.

Lemma eig_identity_decomposition :
  eigen_decomposition (asM (mkQ 1 0 0 0))
    (fst (eig_identity (asM (mkQ 1 0 0 0))))
    (snd (eig_identity (asM (mkQ 1 0 0 0)))).
Proof.
  split.
  - intros i v Hc.
    destruct i as [|[|[|[|i]]]]; simpl in Hc; try discriminate;
      injection Hc as <-;
      (split; [unfold matvec4, asM, outer, qscale, qdot; simpl; f_equal; ring
              | unfold qdot; simpl; ring]).
  - intros u Hu. destruct u as [a b c d].
    pose proof (Hu 0%nat _ eq_refl) as H0.
    pose proof (Hu 1%nat _ eq_refl) as H1.
    pose proof (Hu 2%nat _ eq_refl) as H2.
    pose proof (Hu 3%nat _ eq_refl) as H3.
    unfold qdot in *; simpl in *. f_equal; lra.
Qed.

Lemma fromAverage_single_witness :
  unit_quaternion (mkQ 1 0 0 0)
  /\ exists q, fromAverage eig_identity [mkQ 1 0 0 0] [] = Ok q
               /\ (q = mkQ 1 0 0 0 \/ q = qscale (-1) (mkQ 1 0 0 0)) /\ 0 <= q0 q.
Proof.
  assert (H : unit_quaternion (mkQ 1 0 0 0))
    by (unfold unit_quaternion; simpl; lra).
  split; [exact H|].
  exact (fromAverage_single eig_identity _ H eig_identity_decomposition).
Defined.

(** ** Fundamental zone and stereographic triangle *)

Lemma inFZ_wrong_length (self : Symmetry) (rodrigues : list xfloat) :
  List.length rodrigues <> 3%nat ->
  inFZ self rodrigues = Raise (ValueError "Input is not a Rodriques-Frank vector.").
Proof.
  intros Hl. destruct rodrigues as [|a [|b [|c [|d l]]]]; simpl in *;
    try reflexivity; congruence.
Qed.

Lemma inFZ_positive_infinity (self : Symmetry) (r0 r1 r2 : xfloat) :
  In PInf [r0; r1; r2] -> inFZ self [r0; r1; r2] = Ok false.
Proof.
  intros Hin. unfold inFZ.
  assert (E : Np.any (fun x => X.eqb x PInf) [r0; r1; r2] = true).
  { apply existsb_exists. exists PInf. split; [exact Hin | reflexivity]. }
  rewrite E. reflexivity.
Qed.

Lemma inFZ_negative_infinity (self : Symmetry) (r0 r1 r2 : xfloat) :
  self <> none -> In NInf [r0; r1; r2] -> inFZ self [r0; r1; r2] = Ok false.
Proof.
  intros Hs Hin. unfold inFZ.
  destruct (Np.any (fun x => X.eqb x PInf) [r0; r1; r2]); [reflexivity|].
  destruct self; try congruence; f_equal;
    destruct Hin as [-> | [-> | [-> | []]]]; simpl;
    repeat (rewrite ?andb_false_r; simpl);
    try reflexivity;
    destruct (X.abs r0), (X.abs r1); simpl;
    repeat (rewrite ?andb_false_r; simpl); reflexivity.
Qed.

(** C3, where the source departs from it: for the unspecified (triclinic)
    symmetry a vector with a component at negative infinity is reported
    inside the fundamental zone, while its mirror image at positive infinity
    is reported outside.  The second pair is what [asRodrigues] yields for
    the half turns (0,-1,0,0) and (0,1,0,0). *)
Theorem inFZ_triclinic_negative_infinity :
  inFZ none [NInf; Fin 0; Fin 0] = Ok true
  /\ inFZ none [PInf; Fin 0; Fin 0] = Ok false
  /\ inFZ none [NInf; NaN; NaN] = Ok true
  /\ inFZ none [PInf; NaN; NaN] = Ok false.
Proof. repeat split; reflexivity. Qed.

Lemma iszero_zero : iszero 0 = true.
Proof.
  unfold iszero, Np.isclose_tol. apply leb_true.
  replace (0 - 0) with 0 by ring. rewrite Rabs_R0.
  assert (0 < / 10 ^ 12) by (apply Rinv_0_lt_compat, pow_lt; lra).
  lra.
Qed.

(** The two quaternions of the half turn about x, which differ by their
    global sign only, land on either side of the test. *)
Lemma inFZ_half_turn_sign :
  asRodrigues (mkQ 0 (-1) 0 0) true = [NInf; NaN; NaN]
  /\ asRodrigues (mkQ 0 1 0 0) true = [PInf; NaN; NaN]
  /\ inFZ none (asRodrigues (mkQ 0 (-1) 0 0) true) = Ok true
  /\ inFZ none (asRodrigues (mkQ 0 1 0 0) true) = Ok false.
Proof.
  assert (A : asRodrigues (mkQ 0 (-1) 0 0) true = [NInf; NaN; NaN]).
  { unfold asRodrigues, qu2ro. cbn [q0 q1 q2 q3]. rewrite iszero_zero.
    cbn [firstn nth map X.mul].
    assert (E1 : Np.ltb 0 (-1) = false) by (apply ltb_false; lra).
    assert (E2 : Np.ltb (-1) 0 = true) by (apply ltb_true; lra).
    assert (E3 : Np.ltb 0 0 = false) by (apply ltb_false; lra).
    rewrite E1, E2, E3. reflexivity. }
  assert (B : asRodrigues (mkQ 0 1 0 0) true = [PInf; NaN; NaN]).
  { unfold asRodrigues, qu2ro. cbn [q0 q1 q2 q3]. rewrite iszero_zero.
    cbn [firstn nth map X.mul].
    assert (E1 : Np.ltb 0 1 = true) by (apply ltb_true; lra).
    assert (E3 : Np.ltb 0 0 = false) by (apply ltb_false; lra).
    rewrite E1, E3. reflexivity. }
  rewrite A, B. repeat split; reflexivity.
Qed.

(** C10: without a symmetry, [inSST] answers True for every vector, and
    (True, zero colour) when the colour is asked for. *)
Theorem inSST_unspecified_symmetry (vector : list R) (proper : bool) :
  inSST none vector proper false = Ok (Verdict true)
  /\ inSST none vector proper true = Ok (VerdictColor true (mkV 0 0 0)).
Proof. split; reflexivity. Qed.

(** ** Orientation relationships *)

Lemma vec3_eq (a b : vec3) :
  v0 a = v0 b -> v1 a = v1 b -> v2 a = v2 b -> a = b.
Proof. destruct a, b; simpl; intros; subst; reflexivity. Qed.

Lemma mat3_eq (a b : mat3) :
  row0 a = row0 b -> row1 a = row1 b -> row2 a = row2 b -> a = b.
Proof. destruct a, b; simpl; intros; subst; reflexivity. Qed.

Ltac mat_ring :=
  intros;
  repeat match goal with
         | m : mat3 |- _ => destruct m as [[? ? ?] [? ? ?] [? ? ?]]
         | v : vec3 |- _ => destruct v as [? ? ?]
         end;
  try (apply mat3_eq; apply vec3_eq);
  unfold det, matmul, transpose, col0, col1, col2, dot3, cross; simpl; ring.

Lemma matmul_assoc (a b c : mat3) : matmul a (matmul b c) = matmul (matmul a b) c.
Proof. mat_ring. Qed.

Lemma transpose_matmul (a b : mat3) :
  transpose (matmul a b) = matmul (transpose b) (transpose a).
Proof. mat_ring. Qed.

Lemma transpose_transpose (a : mat3) : transpose (transpose a) = a.
Proof. mat_ring. Qed.

Lemma matmul_I3_l (a : mat3) : matmul I3 a = a.
Proof. unfold I3. mat_ring. Qed.

Lemma matmul_I3_r (a : mat3) : matmul a I3 = a.
Proof. unfold I3. mat_ring. Qed.

Lemma det_matmul (a b : mat3) : det (matmul a b) = det a * det b.
Proof. mat_ring. Qed.

Lemma det_transpose (a : mat3) : det (transpose a) = det a.
Proof. mat_ring. Qed.

Lemma proper_rotation_transpose (m : mat3) :
  proper_rotation m -> proper_rotation (transpose m).
Proof.
  intros (Hr & Hc & Hd). unfold proper_rotation.
  rewrite transpose_transpose, det_transpose. auto.
Qed.

Lemma proper_rotation_matmul (a b : mat3) :
  proper_rotation a -> proper_rotation b -> proper_rotation (matmul a b).
Proof.
  intros (Ar & Ac & Ad) (Br & Bc & Bd). unfold proper_rotation.
  rewrite transpose_matmul, det_matmul, Ad, Bd. repeat split.
  - rewrite matmul_assoc, <- (matmul_assoc a b), Br, matmul_I3_r. exact Ar.
  - rewrite matmul_assoc, <- (matmul_assoc (transpose b)), Ac, matmul_I3_r. exact Bc.
  - ring.
Qed.

Lemma frame_proper_rotation (plane dir : vec3) :
  dot3 plane plane = 1 -> dot3 dir dir = 1 -> dot3 plane dir = 0 ->
  proper_rotation (frame plane dir).
Proof.
  destruct plane as [p0 p1 p2], dir as [d0 d1 d2].
  unfold dot3; simpl. intros Hp Hd Ho.
  set (PP := p0 * p0 + p1 * p1 + p2 * p2) in *.
  set (DD := d0 * d0 + d1 * d1 + d2 * d2) in *.
  set (PD := p0 * d0 + p1 * d1 + p2 * d2) in *.
  assert (Lagrange : PP * DD - PD * PD = 1) by (rewrite Hp, Hd, Ho; ring).
  unfold proper_rotation, frame, I3. repeat split.
  - apply mat3_eq; apply vec3_eq;
      unfold matmul, transpose, col0, col1, col2, dot3, cross; simpl.
    + exact Hd.
    + ring.
    + rewrite <- Ho. unfold PD. ring.
    + ring.
    + rewrite <- Lagrange. unfold PP, DD, PD. ring.
    + ring.
    + rewrite <- Ho. unfold PD. ring.
    + ring.
    + exact Hp.
  - apply mat3_eq; apply vec3_eq;
      unfold matmul, transpose, col0, col1, col2, dot3, cross; simpl.
    all: match goal with
         | |- ?L = ?rhs =>
             let fix_entry pi pj di dj :=
               replace L
                 with (rhs + (rhs * (PP * DD - PD * PD - 1)
                              + pi * pj * (1 - DD) + di * dj * (1 - PP)
                              + PD * (pi * dj + pj * di)))
                 by (unfold PP, DD, PD; ring) in
             first [ fix_entry p0 p0 d0 d0 | fix_entry p0 p1 d0 d1
                   | fix_entry p0 p2 d0 d2 | fix_entry p1 p1 d1 d1
                   | fix_entry p1 p2 d1 d2 | fix_entry p2 p2 d2 d2 ]
         end.
    all: rewrite Lagrange, Hp, Hd, Ho; ring.
  - unfold det, dot3, cross; simpl. rewrite <- Lagrange. unfold PP, DD, PD. ring.
Qed.

Lemma normalized_unit (v : vec3) :
  0 < dot3 v v -> dot3 (normalized v) (normalized v) = 1.
Proof.
  intros Hpos. unfold normalized, norm3.
  assert (Hn : sqrt (dot3 v v) * sqrt (dot3 v v) = dot3 v v)
    by (apply sqrt_sqrt; lra).
  assert (Hs : 0 < sqrt (dot3 v v)) by (apply sqrt_lt_R0; exact Hpos).
  set (n := sqrt (dot3 v v)) in *.
  unfold dot3 at 1; simpl.
  replace (v0 v / n * (v0 v / n) + v1 v / n * (v1 v / n) + v2 v / n * (v2 v / n))
    with (dot3 v v / (n * n)) by (unfold dot3; field; lra).
  rewrite Hn. field. lra.
Qed.

Lemma normalized_orthogonal (a b : vec3) :
  dot3 a b = 0 -> dot3 (normalized a) (normalized b) = 0.
Proof.
  intros Ho. unfold normalized.
  set (na := norm3 a). set (nb := norm3 b).
  unfold dot3 at 1; simpl.
  replace (v0 a / na * (v0 b / nb) + v1 a / na * (v1 b / nb) + v2 a / na * (v2 b / nb))
    with (dot3 a b * / na * / nb) by (unfold dot3, Rdiv; ring).
  rewrite Ho. ring.
Qed.

Lemma isclose_zero : Np.isclose 0 0 = true.
Proof.
  unfold Np.isclose, Np.isclose_tol. apply leb_true.
  replace (0 - 0) with 0 by ring. rewrite Rabs_R0.
  assert (0 < / 10 ^ 8) by (apply Rinv_0_lt_compat, pow_lt; lra).
  lra.
Qed.

Lemma fromMatrix_proper_rotation (om : mat3) :
  proper_rotation om -> fromMatrix om = Ok (om2qu om).
Proof.
  intros (Hr & _ & Hd). unfold fromMatrix, fromBasis.
  rewrite Hd, isclose_one. simpl.
  assert (H01 : dot3 (row0 om) (row1 om) = 0).
  { apply (f_equal (fun m => v1 (row0 m))) in Hr.
    destruct om as [[? ? ?] [? ? ?] [? ? ?]]. exact Hr. }
  assert (H12 : dot3 (row1 om) (row2 om) = 0).
  { apply (f_equal (fun m => v2 (row1 m))) in Hr.
    destruct om as [[? ? ?] [? ? ?] [? ? ?]]. exact Hr. }
  assert (H20 : dot3 (row2 om) (row0 om) = 0).
  { apply (f_equal (fun m => v0 (row2 m))) in Hr.
    destruct om as [[? ? ?] [? ? ?] [? ? ?]]. exact Hr. }
  rewrite H01, H12, H20, isclose_zero. reflexivity.
Qed.

Lemma dot3_to_vec3 (a b : miller_index) :
  dot3 (to_vec3 a) (to_vec3 b) = IZR (zdot a b).
Proof.
  destruct a as [[a0 a1] a2], b as [[b0 b1] b2].
  unfold dot3, zdot; simpl. rewrite !plus_IZR, !mult_IZR. reflexivity.
Qed.

Lemma rmapM_ok {A B : Type} (f : A -> result B) (g : A -> B) (l : list A) :
  Forall (fun a => f a = Ok (g a)) l -> rmapM f l = Ok (map g l).
Proof.
  induction 1 as [|a l Ha _ IH]; simpl.
  - reflexivity.
  - rewrite Ha. simpl. rewrite IH. reflexivity.
Qed.

Lemma row_frames (p d : miller_index) :
  (zdot p d =? 0)%Z = true -> (0 <? zdot p p)%Z = true -> (0 <? zdot d d)%Z = true ->
  proper_rotation (frame (normalized (to_vec3 p)) (normalized (to_vec3 d))).
Proof.
  intros Ho Hp Hd.
  apply Z.eqb_eq in Ho. apply Z.ltb_lt in Hp, Hd.
  apply frame_proper_rotation.
  - apply normalized_unit. rewrite dot3_to_vec3. apply (IZR_lt 0). exact Hp.
  - apply normalized_unit. rewrite dot3_to_vec3. apply (IZR_lt 0). exact Hd.
  - apply normalized_orthogonal. rewrite dot3_to_vec3, Ho. reflexivity.
Qed.

Lemma row_relating_rotation (myPlane_id : nat) pd :
  row_ok pd = true -> (myPlane_id = 0 \/ myPlane_id = 1)%nat ->
  (om <- relating_matrix myPlane_id
           [to_vec3 (fst (fst pd)); to_vec3 (snd (fst pd));
            to_vec3 (fst (snd pd)); to_vec3 (snd (snd pd))] ;;
   fromMatrix om)
  = Ok (row_rotation myPlane_id
          [to_vec3 (fst (fst pd)); to_vec3 (snd (fst pd));
           to_vec3 (fst (snd pd)); to_vec3 (snd (snd pd))]).
Proof.
  destruct pd as [[p0 p1] [d0 d1]]. unfold row_ok.
  rewrite !andb_true_iff. intros (((((O0 & O1) & P0) & P1) & D0) & D1) Hid.
  pose proof (row_frames p0 d0 O0 P0 D0) as F0.
  pose proof (row_frames p1 d1 O1 P1 D1) as F1.
  destruct Hid as [-> | ->]; unfold relating_matrix, row_rotation, index; simpl.
  - apply fromMatrix_proper_rotation.
    apply proper_rotation_matmul; [apply proper_rotation_transpose|]; assumption.
  - apply fromMatrix_proper_rotation.
    apply proper_rotation_matmul; [apply proper_rotation_transpose|]; assumption.
Qed.

Lemma table_rotations (rel : relationship) (myPlane_id : nat) :
  table_ok rel = true -> (myPlane_id = 0 \/ myPlane_id = 1)%nat ->
  rmapM (fun miller => om <- relating_matrix myPlane_id miller ;; fromMatrix om)
        (hstack (planes rel) (directions rel))
  = Ok (map (row_rotation myPlane_id) (hstack (planes rel) (directions rel))).
Proof.
  intros Hok Hid. apply rmapM_ok. unfold hstack. apply Forall_map.
  apply Forall_forall. intros pd Hin.
  apply row_relating_rotation; [|exact Hid].
  unfold table_ok in Hok. rewrite forallb_forall in Hok. apply Hok, Hin.
Qed.

Lemma tables_ok :
  table_ok KS = true /\ table_ok GT = true /\ table_ok GTprime = true
  /\ table_ok NW = true /\ table_ok Pitsch = true /\ table_ok Bain = true.
Proof. repeat split; vm_compute; reflexivity. Qed.

Lemma models_cases (model : string) :
  (~ known_model model /\ models model = None)
  \/ (known_model model
      /\ exists rel, models model = Some rel /\ table_ok rel = true
                     /\ mapping rel = [("fcc"%string, 0%nat); ("bcc"%string, 1%nat)]).
Proof.
  destruct tables_ok as (T1 & T2 & T3 & T4 & T5 & T6).
  unfold models, known_model.
  destruct (String.eqb model "KS") eqn:E1;
    [apply String.eqb_eq in E1; subst model; right; split; [simpl; tauto | exists KS; auto] |].
  destruct (String.eqb model "GT") eqn:E2;
    [apply String.eqb_eq in E2; subst model; right; split; [simpl; tauto | exists GT; auto] |].
  destruct (String.eqb model "GT_prime") eqn:E3;
    [apply String.eqb_eq in E3; subst model; right; split; [simpl; tauto | exists GTprime; auto] |].
  destruct (String.eqb model "NW") eqn:E4;
    [apply String.eqb_eq in E4; subst model; right; split; [simpl; tauto | exists NW; auto] |].
  destruct (String.eqb model "Pitsch") eqn:E5;
    [apply String.eqb_eq in E5; subst model; right; split; [simpl; tauto | exists Pitsch; auto] |].
  destruct (String.eqb model "Bain") eqn:E6;
    [apply String.eqb_eq in E6; subst model; right; split; [simpl; tauto | exists Bain; auto] |].
  apply String.eqb_neq in E1, E2, E3, E4, E5, E6.
  left. split; [|reflexivity]. simpl. intuition congruence.
Qed.

Lemma relationOperations_cases (self : Lattice) (model : string) :
  (~ known_model model
   /\ relationOperations self model
      = Raise (KeyError "Orientation relationship is unknown"))
  \/ (known_model model /\ ~ endpoint (lattice self)
      /\ relationOperations self model
         = Raise (ValueError "Relationship not supported for lattice"))
  \/ (known_model model /\ endpoint (lattice self)
      /\ exists rel,
           models model = Some rel
           /\ relationOperations self model
              = Ok (mkRelation
                      (mkLattice (other_of (lattice self)) cubic)
                      (map (row_rotation (column_of (lattice self)))
                           (hstack (planes rel) (directions rel))))).
Proof.
  destruct (models_cases model) as [[Hk Hm] | (Hk & rel & Hm & Hok & Hmap)].
  - left. split; [exact Hk|]. unfold relationOperations. rewrite Hm. reflexivity.
  - right. unfold relationOperations. rewrite Hm, Hmap.
    destruct self as [l s]. unfold endpoint. simpl lattice. simpl lookup_key.
    destruct (String.eqb l "fcc") eqn:Ef.
    { apply String.eqb_eq in Ef. subst l. right.
      split; [exact Hk|]. split; [left; reflexivity|].
      exists rel. split; [reflexivity|].
      rewrite (table_rotations rel 0%nat Hok) by (left; reflexivity).
      reflexivity. }
    destruct (String.eqb l "bcc") eqn:Eb.
    { apply String.eqb_eq in Eb. subst l. right.
      split; [exact Hk|]. split; [right; reflexivity|].
      exists rel. split; [reflexivity|].
      rewrite (table_rotations rel 1%nat Hok) by (right; reflexivity).
      reflexivity. }
    apply String.eqb_neq in Ef, Eb.
    left. split; [exact Hk|]. split; [|reflexivity]. intros [? | ?]; congruence.
Qed.

(** C7: [relationOperations] raises the unknown-relationship error exactly
    for a model outside {KS, GT, GT_prime, NW, Pitsch, Bain}, the
    unsupported-lattice error exactly for a known model on a lattice that is
    neither fcc nor bcc, and otherwise returns the rotation of every table
    row together with the other endpoint as the target lattice. *)
Theorem relationOperations_errors (self : Lattice) (model : string) :
  (relationOperations self model
   = Raise (KeyError "Orientation relationship is unknown")
   <-> ~ known_model model)
  /\ (relationOperations self model
      = Raise (ValueError "Relationship not supported for lattice")
      <-> known_model model /\ ~ endpoint (lattice self))
  /\ ((exists e, relationOperations self model = Raise e)
      <-> ~ (known_model model /\ endpoint (lattice self)))
  /\ (known_model model /\ endpoint (lattice self)
      <-> exists rel,
            models model = Some rel
            /\ relationOperations self model
               = Ok (mkRelation
                       (mkLattice (other_of (lattice self)) cubic)
                       (map (row_rotation (column_of (lattice self)))
                            (hstack (planes rel) (directions rel))))).
Proof.
  destruct (relationOperations_cases self model)
    as [[Hk Hr] | [(Hk & He & Hr) | (Hk & He & rel & Hm & Hr)]]; rewrite Hr.
  - split; [|split; [|split]]; split; intros G;
      try tauto; try discriminate; try (eexists; reflexivity).
    destruct G as (r & _ & G). discriminate.
  - split; [|split; [|split]]; split; intros G;
      try tauto; try discriminate; try (eexists; reflexivity).
    destruct G as (r & _ & G). discriminate.
  - split; [|split; [|split]]; split; intros G;
      try tauto; try discriminate.
    + destruct G as [e G]. discriminate.
    + exists rel. split; [exact Hm | reflexivity].
Qed.

(** ** Disorientation *)

Lemma asRodrigues_vector_shape (q : quat) :
  exists a b c, asRodrigues q true = [a; b; c].
Proof.
  unfold asRodrigues, qu2ro.
  destruct (iszero (q0 q)); [|destruct (iszero _)]; simpl; eauto.
Qed.

Lemma inDisorientationSST_total (s : Symmetry) (q : quat) :
  exists b, inDisorientationSST s (as_Rodrigues q true) = Ok b.
Proof.
  unfold as_Rodrigues. destruct (asRodrigues_vector_shape q) as (a & b & c & ->).
  destruct s; simpl; eauto.
Qed.

Lemma breaker_of_accepted (other : Orientation) (SST : bool) (i j k : nat) (r : quat) :
  breaker_of other SST r = Ok (accepted other SST (i, j, k, r)).
Proof.
  unfold breaker_of, accepted. destruct SST; cbn [negb orb snd]; [|reflexivity].
  destruct (inDisorientationSST_total (symmetry (o_lattice other)) r) as [b ->].
  reflexivity.
Qed.

Lemma inverse_array_involutive (q : quat) : inverse_array (inverse_array q) = q.
Proof. destruct q; unfold inverse_array; simpl; f_equal; ring. Qed.

Section Search.

Variables (other : Orientation) (SST : bool).

Lemma scan_app (cs1 cs2 : list candidate) (seen : option candidate) :
  scan other SST (cs1 ++ cs2) seen
  = match scan other SST cs1 seen with
    | Some (c, true) => Some (c, true)
    | Some (c, false) => scan other SST cs2 (Some c)
    | None => scan other SST cs2 None
    end.
Proof.
  revert seen. induction cs1 as [|c cs1 IH]; intros seen; simpl.
  - destruct seen; reflexivity.
  - destruct (accepted other SST c); [reflexivity|]. apply IH.
Qed.

Lemma scan_nonempty (cs : list candidate) (seen : option candidate) :
  cs <> [] -> exists c b, scan other SST cs seen = Some (c, b).
Proof.
  revert seen. induction cs as [|c cs IH]; intros seen Hne; [congruence|].
  simpl. destruct (accepted other SST c); [eauto|].
  destruct cs as [|c' cs']; [simpl; eauto|]. apply IH. discriminate.
Qed.

Lemma scan_chosen (cs : list candidate) :
  cs <> [] -> exists b, scan other SST cs None = Some (chosen other SST cs, b).
Proof.
  intros Hne. unfold chosen.
  assert (G : forall seen,
             scan other SST cs seen
             = match find (accepted other SST) cs with
               | Some c => Some (c, true)
               | None => match cs with
                         | [] => option_map (fun c => (c, false)) seen
                         | _ => Some (last cs (0%nat, 0%nat, 0%nat, mkQ 1 0 0 0), false)
                         end
               end).
  { clear Hne. induction cs as [|c cs IH]; intros seen; [reflexivity|].
    cbn [scan find]. destruct (accepted other SST c); [reflexivity|].
    rewrite IH. destruct (find (accepted other SST) cs); [reflexivity|].
    destruct cs; reflexivity. }
  rewrite G. destruct (find (accepted other SST) cs); [eauto|].
  destruct cs; [congruence|eauto].
Qed.

Lemma for_k_pair (e : locals) (i j : nat) (m : quat) :
  l_r e = Some m -> l_i e = Some i -> l_j e = Some j ->
  exists c b,
    scan other SST [(i, j, 0%nat, inverse_array m); (i, j, 1%nat, m)] None = Some (c, b)
    /\ for_k other SST (seq 0 2) e = Ok (locals_at c b)
    /\ l_i (locals_at c b) = Some i /\ l_breaker (locals_at c b) = Some b.
Proof.
  intros Hr Hi Hj. destruct e as [er ei ej ek eb]; cbn [l_r l_i l_j] in *. subst.
  cbn [seq for_k read rbind l_r l_i l_j l_k l_breaker scan].
  rewrite (breaker_of_accepted other SST i j 0%nat (inverse_array m)).
  cbn [rbind].
  destruct (accepted other SST (i, j, 0%nat, inverse_array m)) eqn:A0.
  - eexists _, _. repeat split; reflexivity.
  - cbn [read rbind l_r l_i l_j l_k l_breaker].
    rewrite inverse_array_involutive.
    rewrite (breaker_of_accepted other SST i j 1%nat m). cbn [rbind].
    destruct (accepted other SST (i, j, 1%nat, m)) eqn:A1;
      eexists _, _; repeat split; reflexivity.
Qed.

Lemma scan_some (cs : list candidate) (c : candidate) :
  exists x, scan other SST cs (Some c) = Some x.
Proof.
  revert c. induction cs as [|c' cs IH]; intros c; simpl; [eauto|].
  destruct (accepted other SST c'); [eauto|apply IH].
Qed.

Lemma scan_seen (cs : list candidate) (c : candidate) :
  scan other SST cs (Some c)
  = match scan other SST cs None with
    | Some x => Some x
    | None => Some (c, false)
    end.
Proof.
  destruct cs as [|c' cs]; [reflexivity|].
  simpl. destruct (accepted other SST c'); [reflexivity|].
  destruct (scan_some cs c') as [x ->]. reflexivity.
Qed.

Lemma locals_at_i (c : candidate) (b : bool) :
  l_i (locals_at c b) = Some (fst (fst (fst c))) /\ l_breaker (locals_at c b) = Some b.
Proof. destruct c as [[[i j] k] r]. split; reflexivity. Qed.

Lemma for_j_scan (aInv : quat) (js : list (nat * Orientation)) (e : locals) (i : nat) :
  l_i e = Some i ->
  for_j other SST aInv js e
  = Ok match scan other SST (flat_map (candidates_of_pair i aInv) js) None with
       | Some (c, b) => locals_at c b
       | None => e
       end.
Proof.
  revert e. induction js as [|[j sB] js IH]; intros e Hi; [reflexivity|].
  cbn [for_j flat_map]. rewrite scan_app.
  set (m := mul_rotation (rotation sB) aInv).
  destruct (for_k_pair (mkLocals (Some m) (l_i e) (Some j) (l_k e) (l_breaker e))
              i j m eq_refl Hi eq_refl) as (c & b & Hs & Hk & Hci & Hcb).
  change (candidates_of_pair i aInv (j, sB))
    with [(i, j, 0%nat, inverse_array m); (i, j, 1%nat, m)].
  rewrite Hs, Hk. cbn [rbind]. rewrite Hcb. cbn [read rbind].
  destruct b; [reflexivity|].
  rewrite (IH _ Hci), scan_seen.
  destruct (scan other SST (flat_map (candidates_of_pair i aInv) js) None) as [[c' b']|];
    reflexivity.
Qed.

Lemma for_i_scan (otherSymEqs : list Orientation) (is_ : list (nat * Orientation))
  (e : locals) :
  otherSymEqs <> [] ->
  for_i other SST otherSymEqs is_ e
  = Ok match scan other SST
               (flat_map (fun isA =>
                            flat_map (candidates_of_pair (fst isA) (inversed (rotation (snd isA))))
                                     (enumerate otherSymEqs)) is_) None with
       | Some (c, b) => locals_at c b
       | None => e
       end.
Proof.
  intros Hne. revert e. induction is_ as [|[i sA] is_ IH]; intros e; [reflexivity|].
  cbn [for_i flat_map fst snd]. rewrite scan_app.
  rewrite (for_j_scan _ _ _ i) by reflexivity.
  assert (Hcs : flat_map (candidates_of_pair i (inversed (rotation sA)))
                         (enumerate otherSymEqs) <> []).
  { destruct otherSymEqs; [congruence|]. discriminate. }
  destruct (scan_nonempty _ None Hcs) as (c & b & Hs). rewrite Hs.
  cbn [rbind]. destruct (locals_at_i c b) as [_ Hcb]. rewrite Hcb. cbn [read rbind].
  destruct b; [reflexivity|].
  rewrite IH, scan_seen.
  match goal with |- context [scan other SST ?l None] =>
    destruct (scan other SST l None) as [[c' b']|] end; reflexivity.
Qed.

End Search.

Lemma symQuats_nonempty (s : Symmetry) : symQuats s <> [].
Proof. destruct s; discriminate. Qed.

Lemma equivalent_nonempty (o : Orientation) : equivalent o <> [].
Proof.
  unfold equivalent, symmetry_operations.
  pose proof (symQuats_nonempty (symmetry (o_lattice o))) as H.
  destruct (symQuats (symmetry (o_lattice o))); [congruence|discriminate].
Qed.

Lemma candidates_nonempty (self other : Orientation) (SST : bool) :
  candidates self other SST <> [].
Proof.
  unfold candidates.
  pose proof (equivalent_nonempty self) as Hs.
  pose proof (equivalent_nonempty other) as Ho.
  assert (Hm : (if SST then equivalent self else first_only (equivalent self)) <> []).
  { destruct SST; [exact Hs|]. destruct (equivalent self); [congruence|discriminate]. }
  destruct (if SST then equivalent self else first_only (equivalent self));
    [congruence|].
  destruct (equivalent other); [congruence|]. discriminate.
Qed.

Lemma disorientation_scan (self other : Orientation) (SST : bool) :
  Symmetry_eqb (symmetry (o_lattice self)) (symmetry (o_lattice other)) = true ->
  disorientation self other SST true
  = Ok (result_of self (chosen other SST (candidates self other SST)))
  /\ disorientation self other SST false
     = Ok (RotationOnly (snd (chosen other SST (candidates self other SST)))).
Proof.
  intros Hsym. unfold disorientation. rewrite Hsym. cbn [negb].
  rewrite for_i_scan by apply equivalent_nonempty.
  fold (candidates self other SST).
  destruct (scan_chosen other SST _ (candidates_nonempty self other SST)) as [b ->].
  destruct (chosen other SST (candidates self other SST)) as [[[i j] k] r].
  split; reflexivity.
Qed.

(** Without [SST] every candidate is accepted: the only other conjunct of
    the test is the method object [self.in_FZ]. *)
Lemma accepted_without_SST (other : Orientation) (c : candidate) :
  accepted other false c = true.
Proof. reflexivity. Qed.

(** C1, amended: the search goes through the own equivalents (all of them
    with [SST], the first one alone without) by ascending operator index,
    inside them through the other's equivalents by ascending operator index,
    and for each pair tests first the inverse of the misorientation
    [b*aInv], reported with the flag false, and then [b*aInv] itself,
    reported with the flag true.  It returns the first candidate that its
    test accepts, and the last one tested when none is; with [SST] an
    accepted candidate has its Rodrigues vector in the disorientation
    triangle.  Orientations of different symmetry classes are refused. *)
Theorem disorientation_first_accepted (self other : Orientation) (SST : bool) :
  candidates self other SST <> []
  /\ disorientation self other SST true
     = (if Symmetry_eqb (symmetry (o_lattice self)) (symmetry (o_lattice other))
        then Ok (result_of self (chosen other SST (candidates self other SST)))
        else Raise (NotImplementedError
                      "disorientation between different symmetry classes not supported yet."))
  /\ (forall c, exists b,
        inDisorientationSST (symmetry (o_lattice other)) (as_Rodrigues (snd c) true)
        = Ok b
        /\ implb (accepted other true c) b = true).
Proof.
  split; [apply candidates_nonempty|]. split.
  - destruct (Symmetry_eqb _ _) eqn:Hsym.
    + apply disorientation_scan, Hsym.
    + unfold disorientation. rewrite Hsym. reflexivity.
  - intros c.
    destruct (inDisorientationSST_total (symmetry (o_lattice other)) (snd c)) as [b Hb].
    exists b. split; [exact Hb|]. unfold accepted. rewrite Hb.
    destruct b; reflexivity.
Qed.

Lemma ltb_nonneg (x : R) : 0 <= x -> Np.ltb x 0 = false.
Proof. intros H. apply ltb_false. exact H. Qed.

Lemma mul_rotation_one_l (q : quat) :
  0 <= q0 q -> mul_rotation (mkQ 1 0 0 0) q = q.
Proof.
  intros Hq. destruct q as [a b c d]; simpl in Hq.
  unfold mul_rotation, standardize_array, append, add3, scale3, cross, dot3, tail3, P.
  cbn [q0 q1 q2 q3 v0 v1 v2].
  rewrite ltb_nonneg by lra. apply quat_eq; simpl; ring.
Qed.

Lemma mul_rotation_one_r (q : quat) :
  0 <= q0 q -> mul_rotation q (mkQ 1 0 0 0) = q.
Proof.
  intros Hq. destruct q as [a b c d]; simpl in Hq.
  unfold mul_rotation, standardize_array, append, add3, scale3, cross, dot3, tail3, P.
  cbn [q0 q1 q2 q3 v0 v1 v2].
  rewrite ltb_nonneg by lra. apply quat_eq; simpl; ring.
Qed.

Lemma inversed_one : inversed (mkQ 1 0 0 0) = mkQ 1 0 0 0.
Proof. apply quat_eq; simpl; ring. Qed.

Lemma inDisorientationSST_none (q : quat) :
  inDisorientationSST none (as_Rodrigues q true) = Ok true.
Proof.
  unfold as_Rodrigues. destruct (asRodrigues_vector_shape q) as (a & b & c & ->).
  reflexivity.
Qed.

Lemma iszero_false (x : R) : / 10 ^ 12 < Rabs x -> iszero x = false.
Proof.
  intros H. unfold iszero, Np.isclose_tol. apply leb_false.
  replace (x - 0) with x by ring. rewrite Rabs_R0. lra.
Qed.

Lemma inFZ_none_finite (q : quat) :
  iszero (q0 q) = false -> inFZ none (as_Rodrigues q true) = Ok true.
Proof.
  intros Hz. unfold as_Rodrigues, asRodrigues, qu2ro. rewrite Hz.
  destruct (iszero (Np.norm _)); reflexivity.
Qed.

(** C1, as the claim states it, fails.  Own orientation: the identity,
    other orientation: the quaternion (3/5, 4/5, 0, 0), both triclinic.  The
    misorientation itself, (3/5, 4/5, 0, 0), lies in the fundamental zone
    and in the triangle, and the search as claimed returns it with the flag
    false; the source returns its inverse with the flag false. *)
Lemma disorientation_inverse_first_counterexample :
  disorientation (mkOrientation (mkQ 1 0 0 0) triclinic)
                 (mkOrientation (mkQ (3/5) (4/5) 0 0) triclinic) true true
  = Ok (WithSymmetries (mkOrientation (inversed (mkQ (3/5) (4/5) 0 0)) triclinic)
                       0%nat 0%nat false)
  /\ claimed_disorientation (mkOrientation (mkQ 1 0 0 0) triclinic)
                            (mkOrientation (mkQ (3/5) (4/5) 0 0) triclinic) true
     = Some (0%nat, 0%nat, false, mkQ (3/5) (4/5) 0 0)
  /\ inversed (mkQ (3/5) (4/5) 0 0) <> mkQ (3/5) (4/5) 0 0.
Proof.
  assert (Hq : 0 <= q0 (mkQ (3/5) (4/5) 0 0)) by (simpl; lra).
  assert (H1 : 0 <= q0 (mkQ 1 0 0 0)) by (simpl; lra).
  assert (Hz : iszero (q0 (mkQ (3/5) (4/5) 0 0)) = false).
  { apply iszero_false. simpl. rewrite Rabs_right by lra.
    assert (/ 10 ^ 12 < 1) by (rewrite <- Rinv_1; apply Rinv_lt_contravar; simpl; lra).
    lra. }
  split; [|split].
  - rewrite (proj1 (disorientation_scan (mkOrientation (mkQ 1 0 0 0) triclinic)
                     (mkOrientation (mkQ (3/5) (4/5) 0 0) triclinic) true eq_refl)).
    unfold candidates, equivalent, symmetry_operations, matmul_rotation, chosen.
    cbn [o_lattice symmetry triclinic symQuats map enumerate enumerate_from
         flat_map app candidates_of_pair fst snd rotation].
    rewrite !mul_rotation_one_l, inversed_one, mul_rotation_one_r by assumption.
    cbn [find]. unfold accepted at 1. cbn [negb orb snd o_lattice symmetry triclinic].
    rewrite inDisorientationSST_none. reflexivity.
  - unfold claimed_disorientation, claimed_candidates, equivalent,
      symmetry_operations, matmul_rotation, misorientation.
    cbn [o_lattice symmetry triclinic symQuats map enumerate enumerate_from
         flat_map app fst snd rotation].
    rewrite !mul_rotation_one_l, inversed_one, mul_rotation_one_r by assumption.
    cbn [find]. unfold claimed_accepted at 1.
    cbn [negb orb snd o_lattice symmetry triclinic].
    rewrite inDisorientationSST_none, (inFZ_none_finite _ Hz). reflexivity.
  - unfold inversed, inverse_array; simpl. intros H. inversion H. lra.
Qed.

(** * Further properties of the code *)

(** ** The algebra of [Rotation] *)

Lemma mul_rotation_hamilton (a b : quat) :
  mul_rotation a b = standardize_array (hamilton a b).
Proof. reflexivity. Qed.

Lemma standardize_array_sign (q : quat) :
  standardize_array q = q \/ standardize_array q = qscale (-1) q.
Proof.
  unfold standardize_array. destruct (Np.ltb (q0 q) 0); [right|left; reflexivity].
  apply quat_eq; simpl; ring.
Qed.

Lemma unit_quaternion_qdot (q : quat) : unit_quaternion q <-> qdot q q = 1.
Proof.
  unfold unit_quaternion, qdot. destruct q as [a b c d]; simpl.
  split; intros H; lra.
Qed.

Lemma qdot_qscale_opp (q : quat) : qdot (qscale (-1) q) (qscale (-1) q) = qdot q q.
Proof. destruct q; unfold qdot, qscale; simpl; ring. Qed.

Lemma standardize_array_qdot (q : quat) :
  qdot (standardize_array q) (standardize_array q) = qdot q q.
Proof.
  destruct (standardize_array_sign q) as [-> | ->];
    [reflexivity | apply qdot_qscale_opp].
Qed.

Lemma hamilton_qdot (a b : quat) :
  qdot (hamilton a b) (hamilton a b) = qdot a a * qdot b b.
Proof.
  destruct a, b.
  unfold hamilton, qdot, append, add3, scale3, cross, dot3, tail3, P; simpl. ring.
Qed.

Lemma mul_rotation_unit (a b : quat) :
  unit_quaternion a -> unit_quaternion b -> unit_quaternion (mul_rotation a b).
Proof.
  rewrite !unit_quaternion_qdot. intros Ha Hb.
  rewrite mul_rotation_hamilton, standardize_array_qdot, hamilton_qdot, Ha, Hb. ring.
Qed.

(** X1: composition, inversion and standardization keep a quaternion of
    unit length at unit length. *)
Theorem rotation_operations_keep_unit (a b : quat) :
  unit_quaternion a -> unit_quaternion b ->
  unit_quaternion (mul_rotation a b)
  /\ unit_quaternion (inversed a)
  /\ unit_quaternion (standardized a).
Proof.
  intros Ha Hb. split; [apply mul_rotation_unit; assumption|].
  rewrite !unit_quaternion_qdot in *. split.
  - rewrite <- Ha. destruct a; unfold inversed, inverse_array, qdot; simpl; ring.
  - unfold standardized. rewrite standardize_array_qdot. exact Ha.
Qed.

Lemma rotation_operations_keep_unit_witness :
  unit_quaternion (mkQ (3/5) (4/5) 0 0) /\ unit_quaternion (mkQ 0 0 1 0)
  /\ unit_quaternion (mul_rotation (mkQ (3/5) (4/5) 0 0) (mkQ 0 0 1 0)).
Proof.
  assert (Ha : unit_quaternion (mkQ (3/5) (4/5) 0 0))
    by (unfold unit_quaternion; simpl; lra).
  assert (Hb : unit_quaternion (mkQ 0 0 1 0))
    by (unfold unit_quaternion; simpl; lra).
  split; [exact Ha|]. split; [exact Hb|].
  exact (proj1 (rotation_operations_keep_unit _ _ Ha Hb)).
Defined.

Lemma mul_vector_qscale_opp (q : quat) (v : vec3) :
  mul_vector (qscale (-1) q) v = mul_vector q v.
Proof.
  destruct q, v. unfold mul_vector, qscale, dot3, tail3, P; simpl. f_equal; ring.
Qed.

Lemma mul_vector_standardize (q : quat) (v : vec3) :
  mul_vector (standardize_array q) v = mul_vector q v.
Proof.
  destruct (standardize_array_sign q) as [-> | ->];
    [reflexivity | apply mul_vector_qscale_opp].
Qed.

Lemma mul_vector_hamilton (a b : quat) (v : vec3) :
  mul_vector (hamilton a b) v = mul_vector a (mul_vector b v).
Proof.
  destruct a, b, v.
  unfold mul_vector, hamilton, append, add3, scale3, cross, dot3, tail3, P; simpl.
  f_equal; ring.
Qed.

(** X2: rotating a vector by the product [a*b] is rotating it by [b] and
    then by [a]; no unit length is needed. *)
Theorem mul_vector_compose (a b : quat) (v : vec3) :
  exists ab bv,
    mul a (ORotation b) = Ok (PRotation ab)
    /\ mul b (OVector v) = Ok (PVector bv)
    /\ mul ab (OVector v) = mul a (OVector bv).
Proof.
  exists (mul_rotation a b), (mul_vector b v). repeat split.
  simpl. rewrite mul_rotation_hamilton, mul_vector_standardize, mul_vector_hamilton.
  reflexivity.
Qed.

Lemma gtb_P : Np.gtb P 0 = false.
Proof. unfold Np.gtb, P. apply ltb_false. lra. Qed.

(** X3: the docstring's [b = Q * a] and [b = np.dot(Q.asMatrix(),a)] agree:
    rotating a vector is multiplying it by the rotation matrix. *)
Theorem mul_vector_asMatrix (q : quat) (v : vec3) :
  mul q (OVector v) = Ok (PVector (matvec (asMatrix q) v)).
Proof.
  simpl. do 2 f_equal. unfold asMatrix, qu2om. rewrite gtb_P.
  destruct q, v.
  unfold mul_vector, matvec, transpose, col0, col1, col2, dot3, tail3, P; simpl.
  f_equal; ring.
Qed.

(** X4: the matrix of a unit quaternion is a proper rotation (orthonormal
    rows and columns, determinant 1), and [fromMatrix] takes it back without
    complaint. *)
Theorem asMatrix_proper_rotation (q : quat) :
  unit_quaternion q ->
  proper_rotation (asMatrix q) /\ fromMatrix (asMatrix q) = Ok (om2qu (asMatrix q)).
Proof.
  intros Hu.
  assert (Hp : proper_rotation (asMatrix q)).
  { unfold asMatrix, qu2om. rewrite gtb_P.
    destruct q as [a b c d]. unfold unit_quaternion in Hu; simpl in Hu.
    set (N := a * a + b * b + c * c + d * d).
    assert (HN : N = 1) by (unfold N; lra).
    unfold proper_rotation, I3. repeat split.
    - apply mat3_eq; apply vec3_eq;
        unfold matmul, transpose, col0, col1, col2, dot3; simpl;
        match goal with
        | |- ?L = ?rhs => replace L with (rhs * (N * N)) by (unfold N; ring)
        end; rewrite HN; ring.
    - apply mat3_eq; apply vec3_eq;
        unfold matmul, transpose, col0, col1, col2, dot3; simpl;
        match goal with
        | |- ?L = ?rhs => replace L with (rhs * (N * N)) by (unfold N; ring)
        end; rewrite HN; ring.
    - unfold det, transpose, col0, col1, col2, dot3, cross; simpl.
      match goal with
      | |- ?L = 1 => replace L with (N * N * N) by (unfold N; ring)
      end. rewrite HN. ring. }
  split; [exact Hp | apply fromMatrix_proper_rotation, Hp].
Qed.

Lemma asMatrix_proper_rotation_witness :
  unit_quaternion (mkQ (3/5) 0 (4/5) 0)
  /\ fromMatrix (asMatrix (mkQ (3/5) 0 (4/5) 0))
     = Ok (om2qu (asMatrix (mkQ (3/5) 0 (4/5) 0))).
Proof.
  assert (H : unit_quaternion (mkQ (3/5) 0 (4/5) 0))
    by (unfold unit_quaternion; simpl; lra).
  split; [exact H | exact (proj2 (asMatrix_proper_rotation _ H))].
Defined.

Lemma hamilton_assoc (a b c : quat) :
  hamilton (hamilton a b) c = hamilton a (hamilton b c).
Proof.
  destruct a, b, c.
  unfold hamilton, append, add3, scale3, cross, dot3, tail3, P; simpl.
  f_equal; ring.
Qed.

Lemma hamilton_opp_l (a b : quat) :
  hamilton (qscale (-1) a) b = qscale (-1) (hamilton a b).
Proof.
  destruct a, b.
  unfold hamilton, qscale, append, add3, scale3, cross, dot3, tail3, P; simpl.
  f_equal; ring.
Qed.

Lemma hamilton_opp_r (a b : quat) :
  hamilton a (qscale (-1) b) = qscale (-1) (hamilton a b).
Proof.
  destruct a, b.
  unfold hamilton, qscale, append, add3, scale3, cross, dot3, tail3, P; simpl.
  f_equal; ring.
Qed.

Lemma standardize_array_of_sign (x y : quat) :
  y = x \/ y = qscale (-1) x ->
  standardize_array y = x \/ standardize_array y = qscale (-1) x.
Proof.
  intros [-> | ->].
  - apply standardize_array_sign.
  - destruct (standardize_array_sign (qscale (-1) x)) as [-> | ->]; [right; reflexivity|].
    left. apply qscale_opp_opp.
Qed.

(** X5: composition is associative up to the global sign: [(a*b)*c] is
    [a*(b*c)] or its negative, the same rotation. *)
Theorem mul_rotation_assoc (a b c : quat) :
  mul_rotation (mul_rotation a b) c = mul_rotation a (mul_rotation b c)
  \/ mul_rotation (mul_rotation a b) c = qscale (-1) (mul_rotation a (mul_rotation b c)).
Proof.
  set (x := hamilton (hamilton a b) c).
  assert (L : mul_rotation (mul_rotation a b) c = x
              \/ mul_rotation (mul_rotation a b) c = qscale (-1) x).
  { rewrite (mul_rotation_hamilton (mul_rotation a b) c).
    apply standardize_array_of_sign. rewrite mul_rotation_hamilton.
    destruct (standardize_array_sign (hamilton a b)) as [-> | ->];
      [left; reflexivity | right; apply hamilton_opp_l]. }
  assert (R' : mul_rotation a (mul_rotation b c) = x
              \/ mul_rotation a (mul_rotation b c) = qscale (-1) x).
  { rewrite (mul_rotation_hamilton a (mul_rotation b c)).
    apply standardize_array_of_sign. rewrite mul_rotation_hamilton.
    unfold x. rewrite hamilton_assoc.
    destruct (standardize_array_sign (hamilton b c)) as [-> | ->];
      [left; reflexivity | right; apply hamilton_opp_r]. }
  destruct L as [-> | ->], R' as [-> | ->]; auto.
  rewrite qscale_opp_opp. auto.
Qed.

(** X6: the identity quaternion is neutral on both sides for a
    standardized quaternion. *)
Theorem mul_rotation_identity (q : quat) :
  0 <= q0 q ->
  mul (mkQ 1 0 0 0) (ORotation q) = Ok (PRotation q)
  /\ mul q (ORotation (mkQ 1 0 0 0)) = Ok (PRotation q).
Proof.
  intros Hq. simpl.
  rewrite (mul_rotation_one_l q Hq), (mul_rotation_one_r q Hq). auto.
Qed.

Lemma mul_rotation_identity_witness :
  0 <= q0 (mkQ 0 0 1 0)
  /\ mul (mkQ 1 0 0 0) (ORotation (mkQ 0 0 1 0)) = Ok (PRotation (mkQ 0 0 1 0)).
Proof.
  assert (H : 0 <= q0 (mkQ 0 0 1 0)) by (simpl; lra).
  split; [exact H | exact (proj1 (mul_rotation_identity _ H))].
Defined.

Lemma hamilton_inverse_array (a b : quat) :
  hamilton (inverse_array b) (inverse_array a) = inverse_array (hamilton a b).
Proof.
  destruct a, b.
  unfold hamilton, inverse_array, append, add3, scale3, cross, dot3, tail3, P; simpl.
  f_equal; ring.
Qed.

Lemma standardize_inverse_array (q : quat) :
  standardize_array (inverse_array q) = inverse_array (standardize_array q).
Proof.
  unfold standardize_array. cbn [q0 inverse_array].
  destruct (Np.ltb (q0 q) 0); [|reflexivity].
  apply quat_eq; simpl; ring.
Qed.

(** X7: inverting twice gives the quaternion back, and the inverse of a
    product is the product of the inverses in reverse order. *)
Theorem inversed_involution_antihomomorphism (a b : quat) :
  inversed (inversed a) = a
  /\ inversed (mul_rotation a b) = mul_rotation (inversed b) (inversed a).
Proof.
  split; [apply inverse_array_involutive|].
  unfold inversed.
  rewrite !mul_rotation_hamilton, hamilton_inverse_array, standardize_inverse_array.
  reflexivity.
Qed.

Lemma standardize_array_idempotent (q : quat) :
  standardize_array (standardize_array q) = standardize_array q.
Proof.
  unfold standardize_array at 1.
  rewrite ltb_nonneg by apply standardize_array_nonneg. reflexivity.
Qed.

(** X8: in place, a second [inverse] undoes the first and leaves the heap
    as it was, and a second [standardize] changes nothing more. *)
Theorem inverse_twice_standardize_twice (h : gmap nat quat) (self : nat) (q : quat) :
  h !! self = Some q ->
  Rotation.bind (Rotation.inverse self) Rotation.inverse h = Some (self, h)
  /\ Rotation.bind (Rotation.standardize self) Rotation.standardize h
     = Rotation.standardize self h.
Proof.
  intros Hs. split.
  - unfold Rotation.bind at 1, Rotation.inverse at 1, Rotation.bind at 1, Rotation.ret.
    rewrite (update_spec h self q) by exact Hs.
    unfold Rotation.inverse, Rotation.bind, Rotation.ret.
    rewrite (update_spec _ self (inverse_array q)) by apply lookup_insert_eq.
    rewrite insert_insert_eq, inverse_array_involutive, insert_id by exact Hs.
    reflexivity.
  - unfold Rotation.bind at 1, Rotation.standardize at 1, Rotation.bind at 1, Rotation.ret.
    rewrite (update_spec h self q) by exact Hs.
    unfold Rotation.standardize, Rotation.bind, Rotation.ret.
    rewrite (update_spec _ self (standardize_array q)) by apply lookup_insert_eq.
    rewrite (update_spec h self q) by exact Hs.
    rewrite insert_insert_eq, standardize_array_idempotent. reflexivity.
Qed.

Lemma inverse_twice_standardize_twice_witness :
  ({[ 0%nat := mkQ 0 1 0 0 ]} : gmap nat quat) !! 0%nat = Some (mkQ 0 1 0 0)
  /\ Rotation.bind (Rotation.inverse 0%nat) Rotation.inverse {[ 0%nat := mkQ 0 1 0 0 ]}
     = Some (0%nat, {[ 0%nat := mkQ 0 1 0 0 ]}).
Proof.
  assert (H : ({[ 0%nat := mkQ 0 1 0 0 ]} : gmap nat quat) !! 0%nat
              = Some (mkQ 0 1 0 0)) by apply lookup_singleton_eq.
  split; [exact H|].
  exact (proj1 (inverse_twice_standardize_twice _ 0%nat _ H)).
Defined.

(** ** Constructors and conversions *)

Lemma eu2qu_unit (eu : vec3) :
  unit_quaternion (eu2qu eu) /\ 0 <= q0 (eu2qu eu).
Proof.
  unfold eu2qu.
  set (ee := scale3 (1 / 2) eu). clearbody ee.
  set (qu := mkQ (cos (v1 ee) * cos (v0 ee + v2 ee))
                 (- P * sin (v1 ee) * cos (v0 ee - v2 ee))
                 (- P * sin (v1 ee) * sin (v0 ee - v2 ee))
                 (- P * cos (v1 ee) * sin (v0 ee + v2 ee))).
  assert (Hq : qdot qu qu = 1).
  { unfold qu, qdot, P; simpl.
    pose proof (sin2_cos2 (v1 ee)) as H1.
    pose proof (sin2_cos2 (v0 ee + v2 ee)) as H2.
    pose proof (sin2_cos2 (v0 ee - v2 ee)) as H3.
    unfold Rsqr in *.
    set (c1 := cos (v1 ee)) in *. set (s1 := sin (v1 ee)) in *.
    set (cp := cos (v0 ee + v2 ee)) in *. set (sp := sin (v0 ee + v2 ee)) in *.
    set (cm := cos (v0 ee - v2 ee)) in *. set (sm := sin (v0 ee - v2 ee)) in *.
    match goal with
    | |- ?L = 1 =>
        replace L with (c1 * c1 * (sp * sp + cp * cp) + s1 * s1 * (sm * sm + cm * cm))
          by ring
    end.
    rewrite H2, H3. lra. }
  destruct (Np.ltb (q0 qu) 0) eqn:E.
  - apply ltb_true in E. split.
    + apply unit_quaternion_qdot. rewrite qdot_qscale_opp. exact Hq.
    + unfold qscale; simpl. simpl in E. lra.
  - apply ltb_false in E. split; [apply unit_quaternion_qdot, Hq | exact E].
Qed.

(** X9: whatever [fromEulers] returns is a unit quaternion with a
    non-negative real part. *)
Theorem fromEulers_unit (eulers : list R) (degrees : bool) (q : quat) :
  fromEulers eulers degrees = Ok q -> unit_quaternion q /\ 0 <= q0 q.
Proof.
  unfold fromEulers.
  destruct (if degrees then map radians eulers else eulers) as [|e0 [|e1 [|e2 l]]];
    try discriminate.
  destruct (_ || _ || _); [discriminate|].
  intros H. injection H as <-. apply eu2qu_unit.
Qed.

Lemma fromEulers_unit_witness :
  fromEulers [0; 0; 0] false = Ok (eu2qu (mkV 0 0 0))
  /\ unit_quaternion (eu2qu (mkV 0 0 0)).
Proof.
  assert (H : fromEulers [0; 0; 0] false = Ok (eu2qu (mkV 0 0 0))).
  { pose proof PI_RGT_0 as Hpi.
    unfold fromEulers, Np.any, Np.gtb; simpl.
    assert (E0 : Np.ltb 0 0 = false) by (apply ltb_false; lra).
    assert (E1 : Np.ltb (2 * PI) 0 = false) by (apply ltb_false; lra).
    assert (E2 : Np.ltb PI 0 = false) by (apply ltb_false; lra).
    rewrite E0, E1, E2. reflexivity. }
  split; [exact H | exact (proj1 (fromEulers_unit _ _ _ H))].
Defined.

Lemma tiny_pos : 0 < / 10 ^ 12 < 1.
Proof.
  split; [apply Rinv_0_lt_compat, pow_lt; lra|].
  rewrite <- Rinv_1. apply Rinv_lt_contravar; simpl; lra.
Qed.

Lemma iszero_true_iff (x : R) : iszero x = true <-> Rabs x <= / 10 ^ 12.
Proof.
  unfold iszero, Np.isclose_tol. rewrite leb_true.
  replace (x - 0) with x by ring. rewrite Rabs_R0. split; intros; lra.
Qed.

Lemma iszero_false_iff (x : R) : iszero x = false <-> / 10 ^ 12 < Rabs x.
Proof.
  unfold iszero, Np.isclose_tol. rewrite leb_false.
  replace (x - 0) with x by ring. rewrite Rabs_R0. split; intros; lra.
Qed.

Lemma iszero_false_pos (x : R) : / 10 ^ 12 < x -> iszero x = false.
Proof.
  intros H. apply iszero_false_iff. pose proof tiny_pos.
  rewrite Rabs_right by lra. exact H.
Qed.

Lemma qnorm_qscale_opp (q : quat) : qnorm (qscale (-1) q) = qnorm q.
Proof. unfold qnorm. rewrite qdot_qscale_opp. reflexivity. Qed.

(** X10: [fromQuaternion] refuses a negative real part unless
    [acceptHomomorph] is set, in which case it negates the quaternion; it
    then refuses a norm that is not close to 1; what it returns is the input
    (with the vector part negated first for a positive [P]) up to that sign,
    with a non-negative real part. *)
Theorem fromQuaternion_checks (quaternion : quat) (acceptHomomorph : bool) (Pk : R) :
  exists qu,
    qu = (if Np.gtb Pk 0 then inverse_array quaternion else quaternion)
    /\ ((q0 qu < 0 /\ acceptHomomorph = false
         /\ fromQuaternion quaternion acceptHomomorph Pk
            = Raise (ValueError "Quaternion has negative first component."))
        \/ (~ (q0 qu < 0 /\ acceptHomomorph = false)
            /\ Np.isclose (qnorm qu) 1 = false
            /\ fromQuaternion quaternion acceptHomomorph Pk
               = Raise (ValueError "Quaternion is not of unit length."))
        \/ (Np.isclose (qnorm qu) 1 = true /\ 0 <= q0 qu
            /\ fromQuaternion quaternion acceptHomomorph Pk = Ok qu)
        \/ (Np.isclose (qnorm qu) 1 = true /\ q0 qu < 0 /\ acceptHomomorph = true
            /\ fromQuaternion quaternion acceptHomomorph Pk = Ok (qscale (-1) qu)
            /\ 0 <= q0 (qscale (-1) qu))).
Proof.
  eexists. split; [reflexivity|].
  unfold fromQuaternion.
  set (qu := if Np.gtb Pk 0 then inverse_array quaternion else quaternion).
  destruct (Np.ltb (q0 qu) 0) eqn:E.
  - apply ltb_true in E. destruct acceptHomomorph.
    + cbn [rbind]. rewrite qnorm_qscale_opp.
      destruct (Np.isclose (qnorm qu) 1) eqn:N; cbn [negb].
      * right; right; right. repeat split; auto. unfold qscale; simpl. lra.
      * right; left. repeat split; auto. intros [_ H]. discriminate.
    + left. auto.
  - apply ltb_false in E. cbn [rbind].
    destruct (Np.isclose (qnorm qu) 1) eqn:N; cbn [negb].
    + right; right; left. auto.
    + right; left. repeat split; auto. intros [H _]. lra.
Qed.

Lemma acos_quarter (x : R) : 0 <= x <= 1 -> 0 <= acos x <= PI / 2.
Proof.
  intros Hx. pose proof (acos_bound x) as [Hl Hu]. split; [exact Hl|].
  destruct (Rle_dec (acos x) (PI / 2)) as [H|H]; [exact H|]. exfalso.
  assert (Hc : cos (acos x) < 0).
  { pose proof PI_RGT_0. apply cos_lt_0; lra. }
  rewrite cos_acos in Hc by lra. lra.
Qed.

Lemma fromAxisAngle_angle (ax : quat) (degrees normalise : bool) (Pk : R) :
  q3 (let ax := if Np.gtb Pk 0 then with_head3 (scale3 (-1) (head3 ax)) ax else ax in
      let ax := if degrees then mkQ (q0 ax) (q1 ax) (q2 ax) (radians (q3 ax)) else ax in
      if normalise then with_head3 (normalized (head3 ax)) ax else ax)
  = if degrees then radians (q3 ax) else q3 ax.
Proof. destruct (Np.gtb Pk 0), degrees, normalise; reflexivity. Qed.

(** X11: [fromAxisAngle] raises the angle error exactly when the angle, in
    radians, is negative or exceeds pi, whatever the axis and the other
    options. *)
Theorem fromAxisAngle_angle_error (angleAxis : quat) (degrees normalise : bool) (Pk : R) :
  fromAxisAngle angleAxis degrees normalise Pk
  = Raise (ValueError "Axis angle rotation angle outside of [0..pi].")
  <-> (let omega := if degrees then radians (q3 angleAxis) else q3 angleAxis in
       omega < 0 \/ PI < omega).
Proof.
  unfold fromAxisAngle.
  pose proof (fromAxisAngle_angle angleAxis degrees normalise Pk) as Ha.
  cbv zeta in Ha. cbv zeta.
  set (ax := if normalise then _ else _) in *.
  rewrite <- Ha. unfold Np.gtb.
  destruct (Np.ltb (q3 ax) 0) eqn:E1; [apply ltb_true in E1 | apply ltb_false in E1];
    cbn [orb].
  - split; [intros _; left; exact E1 | reflexivity].
  - destruct (Np.ltb PI (q3 ax)) eqn:E2;
      [apply ltb_true in E2 | apply ltb_false in E2].
    + split; [intros _; right; exact E2 | reflexivity].
    + split.
      * destruct (negb _); discriminate.
      * intros [H | H]; lra.
Qed.

Lemma norm3_normalized (v : vec3) : 0 < dot3 v v -> norm3 (normalized v) = 1.
Proof.
  intros H. unfold norm3 at 1. rewrite normalized_unit by exact H. apply sqrt_1.
Qed.

Lemma ax2qu_unit (ax : quat) :
  dot3 (head3 ax) (head3 ax) = 1 -> 0 <= q3 ax <= PI ->
  unit_quaternion (ax2qu ax) /\ 0 <= q0 (ax2qu ax).
Proof.
  intros Hn Hw. unfold ax2qu. destruct (iszero (q3 ax)).
  - split; [unfold unit_quaternion; simpl; lra | simpl; lra].
  - pose proof PI_RGT_0 as Hpi. split.
    + apply unit_quaternion_qdot. unfold qdot; cbn [q0 q1 q2 q3].
      pose proof (sin2_cos2 (q3 ax * (1 / 2))) as Hsc. unfold Rsqr in Hsc.
      set (c := cos (q3 ax * (1 / 2))) in *. set (s := sin (q3 ax * (1 / 2))) in *.
      unfold dot3, head3 in Hn; cbn [v0 v1 v2] in Hn.
      replace (c * c + q0 ax * s * (q0 ax * s) + q1 ax * s * (q1 ax * s)
               + q2 ax * s * (q2 ax * s))
        with (c * c + s * s * (q0 ax * q0 ax + q1 ax * q1 ax + q2 ax * q2 ax)) by ring.
      rewrite Hn. lra.
    + cbn [q0]. apply cos_ge_0; lra.
Qed.

(** X12: with [normalise] set, [fromAxisAngle] accepts every axis that is
    not the zero vector together with every angle between 0 and pi, and
    returns a unit quaternion with a non-negative real part. *)
Theorem fromAxisAngle_normalise (angleAxis : quat) :
  0 < dot3 (head3 angleAxis) (head3 angleAxis) ->
  0 <= q3 angleAxis <= PI ->
  exists q, fromAxisAngle angleAxis false true (-1) = Ok q
            /\ unit_quaternion q /\ 0 <= q0 q.
Proof.
  intros Hn Hw. unfold fromAxisAngle.
  assert (G : Np.gtb (-1) 0 = false) by (apply ltb_false; lra). rewrite G.
  set (ax := with_head3 (normalized (head3 angleAxis)) angleAxis).
  assert (H3 : q3 ax = q3 angleAxis) by reflexivity.
  assert (Hh : head3 ax = normalized (head3 angleAxis)) by reflexivity.
  unfold Np.gtb. rewrite H3.
  assert (E1 : Np.ltb (q3 angleAxis) 0 = false) by (apply ltb_false; lra).
  assert (E2 : Np.ltb PI (q3 angleAxis) = false) by (apply ltb_false; lra).
  rewrite E1, E2. cbn [orb]. rewrite Hh, norm3_normalized, isclose_one by exact Hn.
  cbn [negb]. eexists. split; [reflexivity|].
  apply ax2qu_unit.
  - rewrite Hh. apply normalized_unit, Hn.
  - rewrite H3. exact Hw.
Qed.

Lemma fromAxisAngle_normalise_witness :
  0 < dot3 (head3 (mkQ 0 0 2 1)) (head3 (mkQ 0 0 2 1))
  /\ 0 <= q3 (mkQ 0 0 2 1) <= PI
  /\ exists q, fromAxisAngle (mkQ 0 0 2 1) false true (-1) = Ok q
               /\ unit_quaternion q /\ 0 <= q0 q.
Proof.
  assert (H1 : 0 < dot3 (head3 (mkQ 0 0 2 1)) (head3 (mkQ 0 0 2 1)))
    by (unfold dot3; simpl; lra).
  assert (H2 : 0 <= q3 (mkQ 0 0 2 1) <= PI)
    by (pose proof PI2_1; simpl; lra).
  split; [exact H1|]. split; [exact H2|].
  exact (fromAxisAngle_normalise _ H1 H2).
Defined.

Lemma clip_inside (x : R) : -1 <= x <= 1 -> Np.clip x (-1) 1 = x.
Proof.
  intros H. unfold Np.clip.
  assert (E1 : Np.ltb x (-1) = false) by (apply ltb_false; lra).
  assert (E2 : Np.ltb 1 x = false) by (apply ltb_false; lra).
  rewrite E1, E2. reflexivity.
Qed.

(** What a generic rotation gives: [pp], the squared length of the vector
    part, is [1 - q0^2]; its root is positive; the half angle [acos q0] is
    positive, at most pi/2, and has cosine [q0] and sine [sqrt pp]. *)
Lemma generic_rotation_facts (q : quat) :
  generic_rotation q ->
  let pp := q1 q ^ 2 + q2 q ^ 2 + q3 q ^ 2 in
  0 < q0 q <= 1 /\ pp = 1 - (q0 q)² /\ 0 < sqrt pp
  /\ sqrt pp * sqrt pp = pp
  /\ / 10 ^ 12 < acos (q0 q) <= PI / 2
  /\ cos (acos (q0 q)) = q0 q /\ sin (acos (q0 q)) = sqrt pp.
Proof.
  intros (Hu & H0 & Hp) pp. fold pp in Hp.
  pose proof tiny_pos as [Ht0 Ht1].
  unfold unit_quaternion in Hu.
  assert (Hpp : pp = 1 - (q0 q)²) by (unfold pp, Rsqr; simpl in *; lra).
  assert (Hsq : 0 <= (q0 q)²) by apply Rle_0_sqr.
  assert (Hq1 : q0 q <= 1).
  { destruct (Rle_dec (q0 q) 1) as [H|H]; [exact H|]. exfalso.
    unfold Rsqr in *. nra. }
  assert (Hs : 0 < sqrt pp) by (apply sqrt_lt_R0; lra).
  assert (Hss : sqrt pp * sqrt pp = pp) by (apply sqrt_sqrt; lra).
  assert (Hsin : sin (acos (q0 q)) = sqrt pp) by (rewrite sin_acos, Hpp by lra; reflexivity).
  pose proof (acos_quarter (q0 q)) as [Ha0 Ha1]; [lra|].
  assert (Hapos : 0 < acos (q0 q)).
  { destruct Ha0 as [H|H]; [exact H|]. exfalso.
    rewrite <- H, sin_0 in Hsin. lra. }
  assert (Hs1 : sqrt pp <= 1).
  { rewrite <- Hsin. apply SIN_bound. }
  assert (Hge : pp <= sqrt pp) by nra.
  pose proof (sin_lt_x _ Hapos) as Hlt. rewrite Hsin in Hlt.
  repeat split; try lra. apply cos_acos. lra.
Qed.

Lemma np_sign_pos (x : R) : 0 < x -> np_sign x = 1.
Proof.
  intros H. unfold np_sign.
  assert (E1 : Np.ltb x 0 = false) by (apply ltb_false; lra).
  assert (E2 : Np.ltb 0 x = true) by (apply ltb_true; lra).
  rewrite E1, E2. reflexivity.
Qed.

Lemma qu2ax_generic (q : quat) :
  generic_rotation q ->
  qu2ax q = mkQ (q1 q * (1 / sqrt (q1 q ^ 2 + q2 q ^ 2 + q3 q ^ 2)))
                (q2 q * (1 / sqrt (q1 q ^ 2 + q2 q ^ 2 + q3 q ^ 2)))
                (q3 q * (1 / sqrt (q1 q ^ 2 + q2 q ^ 2 + q3 q ^ 2)))
                (2 * acos (q0 q)).
Proof.
  intros Hg. pose proof (generic_rotation_facts q Hg) as (H0 & _).
  destruct Hg as (_ & Hq & Hp). unfold qu2ax.
  rewrite (iszero_false_pos _ Hp), (iszero_false_pos _ Hq). cbn [negb].
  rewrite np_sign_pos, clip_inside by lra. reflexivity.
Qed.

Lemma qu2ax_unit_axis (q : quat) :
  generic_rotation q -> dot3 (head3 (qu2ax q)) (head3 (qu2ax q)) = 1.
Proof.
  intros Hg.
  pose proof (generic_rotation_facts q Hg) as (H0 & Hpp & Hs & Hss & Ha & Hc & Hsin).
  cbv zeta in *.
  rewrite (qu2ax_generic q Hg).
  pose proof tiny_pos as [Ht0 Ht1].
  destruct Hg as (_ & _ & Hp).
  set (pp := q1 q ^ 2 + q2 q ^ 2 + q3 q ^ 2) in *.
  set (n := sqrt pp) in *.
  unfold dot3, head3; cbn [q0 q1 q2 v0 v1 v2].
  replace (q1 q * (1 / n) * (q1 q * (1 / n)) + q2 q * (1 / n) * (q2 q * (1 / n))
           + q3 q * (1 / n) * (q3 q * (1 / n)))
    with (pp / (n * n)) by (unfold pp; simpl; field; apply Rgt_not_eq; exact Hs).
  rewrite Hss. field. apply Rgt_not_eq. lra.
Qed.

(** X13: for a generic rotation the axis-angle form has a unit axis and an
    angle between 0 and pi, and [fromAxisAngle] takes it back to the very
    same quaternion. *)
Theorem asAxisAngle_round_trip (q : quat) :
  generic_rotation q ->
  exists ax,
    asAxisAngle q false false = AxisAngle ax
    /\ dot3 (head3 ax) (head3 ax) = 1 /\ 0 <= q3 ax <= PI
    /\ fromAxisAngle ax false false (-1) = Ok q.
Proof.
  intros Hg.
  pose proof (generic_rotation_facts q Hg) as (H0 & Hpp & Hs & Hss & Ha & Hc & Hsin).
  pose proof (qu2ax_unit_axis q Hg) as Hunit.
  cbv zeta in *.
  exists (qu2ax q). split; [reflexivity|].
  rewrite (qu2ax_generic q Hg) in *.
  pose proof tiny_pos as [Ht0 Ht1]. pose proof PI_RGT_0 as Hpi.
  destruct Hg as (_ & _ & Hp).
  set (pp := q1 q ^ 2 + q2 q ^ 2 + q3 q ^ 2) in *.
  set (n := sqrt pp) in *.
  split; [exact Hunit|]. split; [cbn [q3]; lra|].
  unfold fromAxisAngle.
  assert (G : Np.gtb (-1) 0 = false) by (apply ltb_false; lra). rewrite G.
  unfold Np.gtb. cbn [q3].
  assert (E1 : Np.ltb (2 * acos (q0 q)) 0 = false) by (apply ltb_false; lra).
  assert (E2 : Np.ltb PI (2 * acos (q0 q)) = false) by (apply ltb_false; lra).
  rewrite E1, E2. cbn [orb].
  unfold norm3. rewrite Hunit, sqrt_1, isclose_one. cbn [negb].
  f_equal. unfold ax2qu. cbn [q0 q1 q2 q3].
  rewrite iszero_false_pos by lra.
  replace (2 * acos (q0 q) * (1 / 2)) with (acos (q0 q)) by field.
  rewrite Hc, Hsin. fold n.
  apply quat_eq; cbn [q0 q1 q2 q3]; try reflexivity; field; apply Rgt_not_eq; exact Hs.
Qed.

Lemma asAxisAngle_round_trip_witness :
  generic_rotation (mkQ (3/5) (4/5) 0 0)
  /\ exists ax,
       asAxisAngle (mkQ (3/5) (4/5) 0 0) false false = AxisAngle ax
       /\ dot3 (head3 ax) (head3 ax) = 1 /\ 0 <= q3 ax <= PI
       /\ fromAxisAngle ax false false (-1) = Ok (mkQ (3/5) (4/5) 0 0).
Proof.
  assert (H : generic_rotation (mkQ (3/5) (4/5) 0 0)).
  { pose proof tiny_pos. unfold generic_rotation, unit_quaternion; simpl. lra. }
  split; [exact H | exact (asAxisAngle_round_trip _ H)].
Defined.

Lemma norm_list3 (a b c : R) : Np.norm [a; b; c] = sqrt (a ^ 2 + b ^ 2 + c ^ 2).
Proof. unfold Np.norm, Np.dot; simpl. f_equal. ring. Qed.

Lemma qu2ro_generic (q : quat) :
  generic_rotation q ->
  qu2ro q = [Fin (q1 q / sqrt (q1 q ^ 2 + q2 q ^ 2 + q3 q ^ 2));
             Fin (q2 q / sqrt (q1 q ^ 2 + q2 q ^ 2 + q3 q ^ 2));
             Fin (q3 q / sqrt (q1 q ^ 2 + q2 q ^ 2 + q3 q ^ 2));
             Fin (sqrt (q1 q ^ 2 + q2 q ^ 2 + q3 q ^ 2) / q0 q)].
Proof.
  intros Hg.
  pose proof (generic_rotation_facts q Hg) as (H0 & Hpp & Hs & Hss & Ha & Hc & Hsin).
  cbv zeta in *. destruct Hg as (_ & Hq & Hp). pose proof tiny_pos as [Ht0 Ht1].
  unfold qu2ro. rewrite (iszero_false_pos _ Hq), norm_list3.
  set (pp := q1 q ^ 2 + q2 q ^ 2 + q3 q ^ 2) in *.
  assert (Hge : pp <= sqrt pp).
  { assert (sqrt pp <= 1) by (rewrite <- Hsin; apply SIN_bound). nra. }
  rewrite iszero_false_pos by lra.
  rewrite clip_inside, tan_acos, <- Hpp by lra. reflexivity.
Qed.

(** X14: for a generic rotation the Rodrigues-Frank vector is the vector
    part of the quaternion divided by its real part. *)
Theorem asRodrigues_vector (q : quat) :
  generic_rotation q ->
  asRodrigues q true = [Fin (q1 q / q0 q); Fin (q2 q / q0 q); Fin (q3 q / q0 q)].
Proof.
  intros Hg.
  pose proof (generic_rotation_facts q Hg) as (H0 & _ & Hs & _).
  cbv zeta in *.
  unfold asRodrigues. rewrite (qu2ro_generic q Hg).
  cbn [firstn nth map X.mul].
  set (n := sqrt (q1 q ^ 2 + q2 q ^ 2 + q3 q ^ 2)) in *.
  repeat f_equal; field; split; apply Rgt_not_eq; lra.
Qed.

Lemma asRodrigues_vector_witness :
  generic_rotation (mkQ (3/5) (4/5) 0 0)
  /\ asRodrigues (mkQ (3/5) (4/5) 0 0) true
     = [Fin (4/5 / (3/5)); Fin (0 / (3/5)); Fin (0 / (3/5))].
Proof.
  assert (H : generic_rotation (mkQ (3/5) (4/5) 0 0)).
  { pose proof tiny_pos. unfold generic_rotation, unit_quaternion; simpl. lra. }
  split; [exact H | exact (asRodrigues_vector _ H)].
Defined.

(** X15: for a generic rotation [fromRodrigues] takes the Rodrigues-Frank
    array of [asRodrigues] back to the very same quaternion. *)
Theorem asRodrigues_round_trip (q : quat) :
  generic_rotation q ->
  exists n t,
    asRodrigues q false = [Fin (v0 n); Fin (v1 n); Fin (v2 n); Fin t]
    /\ fromRodrigues n (Fin t) false (-1) = Ok q.
Proof.
  intros Hg.
  pose proof (generic_rotation_facts q Hg) as (H0 & Hpp & Hs & Hss & Ha & Hc & Hsin).
  cbv zeta in *. pose proof tiny_pos as [Ht0 Ht1]. pose proof PI_RGT_0 as Hpi.
  unfold asRodrigues. rewrite (qu2ro_generic q Hg).
  destruct Hg as (_ & Hq & Hp).
  set (pp := q1 q ^ 2 + q2 q ^ 2 + q3 q ^ 2) in *.
  set (s := sqrt pp) in *.
  exists (mkV (q1 q / s) (q2 q / s) (q3 q / s)), (s / q0 q).
  split; [reflexivity|].
  assert (Hs1 : s <= 1) by (rewrite <- Hsin; apply SIN_bound).
  assert (Hge : pp <= s) by nra.
  assert (Hunit : dot3 (mkV (q1 q / s) (q2 q / s) (q3 q / s))
                       (mkV (q1 q / s) (q2 q / s) (q3 q / s)) = 1).
  { unfold dot3; cbn [v0 v1 v2].
    replace (q1 q / s * (q1 q / s) + q2 q / s * (q2 q / s) + q3 q / s * (q3 q / s))
      with (pp / (s * s)) by (unfold pp; simpl; field; apply Rgt_not_eq; exact Hs).
    rewrite Hss. field. apply Rgt_not_eq. lra. }
  assert (Hn : norm3 (mkV (q1 q / s) (q2 q / s) (q3 q / s)) = 1)
    by (unfold norm3; rewrite Hunit; apply sqrt_1).
  assert (Ht : s <= s / q0 q).
  { assert (Hd : s / q0 q * q0 q = s) by (field; apply Rgt_not_eq; lra).
    assert (Hpos : 0 < s / q0 q) by (apply Rdiv_lt_0_compat; lra).
    nra. }
  assert (Htan : s / q0 q = tan (acos (q0 q))).
  { rewrite tan_acos, <- Hpp by lra. reflexivity. }
  assert (Hlt : acos (q0 q) < PI / 2).
  { destruct Ha as [_ [H|H]]; [exact H|]. exfalso.
    rewrite H, cos_PI2 in Hc. lra. }
  unfold fromRodrigues.
  assert (G : Np.gtb (-1) 0 = false) by (apply ltb_false; lra). rewrite G.
  rewrite Hn, isclose_one. cbn [negb negative].
  assert (E : Np.ltb (s / q0 q) 0 = false) by (apply ltb_false; lra). rewrite E.
  f_equal. unfold ro2qu, ro2ax.
  rewrite iszero_false_pos by lra.
  rewrite Hn, Htan, atan_tan by lra.
  unfold ax2qu. cbn [q0 q1 q2 q3 v0 v1 v2].
  rewrite iszero_false_pos by lra.
  replace (2 * acos (q0 q) * (1 / 2)) with (acos (q0 q)) by field.
  rewrite Hc, Hsin.
  apply quat_eq; cbn [q0 q1 q2 q3]; try reflexivity; field; apply Rgt_not_eq; exact Hs.
Qed.

Lemma asRodrigues_round_trip_witness :
  generic_rotation (mkQ (3/5) (4/5) 0 0)
  /\ exists n t,
       asRodrigues (mkQ (3/5) (4/5) 0 0) false = [Fin (v0 n); Fin (v1 n); Fin (v2 n); Fin t]
       /\ fromRodrigues n (Fin t) false (-1) = Ok (mkQ (3/5) (4/5) 0 0).
Proof.
  assert (H : generic_rotation (mkQ (3/5) (4/5) 0 0)).
  { pose proof tiny_pos. unfold generic_rotation, unit_quaternion; simpl. lra. }
  split; [exact H | exact (asRodrigues_round_trip _ H)].
Defined.

Lemma atan_sign (t : R) : (0 < t -> 0 < atan t) /\ (t <= 0 -> atan t <= 0).
Proof.
  split; intros H.
  - rewrite <- atan_0. apply atan_increasing, H.
  - destruct H as [H | ->]; [|rewrite atan_0; lra].
    rewrite <- atan_0. left. apply atan_increasing, H.
Qed.

Lemma arctan2_bound (y x : R) : - PI <= Np.arctan2 y x <= PI.
Proof.
  pose proof PI_RGT_0 as Hpi. pose proof (atan_bound (y / x)) as Hb.
  unfold Np.arctan2.
  destruct (Np.ltb 0 x) eqn:E1; [lra|]. apply ltb_false in E1.
  destruct (Np.ltb x 0) eqn:E2.
  - apply ltb_true in E2.
    assert (Hd : y / x * x = y) by (field; lra).
    destruct (Np.ltb y 0) eqn:E3.
    + apply ltb_true in E3.
      assert (Ht : 0 < y / x) by nra.
      pose proof (proj1 (atan_sign _) Ht). lra.
    + apply ltb_false in E3.
      assert (Ht : y / x <= 0) by nra.
      pose proof (proj2 (atan_sign _) Ht). lra.
  - destruct (Np.ltb 0 y); [lra|]. destruct (Np.ltb y 0); lra.
Qed.

Lemma arctan2_upper_half (y x : R) : 0 < y -> 0 <= Np.arctan2 y x <= PI.
Proof.
  intros Hy. pose proof PI_RGT_0 as Hpi. pose proof (atan_bound (y / x)) as Hb.
  unfold Np.arctan2.
  destruct (Np.ltb 0 x) eqn:E1.
  - apply ltb_true in E1.
    assert (Ht : 0 < y / x) by (apply Rdiv_lt_0_compat; lra).
    pose proof (proj1 (atan_sign _) Ht). lra.
  - apply ltb_false in E1. destruct (Np.ltb x 0) eqn:E2.
    + apply ltb_true in E2.
      assert (E3 : Np.ltb y 0 = false) by (apply ltb_false; lra). rewrite E3.
      assert (Hd : y / x * x = y) by (field; lra).
      assert (Ht : y / x <= 0) by nra.
      pose proof (proj2 (atan_sign _) Ht). lra.
    + assert (E3 : Np.ltb 0 y = true) by (apply ltb_true; lra). rewrite E3. lra.
Qed.

Lemma floor_unit_interval (r : R) : 0 <= r < 1 -> Np.floor r = 0%Z.
Proof.
  intros H. unfold Np.floor. symmetry. apply Int_part_spec. simpl. lra.
Qed.

Lemma reduce_turn (x : R) :
  - PI <= x <= PI ->
  0 <= (if Np.ltb x 0 then Np.mod_ (x + 2 * PI) (2 * PI) else x) <= 2 * PI.
Proof.
  intros Hx. pose proof PI_RGT_0 as Hpi.
  destruct (Np.ltb x 0) eqn:E; [apply ltb_true in E | apply ltb_false in E; lra].
  unfold Np.mod_. rewrite floor_unit_interval.
  - simpl. lra.
  - split.
    + apply Rmult_le_reg_r with (2 * PI); [lra|].
      replace ((x + 2 * PI) / (2 * PI) * (2 * PI)) with (x + 2 * PI) by (field; lra).
      lra.
    + apply Rmult_lt_reg_r with (2 * PI); [lra|].
      replace ((x + 2 * PI) / (2 * PI) * (2 * PI)) with (x + 2 * PI) by (field; lra).
      lra.
Qed.

Lemma reduce_eulers_range (eu : vec3) :
  - PI <= v0 eu <= PI -> 0 <= v1 eu <= PI -> - PI <= v2 eu <= PI ->
  0 <= v0 (reduce_eulers eu) <= 2 * PI
  /\ 0 <= v1 (reduce_eulers eu) <= PI
  /\ 0 <= v2 (reduce_eulers eu) <= 2 * PI.
Proof.
  intros H0 H1 H2. unfold reduce_eulers; cbn [v0 v1 v2].
  split; [apply reduce_turn, H0|]. split; [|apply reduce_turn, H2].
  assert (E : Np.ltb (v1 eu) 0 = false) by (apply ltb_false; lra).
  rewrite E. exact H1.
Qed.

(** X16: the Euler angles that [asEulers] returns in radians lie in
    [0,2pi], [0,pi], [0,2pi] for every quaternion, so that [fromEulers]
    takes them without a range error. *)
Theorem asEulers_in_range (q : quat) :
  0 <= v0 (asEulers q false) <= 2 * PI
  /\ 0 <= v1 (asEulers q false) <= PI
  /\ 0 <= v2 (asEulers q false) <= 2 * PI
  /\ fromEulers (vec3_list (asEulers q false)) false = Ok (eu2qu (asEulers q false)).
Proof.
  pose proof PI_RGT_0 as Hpi.
  assert (R' : 0 <= v0 (asEulers q false) <= 2 * PI
               /\ 0 <= v1 (asEulers q false) <= PI
               /\ 0 <= v2 (asEulers q false) <= 2 * PI).
  { unfold asEulers, qu2eu.
    set (chi := sqrt ((q0 q ^ 2 + q3 q ^ 2) * (q1 q ^ 2 + q2 q ^ 2))).
    destruct (iszero chi) eqn:Ez.
    - destruct (iszero (q1 q ^ 2 + q2 q ^ 2));
        apply reduce_eulers_range; cbn [v0 v1 v2];
        try apply arctan2_bound; lra.
    - apply reduce_eulers_range; cbn [v0 v1 v2]; try apply arctan2_bound.
      apply arctan2_upper_half.
      apply iszero_false_iff in Ez. pose proof tiny_pos as [Ht _].
      assert (Hc : 0 <= chi) by apply sqrt_pos.
      rewrite Rabs_right in Ez by lra. lra. }
  destruct R' as (A & B & C). repeat split; try tauto.
  destruct (asEulers q false) as [e0 e1 e2]. cbn [v0 v1 v2] in *.
  unfold vec3_list; cbn [v0 v1 v2].
  destruct (fromEulers_cases e0 e1 e2) as [[Ho _] | [_ Hr]]; [|exact Hr].
  exfalso. unfold eulers_out_of_range in Ho. lra.
Qed.

(** X17: with [pair] set, [asAxisAngle] hands the angle back in degrees
    even when [degrees] is not set, and converts it a second time when it
    is; for a generic rotation the radian angle is [2 acos q0]. *)
Theorem asAxisAngle_pair_degrees (q : quat) :
  generic_rotation q ->
  exists axis,
    dot3 axis axis = 1
    /\ asAxisAngle q false true = AxisAnglePair axis (degrees_of (2 * acos (q0 q)))
    /\ asAxisAngle q true true
       = AxisAnglePair axis (degrees_of (degrees_of (2 * acos (q0 q))))
    /\ asAxisAngle q false false
       = AxisAngle (mkQ (v0 axis) (v1 axis) (v2 axis) (2 * acos (q0 q))).
Proof.
  intros Hg. pose proof (qu2ax_unit_axis q Hg) as Hu.
  unfold asAxisAngle. cbv zeta.
  rewrite (qu2ax_generic q Hg) in *.
  eexists. split; [exact Hu|]. repeat split.
Qed.

Lemma asAxisAngle_pair_degrees_witness :
  generic_rotation (mkQ (3/5) (4/5) 0 0)
  /\ exists axis,
       dot3 axis axis = 1
       /\ asAxisAngle (mkQ (3/5) (4/5) 0 0) false true
          = AxisAnglePair axis (degrees_of (2 * acos (q0 (mkQ (3/5) (4/5) 0 0)))).
Proof.
  assert (H : generic_rotation (mkQ (3/5) (4/5) 0 0)).
  { pose proof tiny_pos. unfold generic_rotation, unit_quaternion; simpl. lra. }
  split; [exact H|].
  destruct (asAxisAngle_pair_degrees _ H) as (axis & Hu & Hp & _).
  exists axis. split; [exact Hu | exact Hp].
Defined.

(** ** Averaging, again *)

(** X18: [fromAverage] has no guard for an empty list: the matrix is never
    bound and the call dies with an unbound local variable, whatever the
    weights and the eigen-solver. *)
Theorem fromAverage_empty (eig : mat4 -> quat * mat4) (weights : list R) :
  fromAverage eig [] weights
  = Raise (UnboundLocalError "local variable M referenced before assignment").
Proof. unfold fromAverage. destruct weights; reflexivity. Qed.

Lemma principal_of_outer (eig : mat4 -> quat * mat4) (r : quat) :
  unit_quaternion r ->
  eigen_decomposition (asM r) (fst (eig (asM r))) (snd (eig (asM r))) ->
  exists q,
    (let (eig_, vec) := eig (asM r) in
     v <- column vec (argmax (quat_list eig_)) ;; fromQuaternion v true (-1)) = Ok q
    /\ (q = r \/ q = qscale (-1) r) /\ 0 <= q0 q.
Proof.
  intros Hu [Hpair Hspan].
  destruct (eig (asM r)) as [w V]. simpl in Hpair, Hspan.
  destruct w as [wa wb wc wd].
  destruct (Hpair 0%nat _ eq_refl) as [P0 N0].
  destruct (Hpair 1%nat _ eq_refl) as [P1 N1].
  destruct (Hpair 2%nat _ eq_refl) as [P2 N2].
  destruct (Hpair 3%nat _ eq_refl) as [P3 N3].
  simpl in P0, P1, P2, P3.
  pose proof (outer_eigenpair r _ _ Hu P0 N0) as C0.
  pose proof (outer_eigenpair r _ _ Hu P1 N1) as C1.
  pose proof (outer_eigenpair r _ _ Hu P2 N2) as C2.
  pose proof (outer_eigenpair r _ _ Hu P3 N3) as C3.
  assert (Hone : wa = 1 \/ wb = 1 \/ wc = 1 \/ wd = 1).
  { destruct C0 as [[_ Z0] | [? _]]; [|tauto].
    destruct C1 as [[_ Z1] | [? _]]; [|tauto].
    destruct C2 as [[_ Z2] | [? _]]; [|tauto].
    destruct C3 as [[_ Z3] | [? _]]; [|tauto].
    exfalso.
    assert (Hz : r = mkQ 0 0 0 0).
    { apply Hspan. intros i v Hc.
      destruct i as [|[|[|[|i]]]]; simpl in Hc; try discriminate;
        injection Hc as <-; assumption. }
    subst r. unfold unit_quaternion in Hu; simpl in Hu. lra. }
  pose proof (argmax_four wa wb wc wd) as (Hk & Ka & Kb & Kc & Kd).
  unfold quat_list; simpl q0; simpl q1; simpl q2; simpl q3.
  cbv zeta in Hk, Ka, Kb, Kc, Kd.
  set (k := argmax [wa; wb; wc; wd]) in *.
  assert (Hsel : forall v, column V k = Ok v ->
                           exists q, fromQuaternion v true (-1) = Ok q
                                     /\ (q = r \/ q = qscale (-1) r) /\ 0 <= q0 q).
  { intros v Hc.
    destruct (Hpair k v Hc) as [Pk Nk]. simpl in Pk.
    destruct (outer_eigenpair r _ _ Hu Pk Nk) as [[Zk _] | [_ Hv]].
    - exfalso.
      assert (Hw : wa <= 0 /\ wb <= 0 /\ wc <= 0 /\ wd <= 0) by (rewrite <- Zk; tauto).
      lra.
    - destruct (fromQuaternion_homomorph v Nk) as (q & Hq & Hs & Hpos).
      exists q. split; [exact Hq|]. split; [|exact Hpos].
      destruct Hv as [-> | ->]; destruct Hs as [-> | ->]; auto.
      rewrite qscale_opp_opp. auto. }
  clearbody k.
  destruct k as [|[|[|[|k]]]]; try lia; simpl; apply Hsel; reflexivity.
Qed.

Lemma asM_qscale_opp (r : quat) : asM (qscale (-1) r) = asM r.
Proof.
  destruct r. unfold asM, outer, qscale; simpl.
  f_equal; apply quat_eq; simpl; ring.
Qed.

Lemma pair_matrix (r : quat) :
  div4 (add4 (times4 (asM r) 1) (times4 (asM r) 1)) (INR 2) = asM r.
Proof.
  destruct r as [a b c d].
  unfold div4, add4, times4, map4, qadd, asM, outer, qscale; simpl.
  f_equal; apply quat_eq; simpl; field.
Qed.

(** X19: [average] does not see the global sign: the average of a unit
    quaternion with itself or with its negative is that quaternion up to
    sign, returned with a non-negative real part. *)
Theorem average_same_rotation (eig : mat4 -> quat * mat4) (r other : quat) :
  unit_quaternion r ->
  other = r \/ other = qscale (-1) r ->
  eigen_decomposition (asM r) (fst (eig (asM r))) (snd (eig (asM r))) ->
  exists q, average eig r other = Ok q
            /\ (q = r \/ q = qscale (-1) r) /\ 0 <= q0 q.
Proof.
  intros Hu Ho He.
  assert (Hm : asM other = asM r).
  { destruct Ho as [-> | ->]; [reflexivity | apply asM_qscale_opp]. }
  unfold average, fromAverage.
  cbn -[argmax asM times4 add4 div4 INR column fromQuaternion quat_list].
  rewrite Hm, pair_matrix.
  exact (principal_of_outer eig r Hu He).
Qed.

Lemma average_same_rotation_witness :
  unit_quaternion (mkQ 1 0 0 0)
  /\ exists q, average eig_identity (mkQ 1 0 0 0) (qscale (-1) (mkQ 1 0 0 0)) = Ok q
               /\ (q = mkQ 1 0 0 0 \/ q = qscale (-1) (mkQ 1 0 0 0)) /\ 0 <= q0 q.
Proof.
  assert (H : unit_quaternion (mkQ 1 0 0 0))
    by (unfold unit_quaternion; simpl; lra).
  split; [exact H|].
  exact (average_same_rotation eig_identity _ _ H (or_intror eq_refl)
           eig_identity_decomposition).
Defined.

(** ** Symmetry *)

Lemma sqrt2_sqrt2 : sqrt 2 * sqrt 2 = 2.
Proof. apply sqrt_sqrt. lra. Qed.

Lemma sqrt3_sqrt3 : sqrt 3 * sqrt 3 = 3.
Proof. apply sqrt_sqrt. lra. Qed.

Lemma sqrt2_bounds : 1 < sqrt 2 < 2.
Proof.
  pose proof sqrt2_sqrt2 as H. pose proof (sqrt_pos 2) as Hp. split; nra.
Qed.

Lemma sqrt3_bounds : 1 < sqrt 3 < 2.
Proof.
  pose proof sqrt3_sqrt3 as H. pose proof (sqrt_pos 3) as Hp. split; nra.
Qed.

Lemma symQuats_unit (self : Symmetry) : Forall unit_quaternion (symQuats self).
Proof.
  pose proof sqrt2_sqrt2 as H2. pose proof sqrt3_sqrt3 as H3.
  destruct self; unfold symQuats; repeat constructor;
    unfold unit_quaternion; simpl; lra.
Qed.

(** X20: asked for all its members, [symmetryOperations] returns 24, 12, 8,
    4 or 1 operators, every one of them a unit quaternion, the identity
    first. *)
Theorem symmetryOperations_unit (self : Symmetry) :
  symmetryOperations self (Members []) = Ok (inl (symQuats self))
  /\ Forall unit_quaternion (symQuats self)
  /\ nth_error (symQuats self) 0 = Some (mkQ 1 0 0 0)
  /\ List.length (symQuats self)
     = match self with
       | cubic => 24%nat
       | hexagonal => 12%nat
       | tetragonal => 8%nat
       | orthorhombic => 4%nat
       | none => 1%nat
       end.
Proof.
  split; [reflexivity|]. split; [|split].
  - apply symQuats_unit.
  - destruct self; reflexivity.
  - destruct self; reflexivity.
Qed.

(** X21: on finite vectors the fundamental zone is point symmetric about
    the origin, as the docstring has it. *)
Theorem inFZ_point_symmetric (self : Symmetry) (a b c : R) :
  inFZ self [Fin (- a); Fin (- b); Fin (- c)] = inFZ self [Fin a; Fin b; Fin c].
Proof.
  unfold inFZ. cbn [Np.any existsb X.eqb orb X.abs]. rewrite !Rabs_Ropp. reflexivity.
Qed.

Lemma xgeb_fin (x : R) (r : xfloat) :
  X.geb (Fin x) (X.abs r) = true -> exists y, r = Fin y /\ Rabs y <= x.
Proof.
  destruct r as [y| | |]; simpl; try discriminate.
  intros H. exists y. split; [reflexivity|]. apply leb_true in H. exact H.
Qed.

Lemma inFZ_orthorhombic_iff (r0 r1 r2 : xfloat) :
  inFZ orthorhombic [r0; r1; r2] = Ok true
  <-> exists a b c, r0 = Fin a /\ r1 = Fin b /\ r2 = Fin c
                    /\ Rabs a <= 1 /\ Rabs b <= 1 /\ Rabs c <= 1.
Proof.
  split.
  - unfold inFZ. destruct (Np.any _ _); [discriminate|].
    intros H. injection H as H. rewrite !andb_true_iff in H.
    destruct H as [[Ha Hb] Hc].
    apply xgeb_fin in Ha, Hb, Hc.
    destruct Ha as (a & -> & Ha), Hb as (b & -> & Hb), Hc as (c & -> & Hc).
    exists a, b, c. repeat split; assumption.
  - intros (a & b & c & -> & -> & -> & Ha & Hb & Hc).
    unfold inFZ. simpl. unfold Np.geb.
    rewrite !(proj2 (leb_true _ _)) by assumption. reflexivity.
Qed.

Ltac fz_hyp H :=
  unfold inFZ in H;
  match type of H with
  | context [Np.any ?p ?l] => destruct (Np.any p l); [discriminate H|]
  end;
  injection H as H; rewrite ?andb_true_iff in H.

Ltac fz_goal :=
  unfold inFZ; simpl; unfold Np.geb;
  rewrite ?(proj2 (leb_true _ _)) by lra; reflexivity.

(** X22: the zones shrink as the symmetry grows: a vector in the cubic zone
    is in the tetragonal one, a vector in the tetragonal or in the hexagonal
    zone is in the orthorhombic one, and the origin lies in all of them. *)
Theorem inFZ_nested (rodrigues : list xfloat) :
  (inFZ cubic rodrigues = Ok true -> inFZ tetragonal rodrigues = Ok true)
  /\ (inFZ tetragonal rodrigues = Ok true -> inFZ orthorhombic rodrigues = Ok true)
  /\ (inFZ hexagonal rodrigues = Ok true -> inFZ orthorhombic rodrigues = Ok true)
  /\ (inFZ orthorhombic rodrigues = Ok true -> inFZ none rodrigues = Ok true)
  /\ (forall self, inFZ self [Fin 0; Fin 0; Fin 0] = Ok true).
Proof.
  pose proof sqrt2_bounds as S2. pose proof sqrt3_bounds as S3.
  repeat split.
  - intros H. destruct rodrigues as [|r0 [|r1 [|r2 [|r3 l]]]]; try discriminate H.
    fz_hyp H. destruct H as [[[Ha Hb] Hc] Hs].
    apply xgeb_fin in Ha, Hb, Hc.
    destruct Ha as (a & -> & Ha), Hb as (b & -> & Hb), Hc as (c & -> & Hc).
    fz_goal.
  - intros H. destruct rodrigues as [|r0 [|r1 [|r2 [|r3 l]]]]; try discriminate H.
    fz_hyp H. destruct H as [[[Ha Hb] Hs] Hc].
    apply xgeb_fin in Ha, Hb.
    destruct Ha as (a & -> & Ha), Hb as (b & -> & Hb).
    destruct r2 as [c| | |]; simpl in Hc; try discriminate Hc.
    apply leb_true in Hc. fz_goal.
  - intros H. destruct rodrigues as [|r0 [|r1 [|r2 [|r3 l]]]]; try discriminate H.
    fz_hyp H. destruct H as [[[[[Ha Hb] Hc] _] _] _].
    apply xgeb_fin in Ha, Hb, Hc.
    destruct Ha as (a & -> & Ha), Hb as (b & -> & Hb), Hc as (c & -> & Hc).
    fz_goal.
  - intros H. destruct rodrigues as [|r0 [|r1 [|r2 [|r3 l]]]]; try discriminate H.
    unfold inFZ in *. destruct (Np.any _ _); [discriminate H | reflexivity].
  - intros self. pose proof Rabs_R0 as Hz.
    destruct self; unfold inFZ; simpl; unfold Np.geb; rewrite ?Hz;
      rewrite ?(proj2 (leb_true _ _)) by lra; reflexivity.
Qed.

(** X23: asking [inSST] for the colour does not change its verdict or its
    errors, and a vector outside the triangle is given the zero colour. *)
Theorem inSST_color_consistent (self : Symmetry) (vector : list R) (proper : bool) :
  (exists e, inSST self vector proper false = Raise e
             /\ inSST self vector proper true = Raise e)
  \/ (exists b rgb,
        inSST self vector proper false = Ok (Verdict b)
        /\ inSST self vector proper true = Ok (VerdictColor b rgb)
        /\ (if b then True else rgb = mkV 0 0 0)).
Proof.
  unfold inSST.
  destruct (basis_improper self) as [improper|], (basis_proper self) as [proper_basis|];
    try (right; exists true, (mkV 0 0 0); repeat split; reflexivity).
  match goal with
  | |- context [rbind ?m _] => destruct m as [[theComponents b]|e]
  end; cbn [rbind].
  - right. destruct b.
    + exists true, (color_of theComponents). repeat split; reflexivity.
    + exists false, (mkV 0 0 0). repeat split; reflexivity.
  - left. exists e. split; reflexivity.
Qed.

(** X24: without [proper] the test does not see the sign of the z
    component: a vector and its mirror image in the xy-plane get the same
    answer, colour included. *)
Theorem inSST_mirror (self : Symmetry) (x y z : R) (color : bool) :
  inSST self [x; y; - z] false color = inSST self [x; y; z] false color.
Proof.
  unfold inSST.
  destruct (basis_improper self), (basis_proper self); try reflexivity.
  cbn [abs_z rbind]. rewrite Rabs_Ropp. reflexivity.
Qed.

Lemma xgeb_zero (r : xfloat) :
  X.geb r (Fin 0) = true -> r = PInf \/ exists y, r = Fin y /\ 0 <= y.
Proof.
  destruct r as [y| | |]; simpl; try discriminate; [|auto].
  intros H. right. exists y. split; [reflexivity|]. apply leb_true in H. exact H.
Qed.

Ltac sst_case H :=
  simpl in H; simpl;
  repeat match goal with
         | E : Np.ltb 0 (sqrt 3) = true |- _ => rewrite E in H
         end;
  try discriminate H;
  unfold Np.geb in *;
  try (injection H as H; rewrite ?andb_true_iff in H);
  repeat match goal with
         | G : _ /\ _ |- _ => destruct G
         | G : false = true |- _ => discriminate G
         | G : Np.leb _ _ = true |- _ => apply leb_true in G
         end;
  rewrite ?(proj2 (leb_true _ _)) by nra; reflexivity.

(** X25: the disorientation triangles are nested as well: the cubic one
    lies in the tetragonal one, the hexagonal one too, and the tetragonal
    one in the orthorhombic octant of non-negative components. *)
Theorem inDisorientationSST_nested (rodrigues : list xfloat) :
  (inDisorientationSST cubic rodrigues = Ok true ->
   inDisorientationSST tetragonal rodrigues = Ok true)
  /\ (inDisorientationSST hexagonal rodrigues = Ok true ->
      inDisorientationSST tetragonal rodrigues = Ok true)
  /\ (inDisorientationSST tetragonal rodrigues = Ok true ->
      inDisorientationSST orthorhombic rodrigues = Ok true)
  /\ (inDisorientationSST orthorhombic rodrigues = Ok true ->
      exists r0 r1 r2, rodrigues = [r0; r1; r2]
                       /\ X.geb r0 (Fin 0) = true /\ X.geb r1 (Fin 0) = true
                       /\ X.geb r2 (Fin 0) = true).
Proof.
  pose proof sqrt3_bounds as S3.
  assert (E3 : Np.ltb 0 (sqrt 3) = true) by (apply ltb_true; lra).
  repeat split; intros H;
    destruct rodrigues as [|r0 [|r1 [|r2 [|r3 l]]]]; try discriminate H.
  - destruct r0, r1, r2; sst_case H.
  - destruct r0, r1, r2; sst_case H.
  - destruct r0, r1, r2; sst_case H.
  - exists r0, r1, r2. split; [reflexivity|].
    unfold inDisorientationSST in H. injection H as H.
    rewrite !andb_true_iff in H. tauto.
Qed.

(** ** Lattices *)

Lemma lower_ascii_idempotent (c : Ascii.ascii) :
  lower_ascii (lower_ascii c) = lower_ascii c.
Proof.
  destruct c as [[|] [|] [|] [|] [|] [|] [|] [|]]; vm_compute; reflexivity.
Qed.

Lemma lower_idempotent (s : string) : lower (lower s) = lower s.
Proof.
  induction s as [|c s IH]; simpl; [reflexivity|].
  rewrite lower_ascii_idempotent, IH. reflexivity.
Qed.

(** X26: a crystal system is looked up by its lower-cased name: [Symmetry]
    gives the same answer for a name and for its lower-case form, takes no
    name at all, and raises a KeyError exactly when the lower-cased name is
    none of the four systems. *)
Theorem Symmetry_init_case_insensitive (symmetry : string) :
  Symmetry_init (Some symmetry) = Symmetry_init (Some (lower symmetry))
  /\ Symmetry_init None = Ok none
  /\ (Symmetry_init (Some symmetry)
      = Raise (KeyError "Symmetry/crystal system is unknown")
      <-> ~ In (lower symmetry) crystal_systems)
  /\ ((exists s, Symmetry_init (Some symmetry) = Ok s)
      <-> In (lower symmetry) crystal_systems).
Proof.
  split; [unfold Symmetry_init; rewrite lower_idempotent; reflexivity|].
  split; [reflexivity|].
  unfold Symmetry_init, crystal_systems.
  set (l := lower symmetry).
  destruct (String.eqb l "orthorhombic") eqn:E1;
    [apply String.eqb_eq in E1; rewrite E1; split; split; intros H;
     try discriminate H; try (simpl; tauto); try (eexists; reflexivity);
     exfalso; apply H; simpl; tauto |].
  destruct (String.eqb l "tetragonal") eqn:E2;
    [apply String.eqb_eq in E2; rewrite E2; split; split; intros H;
     try discriminate H; try (simpl; tauto); try (eexists; reflexivity);
     exfalso; apply H; simpl; tauto |].
  destruct (String.eqb l "hexagonal") eqn:E3;
    [apply String.eqb_eq in E3; rewrite E3; split; split; intros H;
     try discriminate H; try (simpl; tauto); try (eexists; reflexivity);
     exfalso; apply H; simpl; tauto |].
  destruct (String.eqb l "cubic") eqn:E4;
    [apply String.eqb_eq in E4; rewrite E4; split; split; intros H;
     try discriminate H; try (simpl; tauto); try (eexists; reflexivity);
     exfalso; apply H; simpl; tauto |].
  apply String.eqb_neq in E1, E2, E3, E4.
  split; split; intros H.
  - simpl. intuition congruence.
  - reflexivity.
  - destruct H as [s H]. discriminate H.
  - exfalso. simpl in H. intuition congruence.
Qed.

Lemma Lattice_init_eval (name : string) :
  (In name bravais
   /\ exists s, Lattice_init name = Ok (mkLattice name s)
                /\ (s = cubic <-> endpoint name))
  \/ (~ In name bravais /\ Lattice_init name = Raise (KeyError name)).
Proof.
  unfold Lattice_init, lattices, bravais, endpoint.
  destruct (String.eqb name "triclinic") eqn:E1.
  { apply String.eqb_eq in E1. subst name. left. split; [simpl; tauto|].
    exists none. split; [reflexivity|]. split; [discriminate|].
    intros [G | G]; discriminate G. }
  destruct (String.eqb name "bct") eqn:E2.
  { apply String.eqb_eq in E2. subst name. left. split; [simpl; tauto|].
    exists tetragonal. split; [reflexivity|]. split; [discriminate|].
    intros [G | G]; discriminate G. }
  destruct (String.eqb name "hex") eqn:E3.
  { apply String.eqb_eq in E3. subst name. left. split; [simpl; tauto|].
    exists hexagonal. split; [reflexivity|]. split; [discriminate|].
    intros [G | G]; discriminate G. }
  destruct (String.eqb name "fcc") eqn:E4.
  { apply String.eqb_eq in E4. subst name. left. split; [simpl; tauto|].
    exists cubic. split; [reflexivity|]. split; auto. }
  destruct (String.eqb name "bcc") eqn:E5.
  { apply String.eqb_eq in E5. subst name. left. split; [simpl; tauto|].
    exists cubic. split; [reflexivity|]. split; auto. }
  apply String.eqb_neq in E1, E2, E3, E4, E5.
  right. split; [|reflexivity]. simpl. intuition congruence.
Qed.

(** X27: [Lattice] raises a KeyError exactly for a name that is not one of
    triclinic, bct, hex, fcc, bcc; a lattice it builds keeps its name, and
    it is cubic exactly when it is fcc or bcc, the two endpoints of the
    orientation relationships. *)
Theorem Lattice_init_cases (name : string) :
  (Lattice_init name = Raise (KeyError name) <-> ~ In name bravais)
  /\ ((exists L, Lattice_init name = Ok L) <-> In name bravais)
  /\ (forall L, Lattice_init name = Ok L ->
        lattice L = name /\ (symmetry L = cubic <-> endpoint name)).
Proof.
  destruct (Lattice_init_eval name) as [(Hin & s & Hr & Hs) | (Hin & Hr)]; rewrite Hr.
  - split; [|split].
    + split; intros G; [discriminate G | contradiction].
    + split; intros G; [exact Hin | eexists; reflexivity].
    + intros L G. injection G as <-. split; [reflexivity | exact Hs].
  - split; [|split].
    + split; intros G; [exact Hin | reflexivity].
    + split; intros G; [destruct G as [L G]; discriminate G | contradiction].
    + intros L G. discriminate G.
Qed.

Lemma other_of_endpoint (l : string) :
  endpoint l -> endpoint (other_of l) /\ other_of l <> l /\ other_of (other_of l) = l.
Proof.
  unfold endpoint, other_of. intros [-> | ->]; simpl; repeat split; auto; discriminate.
Qed.

Lemma relationOperations_unit (self : Lattice) (model : string) (r : relation) :
  relationOperations self model = Ok r ->
  Forall (fun q => unit_quaternion q /\ 0 <= q0 q) (r_rotations r).
Proof.
  intros Hr.
  destruct (relationOperations_cases self model)
    as [[_ H] | [(_ & _ & H) | (Hk & He & rel & Hm & H)]];
    rewrite H in Hr; try discriminate Hr.
  injection Hr as <-. cbn [r_rotations].
  apply Forall_map, Forall_forall. intros miller _.
  unfold row_rotation, om2qu. apply eu2qu_unit.
Qed.

(** X28: what [relationOperations] returns: every rotation is a unit
    quaternion with a non-negative real part; the target lattice is the
    other endpoint, cubic again; and asking the target for the same
    relationship leads back to the lattice one started from, with as many
    rotations. *)
Theorem relationOperations_result (self : Lattice) (model : string) (r : relation) :
  relationOperations self model = Ok r ->
  Forall (fun q => unit_quaternion q /\ 0 <= q0 q) (r_rotations r)
  /\ endpoint (lattice (r_lattice r))
  /\ lattice (r_lattice r) <> lattice self
  /\ symmetry (r_lattice r) = cubic
  /\ exists r', relationOperations (r_lattice r) model = Ok r'
                /\ lattice (r_lattice r') = lattice self
                /\ List.length (r_rotations r') = List.length (r_rotations r).
Proof.
  intros Hr. split; [exact (relationOperations_unit _ _ _ Hr)|].
  destruct (relationOperations_cases self model)
    as [[_ H] | [(_ & _ & H) | (Hk & He & rel & Hm & H)]];
    rewrite H in Hr; try discriminate Hr.
  injection Hr as <-. cbn [r_rotations r_lattice lattice symmetry].
  destruct (other_of_endpoint _ He) as (He' & Hne & Hback).
  split; [exact He' | split; [exact Hne | split; [reflexivity|]]].
  - destruct (relationOperations_cases (mkLattice (other_of (lattice self)) cubic) model)
      as [[Hk' _] | [(_ & He'' & _) | (_ & _ & rel' & Hm' & H')]];
      try contradiction.
    rewrite Hm in Hm'. injection Hm' as <-.
    eexists. split; [exact H'|].
    cbn [r_rotations r_lattice lattice]. split; [exact Hback|].
    rewrite !length_map. reflexivity.
Qed.

Lemma relationOperations_result_witness :
  exists r, relationOperations (mkLattice "fcc" cubic) "Bain" = Ok r
            /\ Forall (fun q => unit_quaternion q /\ 0 <= q0 q) (r_rotations r)
            /\ List.length (r_rotations r) = 3%nat.
Proof.
  destruct (relationOperations_cases (mkLattice "fcc" cubic) "Bain")
    as [[Hk _] | [(_ & He & _) | (_ & _ & rel & Hm & H)]].
  - exfalso. apply Hk. unfold known_model. simpl. tauto.
  - exfalso. apply He. left. reflexivity.
  - eexists. split; [exact H|].
    split; [exact (proj1 (relationOperations_result _ _ _ H))|].
    injection Hm as <-. reflexivity.
Defined.

(** ** Orientations *)

Lemma hamilton_one_l (q : quat) : hamilton (mkQ 1 0 0 0) q = q.
Proof.
  destruct q. unfold hamilton, append, add3, scale3, cross, dot3, tail3, P; simpl.
  f_equal; ring.
Qed.

Lemma mul_rotation_one_standardize (q : quat) :
  mul_rotation (mkQ 1 0 0 0) q = standardize_array q.
Proof. rewrite mul_rotation_hamilton, hamilton_one_l. reflexivity. Qed.

Lemma equivalent_head (self : Orientation) :
  exists rest,
    equivalent self
    = mkOrientation (standardized (rotation self)) (o_lattice self) :: rest.
Proof.
  unfold equivalent, symmetry_operations, matmul_rotation, standardized.
  destruct (symmetry (o_lattice self)); cbn [symQuats map];
    rewrite mul_rotation_one_standardize; eexists; reflexivity.
Qed.

(** X29: an orientation has as many equivalents as its symmetry has
    operators; the first is the orientation itself, standardized; all are on
    the same lattice, standardized, and of unit length when the orientation
    is. *)
Theorem equivalent_invariants (self : Orientation) :
  unit_quaternion (rotation self) ->
  List.length (equivalent self) = List.length (symQuats (symmetry (o_lattice self)))
  /\ nth_error (equivalent self) 0
     = Some (mkOrientation (standardized (rotation self)) (o_lattice self))
  /\ Forall (fun o => o_lattice o = o_lattice self
                      /\ unit_quaternion (rotation o) /\ 0 <= q0 (rotation o))
            (equivalent self).
Proof.
  intros Hu. split; [apply length_map|]. split.
  - destruct (equivalent_head self) as [rest ->]. reflexivity.
  - unfold equivalent, symmetry_operations, matmul_rotation.
    apply Forall_map, Forall_forall. intros s Hs. cbn [o_lattice rotation].
    split; [reflexivity|]. split.
    + apply mul_rotation_unit; [|exact Hu].
      pose proof (symQuats_unit (symmetry (o_lattice self))) as Hall.
      rewrite Forall_forall in Hall. apply Hall, Hs.
    + apply standardize_array_nonneg.
Qed.

Lemma equivalent_invariants_witness :
  List.length (equivalent (mkOrientation (mkQ 1 0 0 0) (mkLattice "fcc" cubic))) = 24%nat
  /\ Forall (fun o => unit_quaternion (rotation o) /\ 0 <= q0 (rotation o))
            (equivalent (mkOrientation (mkQ 1 0 0 0) (mkLattice "fcc" cubic))).
Proof.
  assert (Hu : unit_quaternion (rotation (mkOrientation (mkQ 1 0 0 0) (mkLattice "fcc" cubic)))).
  { unfold unit_quaternion. simpl. lra. }
  destruct (equivalent_invariants _ Hu) as (Hl & _ & Hall).
  split; [exact Hl|].
  eapply Forall_impl; [|exact Hall]. intros o (_ & H1 & H2). split; assumption.
Defined.

(** X30: [relatedOrientations] fails exactly as [relationOperations] does,
    with the same exception; otherwise it returns one orientation for each
    rotation of the relationship, all on the target lattice and
    standardized, and of unit length when the orientation is. *)
Theorem relatedOrientations_result (self : Orientation) (model : string) :
  (forall e, relatedOrientations self model = Raise e
             <-> relationOperations (o_lattice self) model = Raise e)
  /\ (forall os, relatedOrientations self model = Ok os ->
        exists r, relationOperations (o_lattice self) model = Ok r
                  /\ List.length os = List.length (r_rotations r)
                  /\ Forall (fun o => o_lattice o = r_lattice r
                                      /\ 0 <= q0 (rotation o)
                                      /\ (unit_quaternion (rotation self) ->
                                          unit_quaternion (rotation o))) os).
Proof.
  unfold relatedOrientations.
  destruct (relationOperations (o_lattice self) model) as [r|e0] eqn:Hr;
    simpl; split.
  - intros e. split; discriminate.
  - intros os Hos. injection Hos as <-. exists r.
    split; [reflexivity|]. split; [apply length_map|].
    apply Forall_map, Forall_forall. intros o Ho. cbn [o_lattice rotation].
    split; [reflexivity|]. split; [apply standardize_array_nonneg|].
    intros Hu. apply mul_rotation_unit; [|exact Hu].
    pose proof (relationOperations_unit _ _ _ Hr) as Hall.
    rewrite Forall_forall in Hall. apply Hall, Ho.
  - intros e. split; intros H; injection H as <-; reflexivity.
  - intros os Hos. discriminate Hos.
Qed.
